(** * ETL connector: AlienVault OTX -> MongoDB

    A shallow embedding of [etl_connector.py] and the properties of its
    incremental-sync protocol: key rewriting, resume-point resolution,
    paginated extraction, watermark tracking and the upsert load.

    Python values are JSON trees.  A [string] is read as the Python [str]
    whose code points are the codes of its characters; [None] is [JNull]. *)

From Stdlib Require Import List String Ascii ZArith Bool Lia SpecFloat.
From Stdlib Require Import DecimalString.
Import ListNotations.

Local Open Scope string_scope.
Local Open Scope list_scope.
Local Open Scope Z_scope.

(* ================================================================== *)
(** * Python strings *)

Module PyStr.

(** [s.replace(old, new)] for one-character [old] and [new]. *)
Fixpoint replace (old new : ascii) (s : string) : string :=
  match s with
  | EmptyString => EmptyString
  | String c r =>
      String (if Ascii.eqb c old then new else c) (replace old new r)
  end.

(** [s.lstrip(c)] for a one-character strip set. *)
Fixpoint lstrip (c : ascii) (s : string) : string :=
  match s with
  | EmptyString => EmptyString
  | String c' r => if Ascii.eqb c' c then lstrip c r else s
  end.

(** [c in s] for a one-character [c]. *)
Fixpoint contains (c : ascii) (s : string) : bool :=
  match s with
  | EmptyString => false
  | String c' r => Ascii.eqb c' c || contains c r
  end.

(** [s[:n]]. *)
Fixpoint take (n : nat) (s : string) : string :=
  match n, s with
  | S n', String c r => String c (take n' r)
  | _, _ => EmptyString
  end.

(** [s1 > s2]: lexicographic by code point. *)
Definition gtb (s1 s2 : string) : bool := String.ltb s2 s1.

(** [str(n)] for an [int]. *)
Definition of_Z (n : Z) : string := NilZero.string_of_int (Z.to_int n).

(** [needle in hay], as a proposition. *)
Definition occurs_in (needle hay : string) : Prop :=
  exists pre post, hay = (pre ++ needle ++ post)%string.

End PyStr.

(* ================================================================== *)
(** * JSON values and Python dictionaries *)

#[warnings="-register-all"]
Inductive json : Type :=
| JNull
| JBool (b : bool)
| JInt (n : Z)
| JFloat (f : spec_float)
| JStr (s : string)
| JList (items : list json)
| JDict (items : list (string * json)).

(** Induction over JSON trees, through the lists of a value. *)

Section JsonInduction.
Variable P : json -> Prop.
Hypothesis HNull : P JNull.
Hypothesis HBool : forall b, P (JBool b).
Hypothesis HInt : forall n, P (JInt n).
Hypothesis HFloat : forall f, P (JFloat f).
Hypothesis HStr : forall s, P (JStr s).
Hypothesis HList : forall l, Forall P l -> P (JList l).
Hypothesis HDict : forall d, Forall (fun kv => P (snd kv)) d -> P (JDict d).

Fixpoint json_tree_ind (v : json) : P v :=
  match v with
  | JNull => HNull
  | JBool b => HBool b
  | JInt n => HInt n
  | JFloat f => HFloat f
  | JStr s => HStr s
  | JList l =>
      HList l
        ((fix go (l : list json) : Forall P l :=
            match l with
            | [] => Forall_nil _
            | x :: r => Forall_cons _ (json_tree_ind x) (go r)
            end) l)
  | JDict d =>
      HDict d
        ((fix go (d : list (string * json))
            : Forall (fun kv => P (snd kv)) d :=
            match d with
            | [] => Forall_nil _
            | kv :: r => Forall_cons _ (json_tree_ind (snd kv)) (go r)
            end) d)
  end.
End JsonInduction.

(** A [dict] keeps its items in insertion order, one item per key. *)
Definition dict : Type := list (string * json).

Module Dict.

Fixpoint lookup (d : dict) (k : string) : option json :=
  match d with
  | [] => None
  | (k', v) :: r => if String.eqb k' k then Some v else lookup r k
  end.

(** [d[k] = v]: an existing key keeps its place, a new one goes last. *)
Fixpoint set (d : dict) (k : string) (v : json) : dict :=
  match d with
  | [] => [(k, v)]
  | (k', v') :: r =>
      if String.eqb k' k then (k', v) :: r else (k', v') :: set r k v
  end.

(** The dict a comprehension builds from its [(key, value)] pairs. *)
Definition of_items (items : list (string * json)) : dict :=
  fold_left (fun d kv => set d (fst kv) (snd kv)) items [].

Definition keys (d : dict) : list string := map fst d.

(** [d.get(k)], and [d.get(k, default)]. *)
Definition get (d : dict) (k : string) : json :=
  match lookup d k with Some v => v | None => JNull end.

Definition get_default (d : dict) (k : string) (default : json) : json :=
  match lookup d k with Some v => v | None => default end.

(** The unique-key invariant of a Python dict. *)
Definition wf (d : dict) : Prop := NoDup (keys d).

End Dict.

(** Every mapping key of a value, at every nesting depth. *)
Fixpoint json_keys (v : json) : list string :=
  match v with
  | JDict items =>
      flat_map (fun kv => fst kv :: json_keys (snd kv)) items
  | JList items => flat_map json_keys items
  | _ => []
  end.

(** Python truthiness ([bool(v)]). *)
Definition truthy (v : json) : bool :=
  match v with
  | JNull => false
  | JBool b => b
  | JInt n => negb (n =? 0)
  | JFloat (S754_zero _) => false
  | JFloat _ => true
  | JStr s => negb (String.eqb s EmptyString)
  | JList l => match l with [] => false | _ => true end
  | JDict d => match d with [] => false | _ => true end
  end.

(** [a or b]. *)
Definition py_or (a b : json) : json := if truthy a then a else b.

(* ================================================================== *)
(** * Normalizer: [safe_key], [make_mongo_safe] *)

Definition safe_key (key : string) : string :=
  PyStr.lstrip "$" (PyStr.replace "." "_" key).

Fixpoint make_mongo_safe (obj : json) : json :=
  match obj with
  | JDict items =>
      JDict (Dict.of_items
               (map (fun kv => (safe_key (fst kv), make_mongo_safe (snd kv)))
                    items))
  | JList items => JList (map make_mongo_safe items)
  | _ => obj
  end.

(* ================================================================== *)
(** * Python operations that can raise *)

(** [SystemExit] is a [BaseException]; everything else the program meets
    is an [Exception], kept with its class name and [str(e)]. *)
Inductive exn : Type :=
| SystemExit (msg : string)
| Exception (cls msg : string).

Inductive result (A : Type) : Type :=
| Ok (a : A)
| Raise (e : exn).
Arguments Ok {A} a.
Arguments Raise {A} e.

Definition RuntimeError (msg : string) : exn := Exception "RuntimeError" msg.
Definition TypeError (msg : string) : exn := Exception "TypeError" msg.
Definition AttributeError (msg : string) : exn :=
  Exception "AttributeError" msg.

Definition type_name (v : json) : string :=
  match v with
  | JNull => "NoneType"
  | JBool _ => "bool"
  | JInt _ => "int"
  | JFloat _ => "float"
  | JStr _ => "str"
  | JList _ => "list"
  | JDict _ => "dict"
  end.

(** [obj.get(k, default)]; only a dict has [get]. *)
Definition py_get (obj : json) (k : string) (default : json) : result json :=
  match obj with
  | JDict d => Ok (Dict.get_default d k default)
  | _ => Raise (AttributeError
                  ("'" ++ type_name obj ++ "' object has no attribute 'get'"))
  end.

(** [obj[k] = v] for a string key [k]. *)
Definition py_setitem (obj : json) (k : string) (v : json) : result json :=
  match obj with
  | JDict d => Ok (JDict (Dict.set d k v))
  | JList _ =>
      Raise (TypeError "list indices must be integers or slices, not str")
  | _ => Raise (TypeError ("'" ++ type_name obj
                           ++ "' object does not support item assignment"))
  end.

(** The items [for p in v] goes through. *)
Definition py_iter (v : json) : result (list json) :=
  match v with
  | JList l => Ok l
  | JStr s => Ok (map (fun c => JStr (String c EmptyString)) (list_ascii_of_string s))
  | JDict d => Ok (map JStr (Dict.keys d))
  | _ => Raise (TypeError ("'" ++ type_name v ++ "' object is not iterable"))
  end.

(** ['?' in url]. *)
Definition py_contains_qmark (url : json) : result bool :=
  match url with
  | JStr s => Ok (PyStr.contains "?" s)
  | JList l =>
      Ok (existsb (fun x => match x with
                            | JStr s => String.eqb s "?"
                            | _ => false
                            end) l)
  | JDict d => Ok (match Dict.lookup d "?" with Some _ => true | None => false end)
  | _ => Raise (TypeError ("argument of type '" ++ type_name url
                           ++ "' is not iterable"))
  end.

(** Structural equality of JSON values. *)
Definition float_eqb (x y : spec_float) : bool :=
  match x, y with
  | S754_zero s, S754_zero s' => Bool.eqb s s'
  | S754_infinity s, S754_infinity s' => Bool.eqb s s'
  | S754_nan, S754_nan => true
  | S754_finite s m e, S754_finite s' m' e' =>
      Bool.eqb s s' && Pos.eqb m m' && Z.eqb e e'
  | _, _ => false
  end.

Fixpoint json_eqb (a b : json) : bool :=
  match a, b with
  | JNull, JNull => true
  | JBool x, JBool y => Bool.eqb x y
  | JInt x, JInt y => Z.eqb x y
  | JFloat x, JFloat y => float_eqb x y
  | JStr x, JStr y => String.eqb x y
  | JList x, JList y =>
      (fix go (x y : list json) : bool :=
         match x, y with
         | [], [] => true
         | a :: x', b :: y' => json_eqb a b && go x' y'
         | _, _ => false
         end) x y
  | JDict x, JDict y =>
      (fix go (x y : list (string * json)) : bool :=
         match x, y with
         | [], [] => true
         | (k, a) :: x', (k', b) :: y' =>
             String.eqb k k' && json_eqb a b && go x' y'
         | _, _ => false
         end) x y
  | _, _ => false
  end.

(* ================================================================== *)
(** * The process state and the outside world *)

Record Request := mkRequest {
  req_url : json;
  req_headers : list (string * string);
  req_params : option dict }.

Record Response := mkResponse {
  status_code : Z;
  text : string;
  resp_json : result json   (** [r.json()] *) }.

(** State of the watermark file path on disk. *)
Inductive File : Type :=
| Absent
| Corrupt                  (** exists; [open] or [json.load] raises *)
| Content (data : json).   (** exists and parses to [data] *)

(** Calls made to the document store. *)
Inductive DbOp : Type :=
| DbConnect (uri db coll : string)
| DbCreateIndex (field : string)
| DbUpdateOne (filter : dict) (set_doc : json).

(** Lines printed to standard output, before formatting. *)
Inductive Output : Type :=
| OutAuthenticated (username pulses indicators : json)
| OutPage (page_no fetched total : Z) (next : bool)
| OutDone (total : Z) (db coll : string)
| OutDryRun (total : Z)
| OutWatermarkSaved (modified_since : json) (path : string).

Record World := mkWorld {
  exchanges : list (Request * result Response);
      (** HTTP requests issued by this process with their answers *)
  clock_reads : nat;            (** calls of [iso_now] so far *)
  naps : nat;                   (** calls of [time.sleep] so far *)
  stdout : list Output;
  stderr : list string;
  files : string -> File;
  db_log : list DbOp;           (** store calls made by this process *)
  collection : list dict        (** documents of the target collection *) }.

(** What the process cannot decide: the feed behind the transport, the
    clock, the random run identifier, the interpreter's salted [hash],
    its ordering of operands that are not both [str], and faults of the
    file system and of the store.  A write that fails leaves the file as
    it was when [open] failed, and empty or partial once [open(path, 'w')]
    had truncated it: [write_leaves] is what remains of the file. *)
Record Runtime := mkRuntime {
  http : list (Request * result Response) -> Request -> result Response;
  now : nat -> string;
  uuid4 : string;
  fingerprint : json -> Z;   (** [hash(json.dumps(doc, sort_keys=True))] *)
  gt_other : json -> json -> option bool;   (** [None]: [TypeError] *)
  write_fault : string -> option string;
  write_leaves : string -> File -> File;
  db_fault : list DbOp -> DbOp -> option string }.

(** A process starts with empty logs. *)
Definition boot (fs : string -> File) (coll : list dict) : World :=
  mkWorld [] 0 0 [] [] fs [] coll.

Definition log_exchange (x : Request * result Response) (w : World) : World :=
  mkWorld (exchanges w ++ [x]) (clock_reads w) (naps w) (stdout w)
          (stderr w) (files w) (db_log w) (collection w).

Definition tick (w : World) : World :=
  mkWorld (exchanges w) (S (clock_reads w)) (naps w) (stdout w)
          (stderr w) (files w) (db_log w) (collection w).

Definition nap (w : World) : World :=
  mkWorld (exchanges w) (clock_reads w) (S (naps w)) (stdout w)
          (stderr w) (files w) (db_log w) (collection w).

Definition put_out (o : Output) (w : World) : World :=
  mkWorld (exchanges w) (clock_reads w) (naps w) (stdout w ++ [o])
          (stderr w) (files w) (db_log w) (collection w).

Definition put_err (line : string) (w : World) : World :=
  mkWorld (exchanges w) (clock_reads w) (naps w) (stdout w)
          (stderr w ++ [line]) (files w) (db_log w) (collection w).

Definition write_file (path : string) (f : File) (w : World) : World :=
  mkWorld (exchanges w) (clock_reads w) (naps w) (stdout w) (stderr w)
          (fun p => if String.eqb p path then f else files w p)
          (db_log w) (collection w).

Definition log_db (op : DbOp) (w : World) : World :=
  mkWorld (exchanges w) (clock_reads w) (naps w) (stdout w) (stderr w)
          (files w) (db_log w ++ [op]) (collection w).

Definition set_collection (c : list dict) (w : World) : World :=
  mkWorld (exchanges w) (clock_reads w) (naps w) (stdout w) (stderr w)
          (files w) (db_log w) c.

(** ** Computations: state, exceptions, and fuel for the page loop *)

Definition M (A : Type) : Type := World -> option (result A * World).

Definition ret {A} (a : A) : M A := fun w => Some (Ok a, w).
Definition raise {A} (e : exn) : M A := fun w => Some (Raise e, w).
Definition lift {A} (r : result A) : M A := fun w => Some (r, w).
Definition modify (f : World -> World) : M unit := fun w => Some (Ok tt, f w).

Definition bind {A B} (m : M A) (k : A -> M B) : M B :=
  fun w => match m w with
           | Some (Ok a, w') => k a w'
           | Some (Raise e, w') => Some (Raise e, w')
           | None => None
           end.

Declare Scope py_scope.
Delimit Scope py_scope with py.
Notation "x <- m ;; k" := (bind m (fun x => k))
  (at level 61, m at next level, right associativity) : py_scope.
Notation "m ;; k" := (bind m (fun _ => k))
  (at level 61, right associativity) : py_scope.
Local Open Scope py_scope.

(** [try: m  except cls as e: handler(str(e))]; [cls = "Exception"]
    catches every [Exception], never [SystemExit]. *)
Definition try_except {A} (m : M A) (cls : string) (handler : string -> M A)
  : M A :=
  fun w => match m w with
           | Some (Raise (Exception c msg), w') =>
               if String.eqb cls "Exception" || String.eqb cls c
               then handler msg w'
               else Some (Raise (Exception c msg), w')
           | r => r
           end.

Fixpoint for_each {A S} (body : A -> S -> M S) (l : list A) (s : S) : M S :=
  match l with
  | [] => ret s
  | x :: r => s' <- body x s ;; for_each body r s'
  end.

(** Standard output and standard error are taken to accept every line:
    [print] does not raise (a closed pipe is not modelled), and neither
    is [KeyboardInterrupt]. *)
Definition print (o : Output) : M unit := modify (put_out o).
Definition eprint (line : string) : M unit := modify (put_err line).
Definition sleep : M unit := modify nap.

(* ================================================================== *)
(** * The connector *)

Definition OTX_BASE : string := "https://otx.alienvault.com".
Definition OTX_PULSES_SUBSCRIBED : string := "/api/v1/pulses/subscribed".
Definition OTX_USER_ME : string := "/api/v1/users/me".

(** [urljoin(OTX_BASE, path)] for an absolute [path] on the bare origin. *)
Definition urljoin (base path : string) : string := (base ++ path)%string.

Definition iso_now (rt : Runtime) : M string :=
  fun w => Some (Ok (now rt (clock_reads w)), tick w).

(** ** Watermark file *)

Definition read_json (path : string) : M json :=
  fun w => match files w path with
           | Content data => Some (Ok data, w)
           | _ => Some (Raise (Exception "ValueError" "unreadable file"), w)
           end.

Definition path_exists (path : string) : M bool :=
  fun w => Some (Ok (match files w path with Absent => false | _ => true end),
                 w).

Definition load_watermark (path : string) : M json :=
  if String.eqb path EmptyString then ret JNull
  else
    present <- path_exists path ;;
    if negb present then ret JNull
    else
      try_except
        (data <- read_json path ;;
         lift (py_get data "modified_since" JNull))
        "Exception" (fun _ => ret JNull).

(** Lines 71-78.  A write that fails may already have opened, and so
    emptied, the file: [write_leaves] says what is left of it. *)
Definition save_watermark (rt : Runtime) (path : string) (iso_ts : json)
  : M unit :=
  if String.eqb path EmptyString then ret tt
  else
    try_except
      (match write_fault rt path with
       | Some msg =>
           modify (fun w => write_file path
                              (write_leaves rt path (files w path)) w) ;;
           raise (Exception "OSError" msg)
       | None =>
           modify (write_file path
                     (Content (JDict [("modified_since", iso_ts)])))
       end)
      "Exception"
      (fun msg => eprint ("[warn] could not persist watermark: " ++ msg)).

(** ** Authenticator and extractor *)

Definition session_get (rt : Runtime) (req : Request) : M Response :=
  fun w => let r := http rt (exchanges w) req in
           Some (r, log_exchange (req, r) w).

Definition api_headers (api_key : string) : list (string * string) :=
  [("X-OTX-API-KEY", api_key)].

Definition identity_request (api_key : string) : Request :=
  let url := urljoin OTX_BASE OTX_USER_ME in
  mkRequest (JStr url) (api_headers api_key) None.

(** [f"OTX API key validation failed: {r.status_code} {r.text[:200]}"]. *)
Definition auth_failure_message (r : Response) : string :=
  ("OTX API key validation failed: " ++ PyStr.of_Z (status_code r) ++ " "
   ++ PyStr.take 200 (text r))%string.

(** [f"Fetch error: {r.status_code} {r.text[:200]}"]. *)
Definition fetch_error_message (r : Response) : string :=
  ("Fetch error: " ++ PyStr.of_Z (status_code r) ++ " "
   ++ PyStr.take 200 (text r))%string.

Definition validate_api_key (rt : Runtime) (api_key : string) : M json :=
  r <- session_get rt (identity_request api_key) ;;
  if negb (status_code r =? 200) then
    raise (RuntimeError (auth_failure_message r))
  else lift (resp_json r).

(** The [while url:] loop of the generator [fetch_pulses], with the
    consumer's loop body run where the generator yields. *)
Fixpoint follow_pages {S} (fuel : nat) (rt : Runtime) (api_key : string)
    (url : json) (params : option dict) (body : json -> S -> M S) (s : S)
  : M S :=
  match fuel with
  | O => fun _ => None
  | Datatypes.S fuel' =>
      if truthy url then
        has_query <- lift (py_contains_qmark url) ;;
        r <- session_get rt
               (mkRequest url (api_headers api_key)
                          (if has_query then None else params)) ;;
        if negb (status_code r =? 200) then
          raise (RuntimeError (fetch_error_message r))
        else
          data <- lift (resp_json r) ;;
          s' <- body data s ;;
          next <- lift (py_get data "next" JNull) ;;
          follow_pages fuel' rt api_key next None body s'
      else ret s
  end.

Definition first_params (limit : Z) (modified_since : json) : dict :=
  let params := [("limit", JInt limit)] in
  if truthy modified_since
  then Dict.set params "modified_since" modified_since
  else params.

Definition first_request (api_key : string) (limit : Z)
    (modified_since : json) : Request :=
  mkRequest (JStr (urljoin OTX_BASE OTX_PULSES_SUBSCRIBED))
            (api_headers api_key)
            (Some (first_params limit modified_since)).

Definition fetch_pulses {S} (fuel : nat) (rt : Runtime) (api_key : string)
    (limit : Z) (modified_since : json) (body : json -> S -> M S) (s : S)
  : M S :=
  follow_pages fuel rt api_key
    (JStr (urljoin OTX_BASE OTX_PULSES_SUBSCRIBED))
    (Some (first_params limit modified_since)) body s.

(** [list(fetch_pulses(...))]: the pages the generator yields. *)
Definition fetch_all (fuel : nat) (rt : Runtime) (api_key : string)
    (limit : Z) (modified_since : json) : M (list json) :=
  fetch_pulses fuel rt api_key limit modified_since
    (fun page acc => ret (acc ++ [page])) [].

(** The request that follows a page: the URL in its "next" field, with
    no query parameters added. *)
Definition follow_request (api_key : string) (page : json) : Request :=
  mkRequest (match py_get page "next" JNull with
             | Ok next => next
             | Raise _ => JNull
             end)
            (api_headers api_key) None.

(** After the exchanges [log], the feed answers [req] with the first of
    [pages] and, followed link by link, with the others: every page but
    the last names the URL of the next one in "next"; the last page has
    no "next". *)
Inductive serves_chain (rt : Runtime) (api_key : string)
  : list (Request * result Response) -> Request -> list json -> Prop :=
| chain_last log req r d :
    http rt log req = Ok r ->
    status_code r = 200 ->
    resp_json r = Ok (JDict d) ->
    Dict.lookup d "next" = None ->
    serves_chain rt api_key log req [JDict d]
| chain_next log req r d u rest :
    http rt log req = Ok r ->
    status_code r = 200 ->
    resp_json r = Ok (JDict d) ->
    Dict.lookup d "next" = Some (JStr u) ->
    u <> EmptyString ->
    serves_chain rt api_key (log ++ [(req, Ok r)])
                 (mkRequest (JStr u) (api_headers api_key) None) rest ->
    serves_chain rt api_key log req (JDict d :: rest).

(** ** Loader *)

(** The store's [update_one(filter, {"$set": doc}, upsert=True)]: the first
    document whose fields equal the filter's (a [null] in the filter also
    matches a missing field) gets the fields of [doc]; when none matches,
    a document made of the filter's fields and then [doc]'s is added. *)
Definition field_matches (stored : dict) (k : string) (v : json) : bool :=
  match Dict.lookup stored k with
  | Some x => json_eqb x v
  | None => match v with JNull => true | _ => false end
  end.

Definition doc_matches (filter stored : dict) : bool :=
  forallb (fun kv => field_matches stored (fst kv) (snd kv)) filter.

Definition apply_set (stored set_doc : dict) : dict :=
  fold_left (fun d kv => Dict.set d (fst kv) (snd kv)) set_doc stored.

Fixpoint update_first (filter set_doc : dict) (coll : list dict)
  : option (list dict) :=
  match coll with
  | [] => None
  | d :: r =>
      if doc_matches filter d then Some (apply_set d set_doc :: r)
      else match update_first filter set_doc r with
           | Some r' => Some (d :: r')
           | None => None
           end
  end.

Definition update_one_upsert (filter set_doc : dict) (coll : list dict)
  : list dict :=
  match update_first filter set_doc coll with
  | Some coll' => coll'
  | None => coll ++ [apply_set filter set_doc]
  end.

Definition apply_db (op : DbOp) (coll : list dict) : list dict :=
  match op with
  | DbUpdateOne filter (JDict set_doc) => update_one_upsert filter set_doc coll
  | _ => coll
  end.

Definition db_call (rt : Runtime) (op : DbOp) : M unit :=
  fun w =>
    match db_fault rt (db_log w) op with
    | Some msg => Some (Raise (Exception "PyMongoError" msg), log_db op w)
    | None =>
        Some (Ok tt, set_collection (apply_db op (collection w)) (log_db op w))
    end.

Definition connect_mongo (rt : Runtime) (uri db coll : string) : M unit :=
  db_call rt (DbConnect uri db coll) ;;
  try_except
    (db_call rt (DbCreateIndex "id") ;;
     db_call rt (DbCreateIndex "ingested_at"))
    "PyMongoError"
    (fun msg => eprint ("[warn] index creation failed: " ++ msg)).

Definition natural_key (rt : Runtime) (doc : json) : result dict :=
  match py_get doc "id" JNull with
  | Raise e => Raise e
  | Ok id =>
      match py_get doc "revision" JNull with
      | Raise e => Raise e
      | Ok revision =>
          match id with
          | JNull => Ok [("_hash", JInt (fingerprint rt doc))]
          | _ => Ok [("id", id); ("revision", revision)]
          end
      end
  end.

Definition upsert_pulse (rt : Runtime) (doc : json) : M unit :=
  key <- lift (natural_key rt doc) ;;
  db_call rt (DbUpdateOne key doc).

(** ** The run *)

(** The settings as lines 147-161 read them from the environment, once
    [load_dotenv] has merged the .env file into it, and the command line
    as [argparse] returns it.  A run is modelled from these parsed
    values: a setting that [int] or [float] refuses, or a command line
    that [argparse] refuses, ends the process between the key check of
    lines 147-149 and line 169, and is not covered. *)
Record Config := mkConfig {
  api_key : option string;      (** [os.getenv("OTX_API_KEY")] *)
  mongo_uri : string;
  mongo_db : string;
  mongo_collection : string;
  page_limit : Z;
  default_since : string;
  watermark_file : string }.

Record Args := mkArgs {
  since : option string;        (** [--since] *)
  no_watermark : bool;          (** [--no-watermark] *)
  dry_run : bool                (** [--dry-run] *) }.

Record RunState := mkRunState {
  latest_modified_seen : json;
  page_no : Z;
  docs_ingested : Z }.

Definition opt_str (o : option string) : json :=
  match o with Some s => JStr s | None => JNull end.

(** Lines 169-172: the resume point of the run. *)
Definition resume_point (since_cli since_file : json) (default_since : string)
  : json :=
  let since_env := py_or (JStr default_since) JNull in
  py_or since_cli (py_or since_file since_env).

(** [mod > latest_modified_seen]. *)
Definition py_gt (rt : Runtime) (a b : json) : result bool :=
  match a, b with
  | JStr x, JStr y => Ok (PyStr.gtb x y)
  | _, _ =>
      match gt_other rt a b with
      | Some r => Ok r
      | None => Raise (TypeError ("'>' not supported between instances of '"
                                  ++ type_name a ++ "' and '"
                                  ++ type_name b ++ "'"))
      end
  end.

(** Lines 199-205: the watermark after record [p]; any [Exception] in the
    block leaves it as it was. *)
Definition track_watermark (rt : Runtime) (p : json) (latest : json) : json :=
  match py_get p "modified" JNull, py_get p "created" JNull with
  | Ok modified, Ok created =>
      let mod_ := py_or modified created in
      if truthy mod_ then
        match latest with
        | JNull => mod_
        | _ => match py_gt rt mod_ latest with
               | Ok true => mod_
               | Ok false => latest
               | Raise _ => latest
               end
        end
      else latest
  | _, _ => latest
  end.

(** Lines 192-196: the document made from record [p]. *)
Definition build_doc (rt : Runtime) (run_id : string) (page : Z) (p : json)
  : M json :=
  let doc := make_mongo_safe p in
  doc <- lift (py_setitem doc "_source" (JStr "otx_pulses_subscribed")) ;;
  ingested_at <- iso_now rt ;;
  doc <- lift (py_setitem doc "ingested_at" (JStr ingested_at)) ;;
  doc <- lift (py_setitem doc "run_id" (JStr run_id)) ;;
  doc <- lift (py_setitem doc "page_no" (JInt page)) ;;
  ret doc.

Definition process_record (rt : Runtime) (run_id : string) (dry : bool)
    (page : Z) (p : json) (st : RunState) : M RunState :=
  doc <- build_doc rt run_id page p ;;
  let latest := track_watermark rt p (latest_modified_seen st) in
  (if dry then ret tt else upsert_pulse rt doc) ;;
  ret (mkRunState latest (page_no st) (docs_ingested st + 1)).

Definition process_page (rt : Runtime) (run_id : string) (dry : bool)
    (page : json) (st : RunState) : M RunState :=
  let st := mkRunState (latest_modified_seen st) (page_no st + 1)
                       (docs_ingested st) in
  results <- lift (py_get page "results" (JList [])) ;;
  items <- lift (py_iter results) ;;
  st <- for_each (process_record rt run_id dry (page_no st)) items st ;;
  next <- lift (py_get page "next" JNull) ;;
  print (OutPage (page_no st) (Z.of_nat (List.length items))
                 (docs_ingested st) (truthy next)) ;;
  sleep ;;
  ret st.

(** Line 171: the persisted value, unless [--no-watermark]. *)
Definition since_file (cfg : Config) (args : Args) : M json :=
  if no_watermark args then ret JNull
  else load_watermark (watermark_file cfg).

Definition run (fuel : nat) (rt : Runtime) (cfg : Config) (args : Args)
  : M unit :=
  match api_key cfg with
  | None | Some EmptyString =>
      raise (SystemExit "Missing OTX_API_KEY in environment or .env file")
  | Some key =>
      since_file <- since_file cfg args ;;
      let modified_since :=
        resume_point (opt_str (since args)) since_file (default_since cfg) in
      me <- validate_api_key rt key ;;
      username <- lift (py_get me "username" JNull) ;;
      pulses <- lift (py_get me "pulse_count" JNull) ;;
      indicators <- lift (py_get me "indicator_count" JNull) ;;
      print (OutAuthenticated username pulses indicators) ;;
      let run_id := uuid4 rt in
      (if dry_run args then ret tt
       else connect_mongo rt (mongo_uri cfg) (mongo_db cfg)
                          (mongo_collection cfg)) ;;
      st <- fetch_pulses fuel rt key (page_limit cfg) modified_since
              (process_page rt run_id (dry_run args))
              (mkRunState modified_since 0 0) ;;
      print (if dry_run args then OutDryRun (docs_ingested st)
             else OutDone (docs_ingested st) (mongo_db cfg)
                          (mongo_collection cfg)) ;;
      if truthy (latest_modified_seen st) then
        save_watermark rt (watermark_file cfg) (latest_modified_seen st) ;;
        print (OutWatermarkSaved (latest_modified_seen st)
                                 (watermark_file cfg))
      else ret tt
  end.

(** [__main__]: the exit status of the process.  [SystemExit(msg)] prints
    [msg] and exits with 1; any [Exception] is reported as fatal. *)
Definition main (fuel : nat) (rt : Runtime) (cfg : Config) (args : Args)
    (w : World) : option (Z * World) :=
  match run fuel rt cfg args w with
  | None => None
  | Some (Ok _, w') => Some (0, w')
  | Some (Raise (SystemExit msg), w') => Some (1, put_err msg w')
  | Some (Raise (Exception _ msg), w') =>
      Some (1, put_err ("[fatal] " ++ msg) w')
  end.

(** The resume point of a run started on the files [fs]. *)
Definition run_resume_point (cfg : Config) (args : Args)
    (fs : string -> File) : json :=
  match since_file cfg args (boot fs []) with
  | Some (Ok persisted, _) =>
      resume_point (opt_str (since args)) persisted (default_since cfg)
  | _ => JNull
  end.

(** ** What a run has seen, read off its HTTP log *)

Definition page_of (x : Request * result Response) : list json :=
  match snd x with
  | Ok r => if status_code r =? 200
            then match resp_json r with Ok data => [data] | Raise _ => [] end
            else []
  | Raise _ => []
  end.

(** Pages received after the identity check. *)
Definition fetched_pages (w : World) : list json :=
  flat_map page_of (tl (exchanges w)).

Definition page_records (page : json) : list json :=
  match py_get page "results" (JList []) with
  | Ok results => match py_iter results with Ok l => l | Raise _ => [] end
  | Raise _ => []
  end.

Definition records_seen (w : World) : list json :=
  flat_map page_records (fetched_pages w).

(* ================================================================== *)
(** * Vocabulary of the properties *)

(** ** Timestamps *)

(** A timestamp is a non-empty string.  The code compares timestamps as
    strings, by code point; [wm_le] is that order, with an absent value
    ([None]) below every timestamp. *)
Definition is_timestamp (v : json) : Prop :=
  exists s, v = JStr s /\ s <> EmptyString.

Definition wm_le (a b : json) : Prop :=
  match a, b with
  | JNull, _ => True
  | JStr x, JStr y => String.leb x y = true
  | _, _ => False
  end.

(** The "modified" and "created" fields of a record hold timestamps,
    when they are present and not null. *)
Definition timestamps_typed (p : json) : Prop :=
  forall d k, p = JDict d -> k = "modified" \/ k = "created" ->
              Dict.get d k = JNull \/ is_timestamp (Dict.get d k).

(** The value a record contributes to the watermark: its "modified"
    field, or "created" when "modified" is absent (or null); [JNull] when
    it has neither. *)
Definition observed (p : json) : json :=
  match p with
  | JDict d =>
      match Dict.get d "modified" with
      | JNull => Dict.get d "created"
      | v => v
      end
  | _ => JNull
  end.


(** The running watermark after the records [recs], from [seed]. *)
Definition track_all (rt : Runtime) (recs : list json) (seed : json) : json :=
  fold_left (fun latest p => track_watermark rt p latest) recs seed.

(** The instant a timestamp written [YYYY-MM-DDTHH:MM:SS+HH:MM] (or with
    [-HH:MM]) denotes, in seconds from 1970-01-01T00:00:00 UTC: the order
    of timestamps in time. *)
Definition digit (c : ascii) : option Z :=
  let n := Z.of_nat (nat_of_ascii c) in
  if (48 <=? n) && (n <=? 57) then Some (n - 48) else None.

Fixpoint digits (s : string) (acc : Z) : option Z :=
  match s with
  | EmptyString => Some acc
  | String c r =>
      match digit c with
      | Some d => digits r (10 * acc + d)
      | None => None
      end
  end.

Definition field (s : string) (start len : nat) : option Z :=
  digits (substring start len s) 0.

(** Days from 1970-01-01 to a date of the Gregorian calendar. *)
Definition days_from_civil (y m d : Z) : Z :=
  let y := if m <=? 2 then y - 1 else y in
  let era := y / 400 in
  let yoe := y - era * 400 in
  let doy := (153 * ((m + 9) mod 12) + 2) / 5 + d - 1 in
  let doe := yoe * 365 + yoe / 4 - yoe / 100 + doy in
  era * 146097 + doe - 719468.

Definition well_shaped (s : string) : bool :=
  Nat.eqb (String.length s) 25
  && String.eqb (substring 4 1 s) "-" && String.eqb (substring 7 1 s) "-"
  && String.eqb (substring 10 1 s) "T"
  && String.eqb (substring 13 1 s) ":" && String.eqb (substring 16 1 s) ":"
  && String.eqb (substring 22 1 s) ":".

Definition instant (s : string) : option Z :=
  if negb (well_shaped s) then None
  else
    match field s 0 4, field s 5 2, field s 8 2,
          field s 11 2, field s 14 2, field s 17 2,
          field s 20 2, field s 23 2 with
    | Some y, Some mo, Some d, Some h, Some mi, Some sec, Some oh, Some om =>
        let local := days_from_civil y mo d * 86400
                     + h * 3600 + mi * 60 + sec in
        let offset := oh * 3600 + om * 60 in
        if String.eqb (substring 19 1 s) "+" then Some (local - offset)
        else if String.eqb (substring 19 1 s) "-" then Some (local + offset)
        else None
    | _, _, _, _, _, _, _, _ => None
    end.

(** ** Relations between the world before and after a computation *)

(** [keeps R m]: every run of [m] takes a world to one related by [R]. *)
Definition keeps {A} (R : World -> World -> Prop) (m : M A) : Prop :=
  forall w r w', m w = Some (r, w') -> R w w'.

Definition same_exchanges (w w' : World) : Prop := exchanges w' = exchanges w.
Definition same_files (w w' : World) : Prop := files w' = files w.

(** Steps that neither talk to the feed nor write files. *)
Definition quiet (w w' : World) : Prop :=
  exchanges w' = exchanges w /\ files w' = files w.

(** The HTTP log only grows. *)
Definition log_grows (w w' : World) : Prop :=
  exists new, exchanges w' = exchanges w ++ new.


(** ** Pages, summary, envelope *)

(** A page the record loop accepts: "results" can be iterated and holds
    mappings. *)
Definition is_record (p : json) : Prop := exists d, p = JDict d.

Definition page_well_formed (page : json) : Prop :=
  exists results items,
    py_get page "results" (JList []) = Ok results /\
    py_iter results = Ok items /\
    Forall is_record items.

(** A run over the pages [pages]: the credential is accepted, the feed
    then serves the chain [pages], each a well-formed page, and the store
    does not fail. *)
Definition run_over (rt : Runtime) (cfg : Config) (args : Args)
    (fs : string -> File) (pages : list json) : Prop :=
  exists key r me,
    api_key cfg = Some key /\
    key <> EmptyString /\
    http rt [] (identity_request key) = Ok r /\
    status_code r = 200 /\
    resp_json r = Ok (JDict me) /\
    serves_chain rt key [(identity_request key, Ok r)]
                 (first_request key (page_limit cfg)
                                (run_resume_point cfg args fs))
                 pages /\
    Forall page_well_formed pages /\
    (dry_run args = false -> forall log op, db_fault rt log op = None).

(** The consumer of [list(fetch_pulses(...))]. *)
Definition collect (page : json) (acc : list json) : M (list json) :=
  ret (acc ++ [page]).

(** Lines 216-219: the summary line of a run. *)
Definition summary_line (cfg : Config) (args : Args) (total : Z) : Output :=
  if dry_run args then OutDryRun total
  else OutDone total (mongo_db cfg) (mongo_collection cfg).

(** The document of lines 192-196, as a function of the clock reading. *)
Definition envelope (rt : Runtime) (run_id : string) (page : Z) (k : nat)
    (d : dict) : dict :=
  Dict.set
    (Dict.set
       (Dict.set
          (Dict.set d "_source" (JStr "otx_pulses_subscribed"))
          "ingested_at" (JStr (now rt k)))
       "run_id" (JStr run_id))
    "page_no" (JInt page).

Definition has_envelope (rt : Runtime) (run_id : string) (page : Z) (k : nat)
    (d : dict) : Prop :=
  Dict.lookup d "_source" = Some (JStr "otx_pulses_subscribed") /\
  Dict.lookup d "ingested_at" = Some (JStr (now rt k)) /\
  Dict.lookup d "run_id" = Some (JStr run_id) /\
  Dict.lookup d "page_no" = Some (JInt page).

(** Store calls of a run: every update carries the envelope of the run. *)
Definition op_enveloped (rt : Runtime) (op : DbOp) : Prop :=
  match op with
  | DbUpdateOne _ doc =>
      exists d page k, doc = JDict d /\ Dict.wf d /\
                       has_envelope rt (uuid4 rt) page k d
  | _ => True
  end.

Definition logs_enveloped (rt : Runtime) (w w' : World) : Prop :=
  exists new, db_log w' = db_log w ++ new /\ Forall (op_enveloped rt) new.

(** ** The store calls a run is expected to make *)

(** The update sent for record [p] of page [page], built at clock reading
    [k]. *)
Definition update_of (rt : Runtime) (run_id : string) (page : Z) (k : nat)
    (p : json) : DbOp :=
  let doc := match make_mongo_safe p with
             | JDict d => JDict (envelope rt run_id page k d)
             | other => other
             end in
  DbUpdateOne (match natural_key rt doc with Ok key => key | Raise _ => [] end)
              doc.

Fixpoint updates_of_records (rt : Runtime) (run_id : string) (page : Z)
    (k : nat) (items : list json) : list DbOp :=
  match items with
  | [] => []
  | p :: rest =>
      update_of rt run_id page k p
      :: updates_of_records rt run_id page (S k) rest
  end.

Fixpoint updates_of_pages (rt : Runtime) (run_id : string) (page : Z)
    (k : nat) (pages : list json) : list DbOp :=
  match pages with
  | [] => []
  | pg :: rest =>
      updates_of_records rt run_id page k (page_records pg)
      ++ updates_of_pages rt run_id (page + 1)
           (k + List.length (page_records pg)) rest
  end.

(** The calls of [connect_mongo]. *)
Definition connect_ops (cfg : Config) : list DbOp :=
  [DbConnect (mongo_uri cfg) (mongo_db cfg) (mongo_collection cfg);
   DbCreateIndex "id"; DbCreateIndex "ingested_at"].

(** The invariant of the page loop of a run: the page counter, the clock
    and, unless the run is dry, the store log after the pages [done]. *)
Definition loop_invariant (rt : Runtime) (cfg : Config) (args : Args)
    (done : list json) (st : RunState) (w : World) : Prop :=
  page_no st = Z.of_nat (List.length done) /\
  clock_reads w = List.length (flat_map page_records done) /\
  (dry_run args = false ->
   db_log w = connect_ops cfg ++ updates_of_pages rt (uuid4 rt) 1 0 done).

(** The key of line 139 for a document that has an "id". *)
Definition id_key (d : dict) : dict :=
  [("id", Dict.get d "id"); ("revision", Dict.get d "revision")].

(* ================================================================== *)
(** * A sample feed: two pages, three records *)

Module Demo.

Definition key : string := "0123abcd".

Definition page2_url : string :=
  "https://otx.alienvault.com/api/v1/pulses/subscribed?limit=50&page=2".

Definition pulse1 : json :=
  JDict [("id", JStr "p1"); ("revision", JInt 1);
         ("modified", JStr "2025-01-15T00:00:00+00:00");
         ("indicators",
          JList [JDict [("type.name", JStr "IPv4"); ("$ref", JStr "x")]])].

(** No "modified", only "created". *)
Definition pulse2 : json :=
  JDict [("id", JStr "p2");
         ("created", JStr "2025-02-01T00:00:00+00:00")].

(** No "id". *)
Definition pulse3 : json :=
  JDict [("name", JStr "anonymous");
         ("modified", JStr "2025-01-20T00:00:00+00:00")].



(** A "modified" value with a UTC offset: 2024-12-31T23:30:00 UTC. *)
Definition pulse5 : json :=
  JDict [("id", JStr "p5");
         ("modified", JStr "2025-01-01T00:30:00+01:00")].

Definition page_offset : json := JDict [("results", JList [pulse5])].

(** A page whose only record has no "id". *)
Definition page_anonymous : json := JDict [("results", JList [pulse3])].

Definition me : json :=
  JDict [("username", JStr "ann"); ("pulse_count", JInt 3);
         ("indicator_count", JInt 9)].

Definition page1 : json :=
  JDict [("results", JList [pulse1; pulse2]); ("next", JStr page2_url)].

Definition page2 : json := JDict [("results", JList [pulse3])].

Definition ok (body : json) : result Response :=
  Ok (mkResponse 200 EmptyString (Ok body)).

Definition url_is (u : string) (req : Request) : bool :=
  match req_url req with JStr s => String.eqb s u | _ => false end.

Definition feed (first second : json)
    (log : list (Request * result Response)) (req : Request)
  : result Response :=
  if url_is (urljoin OTX_BASE OTX_USER_ME) req then ok me
  else if url_is (urljoin OTX_BASE OTX_PULSES_SUBSCRIBED) req then ok first
  else if url_is page2_url req then ok second
  else Ok (mkResponse 404 "not found"
             (Raise (Exception "JSONDecodeError" "Expecting value"))).

(** A feed whose identity check answers 403. *)
Definition forbidden (log : list (Request * result Response))
    (req : Request) : result Response :=
  Ok (mkResponse 403 "Authentication required"
        (Ok (JDict [("detail", JStr "Authentication required")]))).

Definition clock (day : string) (k : nat) : string :=
  (day ++ "T00:00:" ++ PyStr.of_Z (Z.of_nat k) ++ "+00:00")%string.

(** A sample [hash]: a checksum of the value's strings and integers. *)
Definition str_sum (s : string) : Z :=
  fold_left (fun acc c => 31 * acc + Z.of_nat (nat_of_ascii c))
            (list_ascii_of_string s) 7.

Fixpoint checksum (v : json) : Z :=
  match v with
  | JInt n => n
  | JStr s => str_sum s
  | JList l => fold_left (fun acc x => 131 * acc + checksum x) l 3
  | JDict d =>
      fold_left (fun acc kv => 137 * acc + str_sum (fst kv)
                               + checksum (snd kv)) d 5
  | _ => 1
  end.

Definition runtime_with (hash : json -> Z)
    (feed : list (Request * result Response) -> Request
            -> result Response)
    (day run_id : string) : Runtime :=
  mkRuntime feed (clock day) run_id hash
            (fun _ _ => None) (fun _ => None) (fun _ f => f)
            (fun _ _ => None).

Definition runtime := runtime_with checksum.

Definition config : Config :=
  mkConfig (Some key) "mongodb://localhost:27017" "threatintel"
           "otx_pulses_raw" 50 EmptyString ".otx_watermark.json".

Definition no_files : string -> File := fun _ => Absent.

Definition args_plain : Args := mkArgs None false false.
Definition args_full : Args := mkArgs None true false.

(** A page whose only record has an "id". *)
Definition page_identified : json := JDict [("results", JList [pulse1])].

(** The document made from [pulse3] on page 1 at the first clock
    reading of a run. *)
Definition anonymous_doc (day run_id : string) : json :=
  JDict [("name", JStr "anonymous");
         ("modified", JStr "2025-01-20T00:00:00+00:00");
         ("_source", JStr "otx_pulses_subscribed");
         ("ingested_at", JStr (clock day 0));
         ("run_id", JStr run_id);
         ("page_no", JInt 1)].
Definition args_dry : Args := mkArgs None false true.
Definition args_since : Args :=
  mkArgs (Some "2025-01-01T00:00:00+00:00") false false.

End Demo.

(** Runs over the sample feed: from the resume point 2025-01-01, dry, and
    plain. *)
Definition demo_since_run : option (Z * World) :=
  main 5 (Demo.runtime (Demo.feed Demo.page1 Demo.page2)
                       "2025-03-01" "run-1")
       Demo.config Demo.args_since (boot Demo.no_files []).


Definition demo_plain_run : option (Z * World) :=
  main 5 (Demo.runtime (Demo.feed Demo.page1 Demo.page2)
                       "2025-03-01" "run-1")
       Demo.config Demo.args_plain (boot Demo.no_files []).

(* ================================================================== *)
(** * Further vocabulary: normalizer, transport, whole runs *)

(** ** Mappings as Python has them *)

Fixpoint distinct (l : list string) : bool :=
  match l with
  | [] => true
  | k :: r => negb (existsb (String.eqb k) r) && distinct r
  end.

(** Every mapping of a value, at every depth, has one item per key: the
    values Python can hold. *)
Fixpoint unique_keys (v : json) : bool :=
  match v with
  | JDict items =>
      distinct (map fst items)
      && forallb (fun kv => unique_keys (snd kv)) items
  | JList items => forallb unique_keys items
  | _ => true
  end.

(** ** Transport: [_wrap_timeout] *)

(** [_wrap_timeout(func, timeout)]: [inner(method, url, **kwargs)], with
    the keyword arguments of a call as a dictionary. *)
Definition _wrap_timeout {A} (func : string -> json -> dict -> A)
    (timeout : json) : string -> json -> dict -> A :=
  fun method url kwargs =>
    let kwargs :=
      match Dict.lookup kwargs "timeout" with
      | None => Dict.set kwargs "timeout" timeout
      | Some _ => kwargs
      end in
    func method url kwargs.

(** ** A listing and how it ends *)

(** After the exchanges [log], the feed answers [req] and the requests
    that follow it with the exchanges [new], serving [pages]; then the
    listing ends (a page whose "next" is absent, null or otherwise falsy)
    or breaks with an exception: a status other than 200, a transport
    error, or a body that is not JSON. *)
Inductive feed_serves (rt : Runtime) (api_key : string)
  : list (Request * result Response) -> Request
    -> list (Request * result Response) -> list json -> option exn
    -> Prop :=
| serves_last log req r d :
    http rt log req = Ok r ->
    status_code r = 200 ->
    resp_json r = Ok (JDict d) ->
    truthy (Dict.get_default d "next" JNull) = false ->
    feed_serves rt api_key log req [(req, Ok r)] [JDict d] None
| serves_next log req r d u new rest stop :
    http rt log req = Ok r ->
    status_code r = 200 ->
    resp_json r = Ok (JDict d) ->
    Dict.lookup d "next" = Some (JStr u) ->
    u <> EmptyString ->
    feed_serves rt api_key (log ++ [(req, Ok r)])
                (mkRequest (JStr u) (api_headers api_key) None)
                new rest stop ->
    feed_serves rt api_key log req ((req, Ok r) :: new) (JDict d :: rest) stop
| serves_status log req r :
    http rt log req = Ok r ->
    status_code r <> 200 ->
    feed_serves rt api_key log req [(req, Ok r)] []
                (Some (RuntimeError (fetch_error_message r)))
| serves_no_answer log req e :
    http rt log req = Raise e ->
    feed_serves rt api_key log req [(req, Raise e)] [] (Some e)
| serves_no_json log req r e :
    http rt log req = Ok r ->
    status_code r = 200 ->
    resp_json r = Raise e ->
    feed_serves rt api_key log req [(req, Ok r)] [] (Some e).

(** The outcome of a loop that ends or breaks. *)
Definition ended {S} (stop : option exn) (s : S) : result S :=
  match stop with
  | None => Ok s
  | Some e => Raise e
  end.

(** ** What a stretch of a run adds to the world *)

(** Store calls, clock readings, naps and output lines; no line on
    standard error, no file written.  Requests are counted apart. *)
Definition adds (ops : list DbOp) (ticks sleeps : nat) (out : list Output)
    (w w' : World) : Prop :=
  clock_reads w' = (clock_reads w + ticks)%nat /\
  naps w' = (naps w + sleeps)%nat /\
  stdout w' = stdout w ++ out /\
  stderr w' = stderr w /\
  files w' = files w /\
  db_log w' = db_log w ++ ops /\
  collection w' = fold_left (fun c op => apply_db op c) ops (collection w).

(** Line 211, page after page: the page number, the records of the page,
    the running total, and whether the page names a next one. *)
Definition next_of (page : json) : json :=
  match py_get page "next" JNull with
  | Ok next => next
  | Raise _ => JNull
  end.

Fixpoint page_lines (page_no total : Z) (pages : list json) : list Output :=
  match pages with
  | [] => []
  | page :: rest =>
      let fetched := Z.of_nat (List.length (page_records page)) in
      OutPage page_no fetched (total + fetched) (truthy (next_of page))
      :: page_lines (page_no + 1) (total + fetched) rest
  end.

(** The store calls of a run after the pages [done]. *)
Definition store_calls (rt : Runtime) (cfg : Config) (args : Args)
    (done : list json) : list DbOp :=
  if dry_run args then []
  else connect_ops cfg ++ updates_of_pages rt (uuid4 rt) 1 0 done.

(** Line 178, for the identity [me]. *)
Definition greeting (me : dict) : Output :=
  OutAuthenticated (Dict.get_default me "username" JNull)
                   (Dict.get_default me "pulse_count" JNull)
                   (Dict.get_default me "indicator_count" JNull).

(** The state of the page loop after the pages [done], from the resume
    point [seed], and what the run has added to the world it booted in. *)
Definition progress (rt : Runtime) (cfg : Config) (args : Args)
    (seed : json) (me : dict) (w0 : World)
    (done : list json) (st : RunState) (w : World) : Prop :=
  let recs := flat_map page_records done in
  latest_modified_seen st = track_all rt recs seed /\
  page_no st = Z.of_nat (List.length done) /\
  docs_ingested st = Z.of_nat (List.length recs) /\
  adds (store_calls rt cfg args done) (List.length recs) (List.length done)
       (greeting me :: page_lines 1 0 done) w0 w.

(** What [__main__] prints for an exception that ends the run. *)
Definition last_words (e : exn) : string :=
  match e with
  | SystemExit msg => msg
  | Exception _ msg => ("[fatal] " ++ msg)%string
  end.

(** A feed for a run: the credential is accepted with the identity [me];
    the listing from the run's resume point then goes through [new],
    serving well-formed [pages], and ends or breaks; the store does not
    fail. *)
Definition run_serves (rt : Runtime) (cfg : Config) (args : Args)
    (fs : string -> File) (key : string) (r : Response) (me : dict)
    (new : list (Request * result Response)) (pages : list json)
    (stop : option exn) : Prop :=
  api_key cfg = Some key /\
  key <> EmptyString /\
  http rt [] (identity_request key) = Ok r /\
  status_code r = 200 /\
  resp_json r = Ok (JDict me) /\
  feed_serves rt key [(identity_request key, Ok r)]
              (first_request key (page_limit cfg)
                             (run_resume_point cfg args fs))
              new pages stop /\
  Forall page_well_formed pages /\
  (dry_run args = false -> forall log op, db_fault rt log op = None).

(** Lines 216-224: what [run] does after the page loop. *)
Definition finish (rt : Runtime) (cfg : Config) (args : Args)
    (st : RunState) : M unit :=
  (print (summary_line cfg args (docs_ingested st)) ;;
   if truthy (latest_modified_seen st) then
     save_watermark rt (watermark_file cfg) (latest_modified_seen st) ;;
     print (OutWatermarkSaved (latest_modified_seen st) (watermark_file cfg))
   else ret tt)%py.

(** The files after [finish], for the tracked watermark [wm]. *)
Definition saved_files (rt : Runtime) (path : string) (wm : json)
    (fs : string -> File) : string -> File :=
  if truthy wm && negb (String.eqb path EmptyString) then
    let written :=
      match write_fault rt path with
      | Some _ => write_leaves rt path (fs path)
      | None => Content (JDict [("modified_since", wm)])
      end in
    fun p => if String.eqb p path then written else fs p
  else fs.

(** The warning of [save_watermark], when there is one. *)
Definition save_warnings (rt : Runtime) (path : string) (wm : json)
  : list string :=
  if truthy wm && negb (String.eqb path EmptyString) then
    match write_fault rt path with
    | Some cause => [("[warn] could not persist watermark: " ++ cause)%string]
    | None => []
    end
  else [].

(** ** More sample feeds and runtimes *)

Module Sample.

(** A last page as the service sends it: "next" is null. *)
Definition page_last : json :=
  JDict [("results", JList [Demo.pulse3]); ("next", JNull)].

Definition feed_null := Demo.feed Demo.page1 page_last.

(** A feed whose second page answers 500. *)
Definition unavailable : Response :=
  mkResponse 500 "upstream error"
             (Raise (Exception "JSONDecodeError" "Expecting value")).

Definition feed_broken (log : list (Request * result Response))
    (req : Request) : result Response :=
  if Demo.url_is (urljoin OTX_BASE OTX_USER_ME) req then Demo.ok Demo.me
  else if Demo.url_is (urljoin OTX_BASE OTX_PULSES_SUBSCRIBED) req
       then Demo.ok Demo.page1
       else Ok unavailable.

(** A feed whose every answer is a page that names a next one. *)
Definition feed_endless (log : list (Request * result Response))
    (req : Request) : result Response :=
  Demo.ok Demo.page1.

(** A feed whose identity check answers 200 with a JSON list. *)
Definition feed_odd (log : list (Request * result Response))
    (req : Request) : result Response :=
  Demo.ok (JList [JStr "ann"]).

(** A page with a record that is not a mapping, after one that is. *)
Definition page_mixed : json :=
  JDict [("results", JList [Demo.pulse1; JStr "p2"; Demo.pulse3])].

(** A store that refuses to create the index on "id". *)
Definition index_refused (log : list DbOp) (op : DbOp) : option string :=
  match op with
  | DbCreateIndex "id" => Some "not authorized"
  | _ => None
  end.

Definition runtime_index_refused : Runtime :=
  mkRuntime feed_null (Demo.clock "2025-03-01") "run-1" Demo.checksum
            (fun _ _ => None) (fun _ => None) (fun _ f => f) index_refused.

Definition rt_null : Runtime := Demo.runtime feed_null "2025-03-01" "run-1".
Definition rt_broken : Runtime := Demo.runtime feed_broken "2025-03-01" "run-1".
Definition rt_endless : Runtime :=
  Demo.runtime feed_endless "2025-03-01" "run-1".
Definition rt_odd : Runtime := Demo.runtime feed_odd "2025-03-01" "run-1".

Definition identity_answer : Response :=
  mkResponse 200 EmptyString (Ok Demo.me).

Definition me : dict :=
  [("username", JStr "ann"); ("pulse_count", JInt 3);
   ("indicator_count", JInt 9)].

(** A runtime whose disk is full: the file is opened, and so emptied,
    before the write fails. *)
Definition rt_disk_full : Runtime :=
  mkRuntime feed_null (Demo.clock "2025-03-01") "run-1" Demo.checksum
            (fun _ _ => None) (fun _ => Some "No space left on device")
            (fun _ _ => Corrupt) (fun _ _ => None).

(** The exchanges of a listing over [feed_null], and over [feed_broken]. *)
Definition second_request : Request :=
  mkRequest (JStr Demo.page2_url) (api_headers Demo.key) None.

Definition trace_null (seed : json)
  : list (Request * result Response) :=
  [(first_request Demo.key 50 seed, Demo.ok Demo.page1);
   (second_request, Demo.ok page_last)].

Definition trace_broken (seed : json)
  : list (Request * result Response) :=
  [(first_request Demo.key 50 seed, Demo.ok Demo.page1);
   (second_request, Ok unavailable)].

End Sample.

(** The line a dry run prints where a storing run prints [line]. *)
Definition as_dry (line : Output) : Output :=
  match line with
  | OutDone total _ _ => OutDryRun total
  | other => other
  end.

(** ** Relations kept by a run, whatever its outcome *)

(** A computation that, when it raises, has written no file. *)
Definition fails_clean {A} (m : M A) : Prop :=
  forall w e w', m w = Some (Raise e, w') -> files w' = files w.

(** The requests made from [w] to [w'] all carry the API key in the
    header "X-OTX-API-KEY". *)
Definition asks_with_key (key : string) (w w' : World) : Prop :=
  exists new,
    exchanges w' = exchanges w ++ new /\
    Forall (fun x => req_headers (fst x) = [("X-OTX-API-KEY", key)]) new.

(** No document of the collection is removed, and no field of a
    document. *)
Definition loses_nothing (coll coll' : list dict) : Prop :=
  forall i d,
    nth_error coll i = Some d ->
    exists d', nth_error coll' i = Some d' /\
               forall k, In k (Dict.keys d) -> In k (Dict.keys d').

Definition store_keeps (w w' : World) : Prop :=
  loses_nothing (collection w) (collection w').

(** A key the store accepts: no "." in it, no "$" in front. *)
Definition key_is_safe (k : string) : Prop :=
  (forall i, String.get i k <> Some "."%char) /\
  String.get 0 k <> Some "$"%char.

(** Store calls whose documents have safe keys only, at every depth. *)
Definition op_is_safe (op : DbOp) : Prop :=
  match op with
  | DbUpdateOne filter doc =>
      Forall key_is_safe (Dict.keys filter) /\
      Forall key_is_safe (json_keys doc)
  | _ => True
  end.

Definition sends_safe_keys (w w' : World) : Prop :=
  exists new, db_log w' = db_log w ++ new /\ Forall op_is_safe new.
(* ================================================================== *)
(** * Proofs *)

(** ** Strings *)

Module PyStrFacts.
Import PyStr.

Lemma contains_get c s :
  contains c s = false <-> forall i, String.get i s <> Some c.
Proof.
  induction s as [|c' r IH]; simpl.
  - split; [intros _ i; destruct i; discriminate | reflexivity].
  - rewrite orb_false_iff, IH. split.
    + intros [Hc Hr] [|i]; simpl.
      * intros [= ->]. now rewrite Ascii.eqb_refl in Hc.
      * apply Hr.
    + intros H. split.
      * destruct (Ascii.eqb_spec c' c) as [->|]; [|reflexivity].
        now destruct (H 0%nat).
      * intros i. apply (H (S i)).
Qed.

Lemma replace_removes old new s :
  old <> new -> contains old (replace old new s) = false.
Proof.
  intros Hne. induction s as [|c r IH]; simpl; [reflexivity|].
  rewrite IH, orb_false_r.
  destruct (Ascii.eqb_spec c old) as [->|Hc].
  - apply Ascii.eqb_neq. congruence.
  - now apply Ascii.eqb_neq.
Qed.

Lemma replace_fixed old new s :
  contains old s = false -> replace old new s = s.
Proof.
  induction s as [|c r IH]; simpl; [reflexivity|].
  rewrite orb_false_iff. intros [-> Hr]. now rewrite IH.
Qed.

Lemma lstrip_contains c d s :
  contains c s = false -> contains c (lstrip d s) = false.
Proof.
  induction s as [|c' r IH]; simpl; [reflexivity|].
  rewrite orb_false_iff. intros [Hc Hr].
  destruct (Ascii.eqb c' d); [now apply IH|].
  simpl. now rewrite Hc, Hr.
Qed.

Lemma lstrip_head c s : String.get 0 (lstrip c s) <> Some c.
Proof.
  induction s as [|c' r IH]; simpl; [discriminate|].
  destruct (Ascii.eqb_spec c' c) as [->|Hc]; [exact IH|].
  simpl. congruence.
Qed.

Lemma lstrip_fixed c s : String.get 0 s <> Some c -> lstrip c s = s.
Proof.
  destruct s as [|c' r]; simpl; [reflexivity|].
  destruct (Ascii.eqb_spec c' c) as [->|]; [now intros []|reflexivity].
Qed.

End PyStrFacts.

(** ** Dictionaries *)

Module DictFacts.
Import Dict.

Lemma set_fresh d k v : ~ In k (keys d) -> set d k v = d ++ [(k, v)].
Proof.
  induction d as [|[k' v'] r IH]; simpl; [reflexivity|].
  intros H. destruct (String.eqb_spec k' k) as [->|_].
  - exfalso. apply H. now left.
  - rewrite IH; [reflexivity|]. intros Hin. apply H. now right.
Qed.

Lemma keys_set d k v :
  keys (set d k v) = if in_dec string_dec k (keys d) then keys d
                     else keys d ++ [k].
Proof.
  induction d as [|[k' v'] r IH]; simpl; [reflexivity|].
  destruct (String.eqb_spec k' k) as [->|Hne]; simpl.
  - destruct (string_dec k k); [reflexivity|congruence].
  - rewrite IH. destruct (string_dec k' k); [congruence|].
    now destruct (in_dec string_dec k (keys r)).
Qed.

Lemma set_wf d k v : wf d -> wf (set d k v).
Proof.
  unfold wf. intros H. rewrite keys_set.
  destruct (in_dec string_dec k (keys d)) as [|Hn]; [exact H|].
  apply NoDup_app; [exact H|repeat constructor; now intros []|].
  intros x Hx [<-|[]]. now apply Hn.
Qed.

Lemma set_In d k v e : In e (set d k v) -> e = (k, v) \/ In e d.
Proof.
  induction d as [|[k' v'] r IH]; simpl.
  - intros [<-|[]]. now left.
  - destruct (String.eqb_spec k' k) as [->|_]; simpl.
    + intros [<-|H]; [now left|now right; right].
    + intros [<-|H]; [now right; left|].
      destruct (IH H); [now left|now right; right].
Qed.

Lemma fold_set_wf l acc :
  wf acc -> wf (fold_left (fun d kv => set d (fst kv) (snd kv)) l acc).
Proof.
  revert acc. induction l as [|[k v] l IH]; simpl; intros acc H;
    [exact H|]. apply IH. now apply set_wf.
Qed.

Lemma fold_set_In l acc e :
  In e (fold_left (fun d kv => set d (fst kv) (snd kv)) l acc) ->
  In e acc \/ In e l.
Proof.
  revert acc. induction l as [|[k v] l IH]; simpl; intros acc H;
    [now left|].
  destruct (IH _ H) as [H1|H1]; [|now right; right].
  destruct (set_In _ _ _ _ H1) as [->|H2]; [now right; left|now left].
Qed.

Lemma fold_set_unique l acc :
  NoDup (keys (acc ++ l)) ->
  fold_left (fun d kv => set d (fst kv) (snd kv)) l acc = acc ++ l.
Proof.
  revert acc. induction l as [|[k v] l IH]; simpl; intros acc H.
  - now rewrite app_nil_r.
  - assert (Hk : ~ In k (keys acc)).
    { unfold keys in *. rewrite map_app in H. simpl in H.
      apply NoDup_remove_2 in H. intros Hin. apply H.
      apply in_or_app. now left. }
    rewrite (set_fresh _ _ _ Hk).
    rewrite IH; rewrite <- app_assoc; [reflexivity|exact H].
Qed.

Lemma of_items_wf l : wf (of_items l).
Proof. apply fold_set_wf. constructor. Qed.

Lemma of_items_In l e : In e (of_items l) -> In e l.
Proof. intros H. now destruct (fold_set_In _ _ _ H) as [[]|]. Qed.

Lemma of_items_unique d : wf d -> of_items d = d.
Proof. intros H. unfold of_items. now rewrite fold_set_unique. Qed.

End DictFacts.

(** ** Normalizer *)

Lemma safe_key_no_dot key i : String.get i (safe_key key) <> Some "."%char.
Proof.
  revert i. apply PyStrFacts.contains_get. unfold safe_key.
  apply PyStrFacts.lstrip_contains, PyStrFacts.replace_removes.
  discriminate.
Qed.

Lemma safe_key_no_dollar key : String.get 0 (safe_key key) <> Some "$"%char.
Proof. apply PyStrFacts.lstrip_head. Qed.

Lemma safe_key_fixed key :
  (forall i, String.get i key <> Some "."%char) ->
  String.get 0 key <> Some "$"%char ->
  safe_key key = key.
Proof.
  intros Hdot Hdollar. unfold safe_key.
  rewrite PyStrFacts.replace_fixed by now apply PyStrFacts.contains_get.
  now apply PyStrFacts.lstrip_fixed.
Qed.

Lemma safe_key_idempotent key : safe_key (safe_key key) = safe_key key.
Proof.
  apply safe_key_fixed; [apply safe_key_no_dot|apply safe_key_no_dollar].
Qed.

Lemma map_fixed {A} (f : A -> A) l :
  (forall x, In x l -> f x = x) -> map f l = l.
Proof.
  induction l as [|x l IH]; simpl; intros H; [reflexivity|].
  rewrite H by now left. rewrite IH; [reflexivity|].
  intros y Hy. apply H. now right.
Qed.

(** C5. The key-rewriting transform is idempotent: on every JSON value,
    applying [make_mongo_safe] twice gives what applying it once gives. *)
Theorem make_mongo_safe_idempotent (obj : json) :
  make_mongo_safe (make_mongo_safe obj) = make_mongo_safe obj.
Proof.
  induction obj as [| | | | |l IH|d IH] using json_tree_ind;
    try reflexivity.
  - simpl. f_equal. rewrite map_map. apply map_ext_in.
    intros x Hx. rewrite Forall_forall in IH. now apply IH.
  - simpl. f_equal.
    set (f := fun kv : string * json =>
                (safe_key (fst kv), make_mongo_safe (snd kv))).
    set (d' := Dict.of_items (map f d)).
    assert (Hfix : map f d' = d').
    { apply map_fixed. intros [k v] Hin. unfold f at 1. simpl.
      apply DictFacts.of_items_In in Hin.
      apply in_map_iff in Hin. destruct Hin as [[k0 v0] [[= <- <-] Hin0]].
      rewrite Forall_forall in IH. simpl.
      pose proof (IH _ Hin0) as E. simpl in E.
      now rewrite safe_key_idempotent, E. }
    rewrite Hfix. apply DictFacts.of_items_unique.
    apply DictFacts.of_items_wf.
Qed.

(** C6. In the output of [make_mongo_safe], no mapping key at any nesting
    depth contains the separator ['.'] and none begins with ['$']. *)
Theorem make_mongo_safe_keys_safe (obj : json) (k : string) :
  In k (json_keys (make_mongo_safe obj)) ->
  (forall i, String.get i k <> Some "."%char) /\
  String.get 0 k <> Some "$"%char.
Proof.
  revert k.
  induction obj as [| | | | |l IH|d IH] using json_tree_ind;
    simpl; intros k Hk; try contradiction.
  - apply in_flat_map in Hk. destruct Hk as [x [Hx Hk]].
    apply in_map_iff in Hx. destruct Hx as [x0 [<- Hx0]].
    rewrite Forall_forall in IH. now apply (IH x0).
  - apply in_flat_map in Hk. destruct Hk as [[k1 v1] [Hin Hk]].
    apply DictFacts.of_items_In in Hin.
    apply in_map_iff in Hin. destruct Hin as [[k0 v0] [[= <- <-] Hin0]].
    simpl in Hk. destruct Hk as [<-|Hk].
    + split; [intros i; apply safe_key_no_dot|apply safe_key_no_dollar].
    + rewrite Forall_forall in IH. now apply (IH _ Hin0).
Qed.

(** Colliding keys always cost entries: a mapping in which two distinct
    keys are rewritten to the same key comes out with fewer entries. *)
Lemma set_length d k v :
  List.length (Dict.set d k v)
  = if in_dec string_dec k (Dict.keys d) then List.length d
    else S (List.length d).
Proof.
  rewrite <- !(length_map fst). change (map fst ?x) with (Dict.keys x).
  rewrite DictFacts.keys_set.
  destruct (in_dec string_dec k (Dict.keys d)); [reflexivity|].
  rewrite length_app. simpl. lia.
Qed.

Lemma fold_set_length l :
  forall acc,
    (List.length (fold_left (fun d kv => Dict.set d (fst kv) (snd kv)) l acc)
     <= List.length acc + List.length l)%nat /\
    ((List.length (fold_left (fun d kv => Dict.set d (fst kv) (snd kv)) l acc)
      = List.length acc + List.length l)%nat ->
     NoDup (Dict.keys l) /\
     forall k, In k (Dict.keys l) -> ~ In k (Dict.keys acc)).
Proof.
  induction l as [|[k v] l IH]; intros acc; simpl.
  - split; [lia|]. intros _. split; [constructor|contradiction].
  - destruct (IH (Dict.set acc k v)) as [Hle Heq].
    rewrite set_length in Hle, Heq.
    destruct (in_dec string_dec k (Dict.keys acc)) as [Hin|Hnin].
    + split; [lia|]. intros H. lia.
    + split; [lia|]. intros H.
      destruct Heq as [Hnd Hdisj]; [lia|].
      assert (Hk : ~ In k (Dict.keys l)).
      { intros Hkl. apply (Hdisj k Hkl). rewrite DictFacts.keys_set.
        destruct (in_dec string_dec k (Dict.keys acc)); [contradiction|].
        apply in_or_app. right. now left. }
      split; [now constructor|].
      intros k' [<-|Hk'] Hacc; [contradiction|].
      apply (Hdisj k' Hk'). rewrite DictFacts.keys_set.
      destruct (in_dec string_dec k (Dict.keys acc)); [assumption|].
      apply in_or_app. now left.
Qed.

Lemma NoDup_map_injective {A B} (g : A -> B) l a b :
  NoDup (map g l) -> In a l -> In b l -> g a = g b -> a = b.
Proof.
  induction l as [|x l IH]; simpl; intros Hnd Ha Hb Hg; [contradiction|].
  inversion Hnd as [|? ? Hx Hnd']. subst.
  destruct Ha as [->|Ha], Hb as [->|Hb]; try reflexivity.
  - exfalso. apply Hx. rewrite Hg. now apply in_map.
  - exfalso. apply Hx. rewrite <- Hg. now apply in_map.
  - now apply IH.
Qed.

Lemma make_mongo_safe_collision_shrinks d k1 k2 :
  In k1 (Dict.keys d) -> In k2 (Dict.keys d) ->
  k1 <> k2 -> safe_key k1 = safe_key k2 ->
  exists out,
    make_mongo_safe (JDict d) = JDict out /\
    (List.length out < List.length d)%nat.
Proof.
  intros H1 H2 Hne Hsafe. eexists. split; [reflexivity|].
  set (l := map (fun kv => (safe_key (fst kv), make_mongo_safe (snd kv))) d).
  change (List.length (Dict.of_items l) < List.length d)%nat.
  destruct (fold_set_length l []) as [Hle Heq].
  fold (Dict.of_items l) in Hle, Heq.
  assert (Hlen : List.length l = List.length d) by apply length_map.
  simpl in Hle, Heq. rewrite Hlen in Hle, Heq.
  destruct (Nat.eq_dec (List.length (Dict.of_items l)) (List.length d))
    as [E|E]; [|lia].
  exfalso. destruct (Heq E) as [Hnd _].
  unfold Dict.keys, l in Hnd. rewrite map_map in Hnd. simpl in Hnd.
  rewrite <- (map_map fst safe_key) in Hnd.
  apply Hne. eapply NoDup_map_injective; eassumption.
Qed.

(** C10. [safe_key] is not injective, and colliding keys are merged: the
    mapping with the distinct keys ["a.b"] and ["a_b"] is rewritten to a
    mapping with the single key ["a_b"], holding the later value only. *)
Theorem make_mongo_safe_merges_keys :
  let d := [("a.b", JInt 1); ("a_b", JInt 2)] in
  Dict.wf d /\
  "a.b" <> "a_b" /\
  safe_key "a.b" = safe_key "a_b" /\
  make_mongo_safe (JDict d) = JDict [("a_b", JInt 2)] /\
  (List.length [("a_b", JInt 2)] < List.length d)%nat.
Proof.
  repeat split; try (simpl; lia); try discriminate.
  repeat constructor; simpl; intuition discriminate.
Qed.

(** ** Computations *)

Local Open Scope py_scope.

Lemma bind_inv {A B} (m : M A) (k : A -> M B) w r w' :
  bind m k w = Some (r, w') ->
  (exists a w1, m w = Some (Ok a, w1) /\ k a w1 = Some (r, w')) \/
  (exists e, m w = Some (Raise e, w') /\ r = Raise e).
Proof.
  unfold bind. destruct (m w) as [[[a|e] w1]|]; intros H.
  - left. now exists a, w1.
  - right. exists e. now inversion H.
  - discriminate.
Qed.

Lemma bind_ok_inv {A B} (m : M A) (k : A -> M B) w b w' :
  bind m k w = Some (Ok b, w') ->
  exists a w1, m w = Some (Ok a, w1) /\ k a w1 = Some (Ok b, w').
Proof.
  intros H. destruct (bind_inv _ _ _ _ _ H) as [?|[e [_ ?]]];
    [assumption|discriminate].
Qed.

Lemma lift_inv {A} (x : result A) w r w' :
  lift x w = Some (r, w') -> r = x /\ w' = w.
Proof. unfold lift. now intros [= <- <-]. Qed.

Section Keeps.
Variable R : World -> World -> Prop.
Hypothesis R_refl : forall w, R w w.
Hypothesis R_trans : forall a b c, R a b -> R b c -> R a c.

Lemma keeps_ret {A} (a : A) : keeps R (ret a).
Proof. intros w r w' [= <- <-]. apply R_refl. Qed.

Lemma keeps_raise {A} e : keeps R (@raise A e).
Proof. intros w r w' [= <- <-]. apply R_refl. Qed.

Lemma keeps_lift {A} (x : result A) : keeps R (lift x).
Proof. intros w r w' [= <- <-]. apply R_refl. Qed.

Lemma keeps_modify f : (forall w, R w (f w)) -> keeps R (modify f).
Proof. intros H w r w' [= <- <-]. apply H. Qed.

Lemma keeps_bind {A B} (m : M A) (k : A -> M B) :
  keeps R m -> (forall a, keeps R (k a)) -> keeps R (bind m k).
Proof.
  intros Hm Hk w r w' H.
  destruct (bind_inv _ _ _ _ _ H) as [[a [w1 [H1 H2]]]|[e [H1 _]]].
  - eapply R_trans; [eapply Hm|eapply Hk]; eassumption.
  - eapply Hm; eassumption.
Qed.

Lemma keeps_try_except {A} (m : M A) cls h :
  keeps R m -> (forall msg, keeps R (h msg)) -> keeps R (try_except m cls h).
Proof.
  intros Hm Hh w r w'. unfold try_except.
  destruct (m w) as [[[a|[msg|c msg]] w1]|] eqn:E; try discriminate.
  - intros [= <- <-]. eapply Hm; eassumption.
  - intros [= <- <-]. eapply Hm; eassumption.
  - destruct (_ || _).
    + intros H. eapply R_trans; [eapply Hm|eapply Hh]; eassumption.
    + intros [= <- <-]. eapply Hm; eassumption.
Qed.

Lemma keeps_for_each {A S} (body : A -> S -> M S) l :
  (forall x s, keeps R (body x s)) -> forall s, keeps R (for_each body l s).
Proof.
  intros Hb. induction l as [|x l IH]; simpl; intros s.
  - apply keeps_ret.
  - apply keeps_bind; [apply Hb|exact IH].
Qed.

Lemma keeps_follow_pages {S} fuel rt key (body : json -> S -> M S) :
  (forall req, keeps R (session_get rt req)) ->
  (forall page s, keeps R (body page s)) ->
  forall url params s, keeps R (follow_pages fuel rt key url params body s).
Proof.
  intros Hget Hbody. induction fuel as [|fuel IH]; simpl; intros url params s.
  - intros w r w'. discriminate.
  - destruct (truthy url); [|apply keeps_ret].
    apply keeps_bind; [apply keeps_lift|intros has_query].
    apply keeps_bind; [apply Hget|intros r].
    destruct (negb _); [apply keeps_raise|].
    apply keeps_bind; [apply keeps_lift|intros data].
    apply keeps_bind; [apply Hbody|intros s'].
    apply keeps_bind; [apply keeps_lift|intros next]. apply IH.
Qed.

End Keeps.

(** ** Resume point *)

Lemma load_watermark_total path w :
  exists v, load_watermark path w = Some (Ok v, w) /\
    (path = EmptyString -> v = JNull) /\
    (files w path = Absent -> v = JNull) /\
    (files w path = Corrupt -> v = JNull) /\
    (forall data, files w path = Content data ->
                  (forall d, data <> JDict d) -> v = JNull) /\
    (forall d, path <> EmptyString -> files w path = Content (JDict d) ->
               v = Dict.get d "modified_since").
Proof.
  unfold load_watermark.
  destruct (String.eqb_spec path EmptyString) as [->|Hpath].
  { exists JNull. repeat split; auto. intros d Hd. now destruct Hd. }
  unfold bind, path_exists, try_except, read_json, lift, ret.
  destruct (files w path) as [| |data] eqn:Hfile; simpl.
  - exists JNull. repeat split; auto; intros; easy.
  - rewrite Hfile. exists JNull. repeat split; auto; intros; easy.
  - rewrite Hfile. destruct data as [| | | | | |d]; simpl;
      try (exists JNull; repeat split; auto; intros; easy).
    exists (Dict.get_default d "modified_since" JNull).
    repeat split; try (intros; easy); try contradiction.
    + intros data [= <-] H. now destruct (H d).
    + now intros d' _ [= <-].
Qed.

Lemma since_file_total cfg args w :
  exists v, since_file cfg args w = Some (Ok v, w) /\
    (no_watermark args = true -> v = JNull) /\
    (no_watermark args = false ->
     load_watermark (watermark_file cfg) w = Some (Ok v, w)).
Proof.
  unfold since_file. destruct (no_watermark args).
  - exists JNull. repeat split; auto; discriminate.
  - destruct (load_watermark_total (watermark_file cfg) w) as [v [Hv _]].
    exists v. repeat split; auto; discriminate.
Qed.

Lemma resume_point_order since_cli persisted default :
  resume_point since_cli persisted default =
    if truthy since_cli then since_cli
    else if truthy persisted then persisted
    else if String.eqb default EmptyString then JNull
    else JStr default.
Proof.
  unfold resume_point, py_or. simpl.
  destruct (truthy since_cli); [reflexivity|].
  destruct (truthy persisted); [reflexivity|].
  now destruct (String.eqb default EmptyString).
Qed.

(** ** Authenticator *)

Lemma validate_api_key_rejects rt key w r :
  http rt (exchanges w) (identity_request key) = Ok r ->
  status_code r <> 200 ->
  validate_api_key rt key w =
    Some (Raise (RuntimeError (auth_failure_message r)),
          log_exchange (identity_request key, Ok r) w).
Proof.
  intros Hhttp Hstatus. unfold validate_api_key, bind, session_get.
  rewrite Hhttp. apply Z.eqb_neq in Hstatus. now rewrite Hstatus.
Qed.

Lemma str_app_nil_r (s : string) : (s ++ EmptyString)%string = s.
Proof. induction s as [|c s IH]; simpl; [reflexivity|now rewrite IH]. Qed.

Lemma str_app_assoc (a b c : string) :
  ((a ++ b) ++ c)%string = (a ++ b ++ c)%string.
Proof. induction a as [|x a IH]; simpl; [reflexivity|now rewrite IH]. Qed.

Lemma take_length n s : (String.length (PyStr.take n s) <= n)%nat.
Proof.
  revert s. induction n as [|n IH]; intros [|c s]; simpl; try lia.
  specialize (IH s). lia.
Qed.

(** C3. When the identity check answers with a status other than 200, the
    authenticator raises an error whose message carries the status code
    and at most 200 characters of the body; the process exits with
    status 1 after printing that message, which contains the status code,
    and the identity check is the only request it has made: nothing is
    printed to standard output and the store is not touched. *)
Theorem auth_failure_is_fatal fuel rt cfg args fs coll key r :
  api_key cfg = Some key ->
  key <> EmptyString ->
  http rt [] (identity_request key) = Ok r ->
  status_code r <> 200 ->
  let diagnostic := ("[fatal] " ++ auth_failure_message r)%string in
  validate_api_key rt key (boot fs coll) =
    Some (Raise (RuntimeError (auth_failure_message r)),
          log_exchange (identity_request key, Ok r) (boot fs coll)) /\
  PyStr.occurs_in (PyStr.of_Z (status_code r)) diagnostic /\
  PyStr.occurs_in (PyStr.take 200 (text r)) diagnostic /\
  (String.length (PyStr.take 200 (text r)) <= 200)%nat /\
  exists w1,
    main fuel rt cfg args (boot fs coll) = Some (1, w1) /\
    stderr w1 = [diagnostic] /\
    exchanges w1 = [(identity_request key, Ok r)] /\
    stdout w1 = [] /\
    db_log w1 = [] /\
    collection w1 = coll.
Proof.
  intros Hkey Hne Hhttp Hstatus diagnostic.
  pose proof (validate_api_key_rejects rt key (boot fs coll) r Hhttp Hstatus)
    as Hval.
  split; [exact Hval|].
  split.
  { exists "[fatal] OTX API key validation failed: ",
           (" " ++ PyStr.take 200 (text r))%string. reflexivity. }
  split.
  { exists ("[fatal] OTX API key validation failed: "
            ++ PyStr.of_Z (status_code r) ++ " ")%string, EmptyString.
    unfold diagnostic, auth_failure_message.
    now rewrite str_app_nil_r, !str_app_assoc. }
  split; [apply take_length|].
  eexists. split.
  - unfold main, run. rewrite Hkey.
    destruct key as [|c key]; [contradiction|].
    unfold bind at 1.
    destruct (since_file_total cfg args (boot fs coll)) as [v [-> _]].
    unfold bind at 1. rewrite Hval. reflexivity.
  - repeat split; reflexivity.
Qed.

(** The 403 scenario of the sample feed. *)
Lemma auth_failure_403 :
  let rt := Demo.runtime Demo.forbidden "2025-03-01" "run-1" in
  let r := mkResponse 403 "Authentication required"
             (Ok (JDict [("detail", JStr "Authentication required")])) in
  api_key Demo.config = Some Demo.key /\
  http rt [] (identity_request Demo.key) = Ok r /\
  status_code r <> 200 /\
  exists w1,
    main 0 rt Demo.config Demo.args_plain (boot Demo.no_files []) =
      Some (1, w1) /\
    stderr w1 =
      ["[fatal] OTX API key validation failed: 403 Authentication required"] /\
    exchanges w1 = [(identity_request Demo.key, Ok r)] /\
    stdout w1 = [] /\
    db_log w1 = [] /\
    collection w1 = [].
Proof.
  intros rt r.
  split; [reflexivity|]. split; [reflexivity|]. split; [discriminate|].
  apply (auth_failure_is_fatal 0 rt Demo.config Demo.args_plain
           Demo.no_files [] Demo.key r);
    [reflexivity|discriminate|reflexivity|discriminate].
Defined.

(** ** Paginated extractor *)

Lemma serves_chain_nonempty rt key log req pages :
  serves_chain rt key log req pages -> pages <> [].
Proof. now destruct 1. Qed.

Lemma truthy_url u : u <> EmptyString -> truthy (JStr u) = true.
Proof. intros H. simpl. now destruct (String.eqb_spec u EmptyString). Qed.

(** Following a served chain, for any consumer that accepts its pages
    and leaves the HTTP log alone; [Inv] relates the pages consumed so far
    to the consumer's state and to the world, and does not depend on the
    HTTP log. *)
Lemma follow_pages_chain_with {S} rt key (body : json -> S -> M S)
    (Pg : json -> Prop) (Inv : list json -> S -> World -> Prop) log req pages :
  serves_chain rt key log req pages ->
  (forall done s w x, Inv done s w -> Inv done s (log_exchange x w)) ->
  (forall done page s w,
      Pg page -> Inv done s w ->
      exists s' w', body page s w = Some (Ok s', w') /\
                    exchanges w' = exchanges w /\
                    Inv (done ++ [page]) s' w') ->
  Forall Pg pages ->
  forall fuel url params has_query done s w,
    Inv done s w ->
    exchanges w = log ->
    truthy url = true ->
    py_contains_qmark url = Ok has_query ->
    req = mkRequest url (api_headers key)
                    (if has_query then None else params) ->
    (List.length pages < fuel)%nat ->
    exists s' w' new,
      follow_pages fuel rt key url params body s w = Some (Ok s', w') /\
      Inv (done ++ pages) s' w' /\
      exchanges w' = log ++ new /\
      map fst new = req :: map (follow_request key) (removelast pages) /\
      flat_map page_of new = pages.
Proof.
  intros Hchain Hstable Hbody.
  induction Hchain as [log req r d Hhttp Hstatus Hjson Hnext
                      |log req r d u rest Hhttp Hstatus Hjson Hnext Hu Hrest IH];
    intros Hpages fuel url params has_query done s w Hinv Hlog Htruthy Hq
           Hreq Hfuel;
    inversion Hpages as [|? ? Hpg Hpages']; subst;
    (destruct fuel as [|fuel]; [simpl in Hfuel; lia|]);
    set (req := mkRequest url (api_headers key)
                          (if has_query then None else params)) in *;
    destruct (Hbody done (JDict d) s (log_exchange (req, Ok r) w) Hpg
                    (Hstable _ _ _ _ Hinv))
      as [s1 [w1 [Hrun1 [Hex1 Hinv1]]]];
    assert (Hpage : page_of (req, Ok r) = [JDict d])
      by (unfold page_of; cbn [snd]; rewrite Hstatus, Hjson; reflexivity);
    assert (Hstep :
               follow_pages (Datatypes.S fuel) rt key url params body s w
               = (next <- lift (py_get (JDict d) "next" JNull) ;;
                  follow_pages fuel rt key next None body s1) w1).
  1,3: (cbn [follow_pages]; rewrite Htruthy;
        unfold bind at 1; unfold lift at 1; rewrite Hq;
        unfold bind at 1; unfold session_get; fold req;
        rewrite Hhttp, Hstatus; cbn [Z.eqb Pos.eqb negb];
        unfold bind at 1; unfold lift at 1; rewrite Hjson;
        unfold bind at 1; rewrite Hrun1; reflexivity).
  - destruct fuel as [|fuel]; [simpl in Hfuel; lia|].
    exists s1, w1, [(req, Ok r)].
    split; [|split; [exact Hinv1|split; [|split]]].
    + rewrite Hstep.
      unfold bind, lift. cbn [py_get]. unfold Dict.get_default.
      rewrite Hnext. reflexivity.
    + rewrite Hex1. reflexivity.
    + reflexivity.
    + cbn [flat_map]. rewrite Hpage. reflexivity.
  - pose proof (truthy_url u Hu) as Htu.
    destruct (IH Hpages' fuel (JStr u) None (PyStr.contains "?" u)
                (done ++ [JDict d]) s1 w1)
      as [s' [w' [new [Hrun [Hinv' [Hex [Hreqs Hpgs]]]]]]].
    + exact Hinv1.
    + rewrite Hex1. reflexivity.
    + exact Htu.
    + reflexivity.
    + now destruct (PyStr.contains "?" u).
    + simpl in Hfuel. lia.
    + exists s', w', ((req, Ok r) :: new).
      split; [|split; [|split; [|split]]].
      * rewrite Hstep.
        unfold bind at 1. unfold lift at 1. cbn [py_get].
        unfold Dict.get_default. rewrite Hnext. exact Hrun.
      * now rewrite <- app_assoc in Hinv'.
      * rewrite Hex. now rewrite <- app_assoc.
      * simpl map. rewrite Hreqs. f_equal.
        pose proof (serves_chain_nonempty _ _ _ _ _ Hrest) as Hne.
        destruct rest as [|p rest]; [contradiction|].
        cbn [removelast map]. f_equal.
        unfold follow_request. cbn [py_get]. unfold Dict.get_default.
        now rewrite Hnext.
      * cbn [flat_map]. rewrite Hpage, Hpgs. reflexivity.
Qed.

Lemma follow_pages_chain rt key log req pages :
  serves_chain rt key log req pages ->
  forall fuel url params has_query acc w,
    exchanges w = log ->
    truthy url = true ->
    py_contains_qmark url = Ok has_query ->
    req = mkRequest url (api_headers key)
                    (if has_query then None else params) ->
    (List.length pages < fuel)%nat ->
    exists w' new,
      follow_pages fuel rt key url params collect acc w
        = Some (Ok (acc ++ pages), w') /\
      exchanges w' = log ++ new /\
      map fst new = req :: map (follow_request key) (removelast pages).
Proof.
  intros Hchain fuel url params has_query acc w Hlog Htruthy Hq Hreq Hfuel.
  destruct (follow_pages_chain_with rt key collect (fun _ => True)
              (fun done s _ => s = acc ++ done) log req pages Hchain)
    with (fuel := fuel) (url := url) (params := params)
         (has_query := has_query) (done := @nil json) (s := acc) (w := w)
    as [s' [w' [new [Hrun [Hinv [Hex [Hreqs _]]]]]]]; try assumption.
  - auto.
  - intros done page s w0 _ ->. exists ((acc ++ done) ++ [page]), w0.
    repeat split. now rewrite app_assoc.
  - clear. induction pages; constructor; auto.
  - now rewrite app_nil_r.
  - exists w', new. simpl in Hinv. subst s'. repeat split; assumption.
Qed.

(** C4. When the feed serves a chain of [n] pages, each but the last
    naming the next page's URL in "next" and the last having no "next",
    the extractor yields exactly these [n] pages and stops, for any fuel
    above [n]; its first request is the listing request with the query
    parameters, and each later one goes to exactly the URL of the previous
    page's "next", with no parameters added. *)
Theorem pagination_terminates rt key limit modified_since w pages fuel :
  serves_chain rt key (exchanges w) (first_request key limit modified_since)
               pages ->
  (List.length pages < fuel)%nat ->
  exists w' new,
    fetch_all fuel rt key limit modified_since w = Some (Ok pages, w') /\
    exchanges w' = exchanges w ++ new /\
    List.length new = List.length pages /\
    map fst new = first_request key limit modified_since
                    :: map (follow_request key) (removelast pages).
Proof.
  intros Hchain Hfuel.
  destruct (follow_pages_chain rt key _ _ _ Hchain fuel
              (JStr (urljoin OTX_BASE OTX_PULSES_SUBSCRIBED))
              (Some (first_params limit modified_since)) false [] w)
    as [w' [new [Hrun [Hex Hreqs]]]]; try reflexivity; try assumption.
  exists w', new. repeat split; try assumption.
  apply (f_equal (@List.length _)) in Hreqs.
  rewrite length_map in Hreqs. rewrite Hreqs. simpl. rewrite length_map.
  pose proof (serves_chain_nonempty _ _ _ _ _ Hchain) as Hne.
  destruct pages as [|p pages]; [contradiction|].
  clear - pages. revert p. induction pages as [|q pages IH]; intros p;
    [reflexivity|]. cbn [removelast List.length] in *.
  now rewrite <- (IH q).
Qed.

(** ** Order of timestamps *)

Module StrOrder.

Lemma compare_refl s : String.compare s s = Eq.
Proof.
  induction s as [|c s IH]; simpl; [reflexivity|].
  unfold Ascii.compare. now rewrite N.compare_refl.
Qed.

Lemma leb_refl s : String.leb s s = true.
Proof. unfold String.leb. now rewrite compare_refl. Qed.

Lemma compare_le_trans a b c :
  String.compare a b <> Gt -> String.compare b c <> Gt ->
  String.compare a c <> Gt.
Proof.
  revert b c. induction a as [|x a IH]; intros [|y b] [|z c]; simpl;
    try congruence.
  unfold Ascii.compare.
  destruct (N.compare_spec (N_of_ascii x) (N_of_ascii y)) as [Exy|Lxy|Gxy],
           (N.compare_spec (N_of_ascii y) (N_of_ascii z)) as [Eyz|Lyz|Gyz],
           (N.compare_spec (N_of_ascii x) (N_of_ascii z)) as [Exz|Lxz|Gxz];
    try congruence; try lia.
  apply IH.
Qed.

Lemma leb_trans a b c :
  String.leb a b = true -> String.leb b c = true -> String.leb a c = true.
Proof.
  unfold String.leb. intros Hab Hbc.
  pose proof (compare_le_trans a b c) as H.
  destruct (String.compare a b), (String.compare b c),
    (String.compare a c); try reflexivity; try discriminate;
    exfalso; apply H; congruence.
Qed.

Lemma gtb_leb a b : PyStr.gtb a b = negb (String.leb a b).
Proof.
  unfold PyStr.gtb, String.ltb, String.leb.
  rewrite (String.compare_antisym a b).
  now destruct (String.compare b a).
Qed.

Lemma gtb_false_leb a b : PyStr.gtb a b = false -> String.leb a b = true.
Proof. rewrite gtb_leb. now destruct (String.leb a b). Qed.

Lemma gtb_true_leb a b : PyStr.gtb a b = true -> String.leb b a = true.
Proof.
  rewrite gtb_leb. intros H.
  destruct (String.leb_total a b) as [Hab|Hba]; [|exact Hba].
  now rewrite Hab in H.
Qed.

End StrOrder.

Lemma wm_le_refl a : a = JNull \/ is_timestamp a -> wm_le a a.
Proof.
  intros [-> | [s [-> _]]]; simpl; [exact I|apply StrOrder.leb_refl].
Qed.

Lemma wm_le_trans a b c : wm_le a b -> wm_le b c -> wm_le a c.
Proof.
  destruct a, b, c; simpl; try tauto.
  apply StrOrder.leb_trans.
Qed.

(** ** Watermark tracking *)

Lemma observed_typed p :
  timestamps_typed p -> observed p = JNull \/ is_timestamp (observed p).
Proof.
  intros H. destruct p as [| | | | | |d]; try (now left). simpl.
  destruct (H d "modified" eq_refl (or_introl eq_refl)) as [Hm|Hm].
  - rewrite Hm. apply (H d "created" eq_refl). now right.
  - right. destruct Hm as [s [Hs Hne]]. rewrite Hs. now exists s.
Qed.

Lemma truthy_timestamp v : is_timestamp v -> truthy v = true.
Proof.
  intros [s [-> Hs]]. simpl. now destruct (String.eqb_spec s EmptyString).
Qed.

(** On a record with typed timestamps, the value the code reads with
    [p.get("modified") or p.get("created")] is the observed one. *)
Lemma code_reads_observed d :
  timestamps_typed (JDict d) ->
  py_or (Dict.get_default d "modified" JNull)
        (Dict.get_default d "created" JNull) = observed (JDict d).
Proof.
  intros H. unfold py_or, observed.
  change (Dict.get_default d "modified" JNull) with (Dict.get d "modified").
  change (Dict.get_default d "created" JNull) with (Dict.get d "created").
  destruct (H d "modified" eq_refl (or_introl eq_refl)) as [Hm|Hm].
  - now rewrite Hm.
  - rewrite (truthy_timestamp _ Hm).
    destruct Hm as [s [Hs _]]. now rewrite Hs.
Qed.

Lemma track_typed rt p latest :
  timestamps_typed p ->
  latest = JNull \/ is_timestamp latest ->
  let latest' := track_watermark rt p latest in
  (latest' = latest \/ latest' = observed p) /\
  (latest' = JNull \/ is_timestamp latest') /\
  wm_le latest latest' /\
  wm_le (observed p) latest'.
Proof.
  intros Hp Hl. unfold track_watermark.
  destruct p as [| | | | | |d];
    try (cbn; repeat split; auto; try apply wm_le_refl; auto;
         destruct Hl as [-> | [s [-> _]]]; exact I).
  cbn [py_get]. rewrite code_reads_observed by exact Hp.
  destruct (observed_typed _ Hp) as [Ho|Ho].
  - rewrite Ho. cbn. repeat split; auto. now apply wm_le_refl.
  - rewrite (truthy_timestamp _ Ho).
    destruct Ho as [m [Ho Hm]]. rewrite Ho.
    destruct Hl as [-> | [l [-> Hl]]].
    + cbn. repeat split; auto.
      * right. now exists m.
      * apply StrOrder.leb_refl.
    + cbn [py_gt]. destruct (PyStr.gtb m l) eqn:Hgt; cbn.
      * repeat split; auto.
        -- right. now exists m.
        -- now apply StrOrder.gtb_true_leb.
        -- apply StrOrder.leb_refl.
      * repeat split; auto.
        -- right. now exists l.
        -- apply StrOrder.leb_refl.
        -- now apply StrOrder.gtb_false_leb.
Qed.

(** The running watermark over typed records is the maximum of the seed
    and the observed values, and never falls below the seed. *)
Lemma track_all_maximum rt recs seed :
  (forall p, In p recs -> timestamps_typed p) ->
  seed = JNull \/ is_timestamp seed ->
  let wm := track_all rt recs seed in
  (wm = seed \/ exists p, In p recs /\ wm = observed p) /\
  (wm = JNull \/ is_timestamp wm) /\
  wm_le seed wm /\
  (forall p, In p recs -> wm_le (observed p) wm).
Proof.
  revert seed. induction recs as [|p recs IH]; intros seed Hrecs Hseed.
  - cbn. repeat split; auto; [now apply wm_le_refl|contradiction].
  - cbn -[track_watermark].
    destruct (track_typed rt p seed) as [Hsel [Hty [Hle Hobs]]];
      [apply Hrecs; now left|exact Hseed|].
    destruct (IH (track_watermark rt p seed)) as [Hsel' [Hty' [Hle' Hall]]];
      [intros q Hq; apply Hrecs; now right|exact Hty|].
    fold (track_all rt recs (track_watermark rt p seed)) in *.
    repeat split.
    + destruct Hsel' as [-> | [q [Hq ->]]].
      * destruct Hsel as [-> | ->]; [now left|].
        right. exists p. split; [now left|reflexivity].
      * right. exists q. split; [now right|reflexivity].
    + exact Hty'.
    + eapply wm_le_trans; eassumption.
    + intros q [<-|Hq]; [eapply wm_le_trans; eassumption|now apply Hall].
Qed.

Lemma track_all_prefix_above_seed rt recs seed k :
  (forall p, In p recs -> timestamps_typed p) ->
  seed = JNull \/ is_timestamp seed ->
  wm_le seed (track_all rt (firstn k recs) seed).
Proof.
  intros Hrecs Hseed.
  apply (track_all_maximum rt (firstn k recs) seed); [|exact Hseed].
  intros p Hp. apply Hrecs.
  rewrite <- (firstn_skipn k recs). apply in_or_app. now left.
Qed.

(** ** What the steps of a run leave alone *)

Section RunKeeps.
Variable R : World -> World -> Prop.
Hypothesis R_refl : forall w, R w w.
Hypothesis R_trans : forall a b c, R a b -> R b c -> R a c.
Hypothesis R_tick : forall w, R w (tick w).
Hypothesis R_nap : forall w, R w (nap w).
Hypothesis R_out : forall o w, R w (put_out o w).
Hypothesis R_err : forall line w, R w (put_err line w).

Lemma keeps_iso_now rt : keeps R (iso_now rt).
Proof. intros w r w' [= <- <-]. apply R_tick. Qed.

Lemma keeps_print o : keeps R (print o).
Proof. apply keeps_modify. apply R_out. Qed.

Lemma keeps_eprint line : keeps R (eprint line).
Proof. apply keeps_modify. apply R_err. Qed.

Lemma keeps_sleep : keeps R sleep.
Proof. apply keeps_modify. apply R_nap. Qed.

Lemma keeps_since_file cfg args : keeps R (since_file cfg args).
Proof.
  intros w r w' H.
  destruct (since_file_total cfg args w) as [v [Hv _]].
  rewrite Hv in H. inversion H. apply R_refl.
Qed.

Lemma keeps_build_doc rt run_id page p : keeps R (build_doc rt run_id page p).
Proof.
  unfold build_doc.
  apply keeps_bind; [assumption|apply keeps_lift; assumption|intro].
  apply keeps_bind; [assumption|apply keeps_iso_now|intro].
  apply keeps_bind; [assumption|apply keeps_lift; assumption|intro].
  apply keeps_bind; [assumption|apply keeps_lift; assumption|intro].
  apply keeps_bind; [assumption|apply keeps_lift; assumption|intro].
  now apply keeps_ret.
Qed.

Lemma keeps_upsert_pulse rt doc :
  (forall op, keeps R (db_call rt op)) -> keeps R (upsert_pulse rt doc).
Proof.
  intros Hdb. unfold upsert_pulse.
  apply keeps_bind; [assumption|apply keeps_lift; assumption|intro].
  apply Hdb.
Qed.

Lemma keeps_process_record rt run_id dry page p st :
  (dry = false -> forall op, keeps R (db_call rt op)) ->
  keeps R (process_record rt run_id dry page p st).
Proof.
  intros Hdb. unfold process_record.
  apply keeps_bind; [assumption|apply keeps_build_doc|intro doc].
  apply keeps_bind; [assumption| |intro; now apply keeps_ret].
  destruct dry; [now apply keeps_ret|].
  apply keeps_upsert_pulse. now apply Hdb.
Qed.

Lemma keeps_process_page_with rt run_id dry page st :
  (forall n p s, keeps R (process_record rt run_id dry n p s)) ->
  keeps R (process_page rt run_id dry page st).
Proof.
  intros Hrec. unfold process_page.
  apply keeps_bind; [assumption|apply keeps_lift; assumption|intro].
  apply keeps_bind; [assumption|apply keeps_lift; assumption|intro].
  apply keeps_bind; [assumption| |intro].
  { apply keeps_for_each; try assumption. intros x s. apply Hrec. }
  apply keeps_bind; [assumption|apply keeps_lift; assumption|intro].
  apply keeps_bind; [assumption|apply keeps_print|intro].
  apply keeps_bind; [assumption|apply keeps_sleep|intro].
  now apply keeps_ret.
Qed.

Lemma keeps_process_page rt run_id dry page st :
  (dry = false -> forall op, keeps R (db_call rt op)) ->
  keeps R (process_page rt run_id dry page st).
Proof.
  intros Hdb. apply keeps_process_page_with.
  intros n p s. now apply keeps_process_record.
Qed.

Lemma keeps_connect_mongo rt uri db coll :
  (forall op, keeps R (db_call rt op)) ->
  keeps R (connect_mongo rt uri db coll).
Proof.
  intros Hdb. unfold connect_mongo.
  apply keeps_bind; [assumption|apply Hdb|intro].
  apply keeps_try_except; [assumption| |intro; apply keeps_eprint].
  apply keeps_bind; [assumption|apply Hdb|intro]. apply Hdb.
Qed.

Lemma keeps_save_watermark rt path ts :
  (forall f w, R w (write_file path f w)) ->
  keeps R (save_watermark rt path ts).
Proof.
  intros Hw. unfold save_watermark.
  destruct (String.eqb path EmptyString); [now apply keeps_ret|].
  apply keeps_try_except; [assumption| |intro; apply keeps_eprint].
  destruct (write_fault rt path).
  { apply keeps_bind; [assumption| |intro; now apply keeps_raise].
    apply keeps_modify. intros w. apply Hw. }
  apply keeps_modify. apply Hw.
Qed.

Lemma keeps_validate_api_key rt key :
  (forall req, keeps R (session_get rt req)) ->
  keeps R (validate_api_key rt key).
Proof.
  intros Hget. unfold validate_api_key.
  apply keeps_bind; [assumption|apply Hget|intro r].
  destruct (negb _); [now apply keeps_raise|now apply keeps_lift].
Qed.

(** The whole run, for a relation that requests, file writes and the
    store calls of the run respect. *)
Lemma keeps_run_with fuel rt cfg args :
  (forall req, keeps R (session_get rt req)) ->
  (forall path f w, R w (write_file path f w)) ->
  (dry_run args = false ->
   keeps R (connect_mongo rt (mongo_uri cfg) (mongo_db cfg)
                          (mongo_collection cfg))) ->
  (forall n p s,
      keeps R (process_record rt (uuid4 rt) (dry_run args) n p s)) ->
  keeps R (run fuel rt cfg args).
Proof.
  intros Hget Hwrite Hconn Hrec. unfold run.
  destruct (api_key cfg) as [[|c key]|]; try now apply keeps_raise.
  apply keeps_bind; [assumption|apply keeps_since_file|intro persisted].
  apply keeps_bind;
    [assumption|now apply keeps_validate_api_key|intro me].
  apply keeps_bind; [assumption|apply keeps_lift; assumption|intro].
  apply keeps_bind; [assumption|apply keeps_lift; assumption|intro].
  apply keeps_bind; [assumption|apply keeps_lift; assumption|intro].
  apply keeps_bind; [assumption|apply keeps_print|intro].
  apply keeps_bind; [assumption| |intro].
  { destruct (dry_run args); [now apply keeps_ret|]. now apply Hconn. }
  apply keeps_bind; [assumption| |intro st].
  { unfold fetch_pulses. apply keeps_follow_pages; try assumption.
    intros page s. now apply keeps_process_page_with. }
  apply keeps_bind; [assumption|apply keeps_print|intro].
  destruct (truthy _); [|now apply keeps_ret].
  apply keeps_bind; [assumption| |intro; apply keeps_print].
  apply keeps_save_watermark. apply Hwrite.
Qed.

Lemma keeps_main_with fuel rt cfg args w code w' :
  (forall req, keeps R (session_get rt req)) ->
  (forall path f w, R w (write_file path f w)) ->
  (dry_run args = false ->
   keeps R (connect_mongo rt (mongo_uri cfg) (mongo_db cfg)
                          (mongo_collection cfg))) ->
  (forall n p s,
      keeps R (process_record rt (uuid4 rt) (dry_run args) n p s)) ->
  main fuel rt cfg args w = Some (code, w') -> R w w'.
Proof.
  intros Hget Hwrite Hconn Hrec. unfold main.
  destruct (run fuel rt cfg args w) as [[[[]|[msg|c msg]] w1]|] eqn:Hrun;
    try discriminate; intros [= <- <-];
    pose proof (keeps_run_with fuel rt cfg args Hget Hwrite Hconn Hrec
                  _ _ _ Hrun);
    eauto.
Qed.

Lemma keeps_main fuel rt cfg args w code w' :
  (forall req, keeps R (session_get rt req)) ->
  (forall path f w, R w (write_file path f w)) ->
  (dry_run args = false -> forall op, keeps R (db_call rt op)) ->
  main fuel rt cfg args w = Some (code, w') -> R w w'.
Proof.
  intros Hget Hwrite Hdb. apply keeps_main_with; try assumption.
  - intros Hdry. apply keeps_connect_mongo. now apply Hdb.
  - intros n p s. now apply keeps_process_record.
Qed.

End RunKeeps.


(** ** The record and page loops of a run that completes *)

Lemma same_exchanges_trans a b c :
  same_exchanges a b -> same_exchanges b c -> same_exchanges a c.
Proof. unfold same_exchanges. congruence. Qed.

Lemma same_files_trans a b c : same_files a b -> same_files b c -> same_files a c.
Proof. unfold same_files. congruence. Qed.

Lemma db_call_same_exchanges rt op : keeps same_exchanges (db_call rt op).
Proof.
  intros w r w'. unfold db_call.
  destruct (db_fault rt (db_log w) op); now intros [= _ <-].
Qed.

Lemma db_call_same_files rt op : keeps same_files (db_call rt op).
Proof.
  intros w r w'. unfold db_call.
  destruct (db_fault rt (db_log w) op); now intros [= _ <-].
Qed.

Lemma session_get_same_files rt req : keeps same_files (session_get rt req).
Proof. now intros w r w' [= _ <-]. Qed.

Lemma process_page_same_exchanges rt run_id dry page st :
  keeps same_exchanges (process_page rt run_id dry page st).
Proof.
  apply keeps_process_page; try reflexivity.
  - apply same_exchanges_trans.
  - intros _. apply db_call_same_exchanges.
Qed.

Lemma process_record_ok rt run_id dry page p st w st' w' :
  process_record rt run_id dry page p st w = Some (Ok st', w') ->
  st' = mkRunState (track_watermark rt p (latest_modified_seen st))
                   (page_no st) (docs_ingested st + 1).
Proof.
  unfold process_record. intros H.
  apply bind_ok_inv in H. destruct H as [doc [w1 [_ H]]].
  apply bind_ok_inv in H. destruct H as [u [w2 [_ H]]].
  now inversion H.
Qed.

Lemma for_each_records_ok rt run_id dry page items :
  forall st w st' w',
    for_each (process_record rt run_id dry page) items st w
      = Some (Ok st', w') ->
    latest_modified_seen st' = track_all rt items (latest_modified_seen st) /\
    docs_ingested st' = docs_ingested st + Z.of_nat (List.length items) /\
    page_no st' = page_no st.
Proof.
  induction items as [|p items IH]; intros st w st' w' H.
  - inversion H. subst. cbn. repeat split. lia.
  - cbn [for_each] in H. apply bind_ok_inv in H.
    destruct H as [s1 [w1 [H1 H2]]].
    apply process_record_ok in H1. apply IH in H2.
    destruct H2 as [Hl [Hd Hp]]. subst s1. cbn in *.
    repeat split; try assumption.
    rewrite Hd. cbn [List.length]. lia.
Qed.

Lemma process_page_ok rt run_id dry page st w st' w' :
  process_page rt run_id dry page st w = Some (Ok st', w') ->
  latest_modified_seen st'
    = track_all rt (page_records page) (latest_modified_seen st) /\
  docs_ingested st'
    = docs_ingested st + Z.of_nat (List.length (page_records page)) /\
  page_no st' = page_no st + 1.
Proof.
  unfold process_page. intros H.
  apply bind_ok_inv in H. destruct H as [results [w1 [H1 H]]].
  apply lift_inv in H1. destruct H1 as [H1 ->].
  apply bind_ok_inv in H. destruct H as [items [w2 [H2 H]]].
  apply lift_inv in H2. destruct H2 as [H2 ->].
  apply bind_ok_inv in H. destruct H as [s1 [w3 [H3 H]]].
  apply for_each_records_ok in H3. cbn in H3.
  apply bind_ok_inv in H. destruct H as [next [w4 [_ H]]].
  apply bind_ok_inv in H. destruct H as [u1 [w5 [_ H]]].
  apply bind_ok_inv in H. destruct H as [u2 [w6 [_ H]]].
  inversion H. subst st'.
  unfold page_records. rewrite <- H1, <- H2. exact H3.
Qed.

(** The pages of a completed loop are the answers logged while it ran. *)
Lemma follow_pages_ok rt run_id dry key fuel :
  forall url params st w st' w',
    follow_pages fuel rt key url params (process_page rt run_id dry) st w
      = Some (Ok st', w') ->
    exists new,
      exchanges w' = exchanges w ++ new /\
      let recs := flat_map page_records (flat_map page_of new) in
      latest_modified_seen st' = track_all rt recs (latest_modified_seen st) /\
      docs_ingested st'
        = docs_ingested st + Z.of_nat (List.length recs).
Proof.
  induction fuel as [|fuel IH]; intros url params st w st' w' H;
    [discriminate|].
  cbn [follow_pages] in H. destruct (truthy url).
  - apply bind_ok_inv in H. destruct H as [has_query [w1 [H1 H]]].
    apply lift_inv in H1. destruct H1 as [_ ->].
    apply bind_ok_inv in H. destruct H as [r [w2 [H2 H]]].
    unfold session_get in H2. inversion H2 as [[Hr Hw2]]. clear H2.
    destruct (status_code r =? 200) eqn:Hstatus; [|discriminate].
    cbn [negb] in H.
    apply bind_ok_inv in H. destruct H as [data [w3 [H3 H]]].
    apply lift_inv in H3. destruct H3 as [H3 ->].
    apply bind_ok_inv in H. destruct H as [s1 [w4 [H4 H]]].
    apply bind_ok_inv in H. destruct H as [next [w5 [H5 H]]].
    apply lift_inv in H5. destruct H5 as [_ ->].
    pose proof (process_page_same_exchanges _ _ _ _ _ _ _ _ H4) as Hex.
    apply process_page_ok in H4. destruct H4 as [Hl [Hd _]].
    apply IH in H. destruct H as [new [Hnew [Hl' Hd']]].
    set (req := mkRequest url (api_headers key)
                          (if has_query then None else params)) in *.
    exists ((req, Ok r) :: new).
    assert (Hpage : page_of (req, Ok r) = [data]).
    { unfold page_of. cbn [snd]. now rewrite Hstatus, <- H3. }
    split.
    + rewrite Hnew, Hex, <- Hw2. cbn [exchanges log_exchange].
      rewrite Hr. now rewrite <- app_assoc.
    + cbn [flat_map]. rewrite Hpage. cbn [app flat_map].
      unfold track_all in *. rewrite !fold_left_app, !length_app.
      split; [now rewrite Hl', Hl|]. rewrite Hd', Hd. lia.
  - inversion H. subst. exists []. rewrite app_nil_r. cbn.
    repeat split. lia.
Qed.

(** ** A run that completes *)

Lemma bind_ok_keeps {A B} (R : World -> World -> Prop) (m : M A)
    (k : A -> M B) w b w' :
  keeps R m ->
  bind m k w = Some (Ok b, w') ->
  exists a w1, R w w1 /\ m w = Some (Ok a, w1) /\ k a w1 = Some (Ok b, w').
Proof.
  intros Hm H. apply bind_ok_inv in H. destruct H as [a [w1 [H1 H2]]].
  exists a, w1. repeat split; try assumption. eapply Hm. exact H1.
Qed.

Lemma load_watermark_files path w w2 v :
  files w = files w2 ->
  load_watermark path w = Some (Ok v, w) ->
  load_watermark path w2 = Some (Ok v, w2).
Proof.
  intros Hf H.
  destruct (load_watermark_total path w) as [v1 [H1 [Ha [Hb [Hc [Hd He]]]]]].
  destruct (load_watermark_total path w2)
    as [v2 [H2 [Ha2 [Hb2 [Hc2 [Hd2 He2]]]]]].
  rewrite H1 in H. inversion H. subst v1. rewrite H2.
  rewrite <- Hf in *.
  enough (v2 = v) by now subst.
  destruct (String.eqb_spec path EmptyString) as [Hp|Hp].
  { now rewrite Ha, Ha2. }
  destruct (files w path) as [| |data] eqn:Hfile.
  - now rewrite Hb, Hb2.
  - now rewrite Hc, Hc2.
  - destruct data as [| | | | | |d];
      try (rewrite (Hd _ eq_refl), (Hd2 _ eq_refl); [reflexivity| |];
           intros d; discriminate).
    now rewrite (He d), (He2 d).
Qed.

Lemma since_file_boot cfg args fs coll :
  exists persisted,
    since_file cfg args (boot fs coll) = Some (Ok persisted, boot fs coll) /\
    run_resume_point cfg args fs
      = resume_point (opt_str (since args)) persisted (default_since cfg).
Proof.
  destruct (since_file_total cfg args (boot fs coll)) as [v [Hv [_ Hload]]].
  exists v. split; [exact Hv|].
  unfold run_resume_point, since_file in *.
  destruct (no_watermark args).
  - inversion Hv. reflexivity.
  - rewrite (load_watermark_files _ (boot fs coll) (boot fs []) v);
      auto.
Qed.

Lemma quiet_trans a b c : quiet a b -> quiet b c -> quiet a c.
Proof. unfold quiet. intros [-> ->] [-> ->]. now split. Qed.

Lemma db_call_quiet rt op : keeps quiet (db_call rt op).
Proof.
  intros w r w'. unfold db_call.
  destruct (db_fault rt (db_log w) op); now intros [= _ <-].
Qed.

Lemma connect_quiet rt (dry : bool) uri db coll :
  keeps quiet (if dry then ret tt else connect_mongo rt uri db coll).
Proof.
  destruct dry.
  - apply keeps_ret. now split.
  - apply keeps_connect_mongo; try (now split).
    + apply quiet_trans.
    + apply db_call_quiet.
Qed.

Lemma follow_pages_same_files {S} fuel rt key url params
    (body : json -> S -> M S) s :
  (forall page s, keeps same_files (body page s)) ->
  keeps same_files (follow_pages fuel rt key url params body s).
Proof.
  intros Hbody. apply keeps_follow_pages; try assumption.
  - reflexivity.
  - apply same_files_trans.
  - apply session_get_same_files.
Qed.

Lemma process_page_same_files rt run_id dry page st :
  keeps same_files (process_page rt run_id dry page st).
Proof.
  apply keeps_process_page; try reflexivity.
  - apply same_files_trans.
  - intros _. apply db_call_same_files.
Qed.

(** The shape of a completed run: one identity check, then the page
    loop; the summary line counts the records seen; the watermark is
    saved exactly when the tracked value is truthy. *)
Lemma run_ok fuel rt cfg args fs coll w1 :
  run fuel rt cfg args (boot fs coll) = Some (Ok tt, w1) ->
  let seed := run_resume_point cfg args fs in
  let recs := records_seen w1 in
  let wm := track_all rt recs seed in
  exists w_sum,
    files w_sum = fs /\
    exchanges w_sum = exchanges w1 /\
    In (summary_line cfg args (Z.of_nat (List.length recs))) (stdout w_sum) /\
    if truthy wm
    then exists w_saved,
           save_watermark rt (watermark_file cfg) wm w_sum
             = Some (Ok tt, w_saved) /\
           w1 = put_out (OutWatermarkSaved wm (watermark_file cfg)) w_saved
    else w1 = w_sum.
Proof.
  unfold run. intros H.
  destruct (api_key cfg) as [[|c key]|]; try discriminate.
  set (key0 := String c key) in *.
  destruct (since_file_boot cfg args fs coll) as [persisted [Hsf Hseed]].
  unfold bind at 1 in H. rewrite Hsf in H.
  rewrite <- Hseed in H. set (seed := run_resume_point cfg args fs) in *.
  apply bind_ok_inv in H. destruct H as [me [wa [Hval H]]].
  assert (Hwa : exists x, exchanges wa = [x] /\ files wa = fs).
  { unfold validate_api_key in Hval.
    apply bind_ok_inv in Hval. destruct Hval as [r [w2 [Hget Hval]]].
    unfold session_get in Hget. inversion Hget as [[Hr Hw2]].
    destruct (negb _); [discriminate|].
    apply lift_inv in Hval. destruct Hval as [_ ->].
    rewrite <- Hw2. eexists. split; reflexivity. }
  destruct Hwa as [x [Hxa Hfa]].
  apply (bind_ok_keeps quiet) in H; [|apply keeps_lift; now split].
  destruct H as [username [w2 [[He2 Hf2] [_ H]]]].
  apply (bind_ok_keeps quiet) in H; [|apply keeps_lift; now split].
  destruct H as [pulses [w3 [[He3 Hf3] [_ H]]]].
  apply (bind_ok_keeps quiet) in H; [|apply keeps_lift; now split].
  destruct H as [indicators [w4 [[He4 Hf4] [_ H]]]].
  apply (bind_ok_keeps quiet) in H; [|apply keeps_print; now split].
  destruct H as [u5 [w5 [[He5 Hf5] [_ H]]]].
  apply (bind_ok_keeps quiet) in H; [|apply connect_quiet].
  destruct H as [u6 [w6 [[He6 Hf6] [_ H]]]].
  apply (bind_ok_keeps same_files) in H;
    [|apply follow_pages_same_files; intros; apply process_page_same_files].
  destruct H as [st [w7 [Hf7 [Hloop H]]]].
  apply follow_pages_ok in Hloop. destruct Hloop as [new [He7 [Hl Hd]]].
  cbn [latest_modified_seen docs_ingested] in Hl, Hd.
  apply bind_ok_inv in H. destruct H as [u8 [w8 [Hprint H]]].
  unfold print, modify in Hprint. injection Hprint as Hu8 Hw8.
  assert (Hex : exchanges w8 = x :: new).
  { rewrite <- Hw8. cbn. rewrite He7, He6, He5, He4, He3, He2, Hxa.
    reflexivity. }
  assert (Hfs : files w8 = fs).
  { rewrite <- Hw8. cbn. unfold same_files in Hf7.
    rewrite Hf7, Hf6, Hf5, Hf4, Hf3, Hf2. exact Hfa. }
  assert (Hkeep : exchanges w1 = exchanges w8).
  { destruct (truthy (latest_modified_seen st)).
    - apply bind_ok_inv in H. destruct H as [u9 [w9 [Hsave H]]].
      inversion H. cbn.
      eapply (keeps_save_watermark same_exchanges); try exact Hsave;
        try reflexivity. apply same_exchanges_trans.
    - now inversion H. }
  assert (Hrecs : records_seen w1
                  = flat_map page_records (flat_map page_of new)).
  { unfold records_seen, fetched_pages. now rewrite Hkeep, Hex. }
  exists w8. split; [exact Hfs|]. split; [now rewrite Hkeep|].
  rewrite Hrecs. rewrite <- Hl. split.
  - rewrite <- Hw8. cbn. apply in_or_app. right. left.
    unfold summary_line. rewrite Hd. now destruct (dry_run args).
  - destruct (truthy (latest_modified_seen st)).
    + apply bind_ok_inv in H. destruct H as [[] [w9 [Hsave H]]].
      exists w9. split; [exact Hsave|]. now inversion H.
    + now inversion H.
Qed.

(** ** Ingestion envelope *)

Module DictLookup.
Import Dict.

Lemma lookup_set_same d k v : lookup (set d k v) k = Some v.
Proof.
  induction d as [|[k' v'] r IH]; simpl.
  - now rewrite String.eqb_refl.
  - destruct (String.eqb_spec k' k) as [->|Hne]; simpl.
    + now rewrite String.eqb_refl.
    + destruct (String.eqb_spec k' k); [contradiction|exact IH].
Qed.

Lemma lookup_set_other d k v k' :
  k' <> k -> lookup (set d k v) k' = lookup d k'.
Proof.
  intros Hne. induction d as [|[k0 v0] r IH]; simpl.
  - destruct (String.eqb_spec k k'); [congruence|reflexivity].
  - destruct (String.eqb_spec k0 k) as [->|Hk]; simpl.
    + destruct (String.eqb_spec k k'); [congruence|reflexivity].
    + now destruct (String.eqb_spec k0 k').
Qed.

End DictLookup.

Lemma apply_set_other stored set_doc k :
  ~ In k (Dict.keys set_doc) ->
  Dict.lookup (apply_set stored set_doc) k = Dict.lookup stored k.
Proof.
  unfold apply_set. revert stored.
  induction set_doc as [|[k0 v0] r IH]; intros stored Hk; simpl;
    [reflexivity|].
  rewrite IH by (intros Hin; apply Hk; now right).
  apply DictLookup.lookup_set_other. intros ->. apply Hk. now left.
Qed.

Lemma apply_set_fields stored set_doc k v :
  Dict.wf set_doc ->
  Dict.lookup set_doc k = Some v ->
  Dict.lookup (apply_set stored set_doc) k = Some v.
Proof.
  unfold apply_set, Dict.wf. revert stored.
  induction set_doc as [|[k0 v0] r IH]; intros stored Hwf Hk; simpl in *;
    [discriminate|].
  inversion Hwf as [|? ? Hnotin Hwf']. subst.
  destruct (String.eqb_spec k0 k) as [->|Hne].
  - injection Hk as <-.
    change (fold_left _ r ?s) with (apply_set s r).
    rewrite apply_set_other by exact Hnotin.
    apply DictLookup.lookup_set_same.
  - now apply IH.
Qed.

Lemma update_one_upsert_fields filter set_doc coll :
  Dict.wf set_doc ->
  exists stored,
    In stored (update_one_upsert filter set_doc coll) /\
    forall k v, Dict.lookup set_doc k = Some v ->
                Dict.lookup stored k = Some v.
Proof.
  intros Hwf. unfold update_one_upsert.
  destruct (update_first filter set_doc coll) as [coll'|] eqn:Hup.
  - revert coll' Hup. induction coll as [|d r IH]; intros coll' Hup;
      simpl in Hup; [discriminate|].
    destruct (doc_matches filter d).
    + injection Hup as <-. exists (apply_set d set_doc).
      split; [now left|]. intros k v. now apply apply_set_fields.
    + destruct (update_first filter set_doc r) as [r'|]; [|discriminate].
      injection Hup as <-. destruct (IH r' eq_refl) as [s [Hin Hs]].
      exists s. split; [now right|exact Hs].
  - exists (apply_set filter set_doc). split.
    + apply in_or_app. right. now left.
    + intros k v. now apply apply_set_fields.
Qed.

Lemma envelope_has rt run_id page k d :
  has_envelope rt run_id page k (envelope rt run_id page k d).
Proof.
  unfold has_envelope, envelope. repeat split;
    repeat first [ apply DictLookup.lookup_set_same
                 | rewrite DictLookup.lookup_set_other by discriminate ].
Qed.

Lemma envelope_wf rt run_id page k d :
  Dict.wf d -> Dict.wf (envelope rt run_id page k d).
Proof. intros H. unfold envelope. now repeat apply DictFacts.set_wf. Qed.

Lemma make_mongo_safe_dict d :
  exists d', make_mongo_safe (JDict d) = JDict d' /\ Dict.wf d'.
Proof. eexists. split; [reflexivity|apply DictFacts.of_items_wf]. Qed.

Lemma build_doc_dict rt run_id page d w :
  exists d',
    make_mongo_safe (JDict d) = JDict d' /\
    Dict.wf d' /\
    build_doc rt run_id page (JDict d) w
      = Some (Ok (JDict (envelope rt run_id page (clock_reads w) d')),
              tick w).
Proof.
  destruct (make_mongo_safe_dict d) as [d' [Hd' Hwf]].
  exists d'. split; [exact Hd'|]. split; [exact Hwf|].
  unfold build_doc. rewrite Hd'. reflexivity.
Qed.

Lemma build_doc_inv rt run_id page p w doc w' :
  build_doc rt run_id page p w = Some (Ok doc, w') ->
  exists d, make_mongo_safe p = JDict d /\ Dict.wf d /\
            doc = JDict (envelope rt run_id page (clock_reads w) d) /\
            w' = tick w.
Proof.
  unfold build_doc. destruct p as [| | | | | |d]; try discriminate.
  destruct (make_mongo_safe_dict d) as [d' [Hd' Hwf]]. rewrite Hd'.
  cbn. intros [= <- <-]. now exists d'.
Qed.

Lemma logs_enveloped_same rt w w' :
  db_log w' = db_log w -> logs_enveloped rt w w'.
Proof. intros H. exists []. now rewrite app_nil_r. Qed.

Lemma logs_enveloped_trans rt a b c :
  logs_enveloped rt a b -> logs_enveloped rt b c -> logs_enveloped rt a c.
Proof.
  intros [n1 [H1 F1]] [n2 [H2 F2]]. exists (n1 ++ n2).
  split; [now rewrite H2, H1, app_assoc|now apply Forall_app].
Qed.

Lemma db_call_enveloped rt op :
  op_enveloped rt op -> keeps (logs_enveloped rt) (db_call rt op).
Proof.
  intros Hop w r w'. unfold db_call.
  destruct (db_fault rt (db_log w) op); intros [= _ <-];
    exists [op]; split; try reflexivity; now constructor.
Qed.

Ltac env_side :=
  solve [ apply logs_enveloped_trans
        | intros; apply logs_enveloped_same; reflexivity ].

Lemma process_record_enveloped rt dry page p st :
  keeps (logs_enveloped rt) (process_record rt (uuid4 rt) dry page p st).
Proof.
  intros w r w' H. unfold process_record in H.
  apply bind_inv in H. destruct H as [[doc [w1 [Hdoc H]]]|[e [Hdoc _]]].
  - apply build_doc_inv in Hdoc.
    destruct Hdoc as [d [_ [Hwf [-> ->]]]].
    apply (logs_enveloped_trans rt w (tick w) w');
      [now apply logs_enveloped_same|].
    revert H. apply keeps_bind; try env_side.
    + destruct dry; [apply keeps_ret; env_side|].
      unfold upsert_pulse. apply keeps_bind; try env_side.
      * apply keeps_lift; env_side.
      * intros key. apply db_call_enveloped. cbn.
        exists (envelope rt (uuid4 rt) page (clock_reads w) d), page,
               (clock_reads w).
        split; [reflexivity|]. split; [now apply envelope_wf|].
        apply envelope_has.
    + intros u. apply keeps_ret; env_side.
  - eapply (keeps_build_doc (logs_enveloped rt)); try exact Hdoc; env_side.
Qed.

Lemma connect_mongo_enveloped rt uri db coll :
  keeps (logs_enveloped rt) (connect_mongo rt uri db coll).
Proof.
  unfold connect_mongo. apply keeps_bind; try env_side.
  - now apply db_call_enveloped.
  - intros u. apply keeps_try_except; try env_side.
    + apply keeps_bind; try env_side.
      * now apply db_call_enveloped.
      * intros u'. now apply db_call_enveloped.
    + intros msg. apply keeps_eprint; env_side.
Qed.

Lemma main_logs_enveloped fuel rt cfg args w code w1 :
  main fuel rt cfg args w = Some (code, w1) -> logs_enveloped rt w w1.
Proof.
  apply keeps_main_with; try env_side.
  - intros req a r b [= _ <-]. now apply logs_enveloped_same.
  - intros _. apply connect_mongo_enveloped.
  - intros n p s. apply process_record_enveloped.
Qed.

(** ** A run over a finite chain of well-formed pages completes *)

Lemma db_call_ok rt op w :
  (forall log op, db_fault rt log op = None) ->
  db_call rt op w
  = Some (Ok tt, set_collection (apply_db op (collection w)) (log_db op w)).
Proof. intros Hdb. unfold db_call. now rewrite Hdb. Qed.

(** One record: the clock is read once, and unless the run is dry exactly
    the expected update is sent. *)
Lemma process_record_completes rt run_id dry page d st w :
  (dry = false -> forall log op, db_fault rt log op = None) ->
  exists st' w',
    process_record rt run_id dry page (JDict d) st w = Some (Ok st', w') /\
    page_no st' = page_no st /\
    clock_reads w' = S (clock_reads w) /\
    (dry = false ->
     db_log w' = db_log w
                 ++ [update_of rt run_id page (clock_reads w) (JDict d)]).
Proof.
  intros Hdb. unfold process_record.
  destruct (build_doc_dict rt run_id page d w) as [d' [Hd' [_ Hbuild]]].
  unfold bind at 1. rewrite Hbuild. unfold update_of. rewrite Hd'.
  destruct dry.
  - eexists. eexists. split; [reflexivity|]. cbn. repeat split. discriminate.
  - unfold upsert_pulse, natural_key. cbn [py_get].
    unfold bind, lift.
    destruct (Dict.get_default _ "id" JNull);
      rewrite (db_call_ok _ _ _ (Hdb eq_refl));
      eexists; eexists; (split; [reflexivity|]); cbn; repeat split.
Qed.

Lemma for_each_records_complete rt run_id dry page items :
  (dry = false -> forall log op, db_fault rt log op = None) ->
  Forall is_record items ->
  forall st w,
  exists st' w',
    for_each (process_record rt run_id dry page) items st w
      = Some (Ok st', w') /\
    page_no st' = page_no st /\
    clock_reads w' = (clock_reads w + List.length items)%nat /\
    (dry = false ->
     db_log w' = db_log w
                 ++ updates_of_records rt run_id page (clock_reads w) items).
Proof.
  intros Hdb Hitems. induction Hitems as [|p items [d ->] _ IH];
    intros st w; cbn [for_each updates_of_records List.length].
  - exists st, w. split; [reflexivity|]. split; [reflexivity|].
    split; [lia|]. intros _. now rewrite app_nil_r.
  - destruct (process_record_completes rt run_id dry page d st w Hdb)
      as [s1 [w1 [H1 [Hp1 [Hc1 Hl1]]]]].
    destruct (IH s1 w1) as [s2 [w2 [H2 [Hp2 [Hc2 Hl2]]]]].
    exists s2, w2. split; [unfold bind; now rewrite H1|].
    split; [congruence|]. split; [lia|].
    intros Hdry. rewrite (Hl2 Hdry), (Hl1 Hdry), Hc1, <- app_assoc.
    reflexivity.
Qed.

Lemma page_well_formed_records page :
  page_well_formed page ->
  exists results,
    py_get page "results" (JList []) = Ok results /\
    py_iter results = Ok (page_records page) /\
    Forall is_record (page_records page).
Proof.
  intros [results [items [Hres [Hiter Hitems]]]]. exists results.
  unfold page_records. rewrite Hres, Hiter. now repeat split.
Qed.

Lemma process_page_completes rt run_id dry page st w :
  (dry = false -> forall log op, db_fault rt log op = None) ->
  page_well_formed page ->
  exists st' w',
    process_page rt run_id dry page st w = Some (Ok st', w') /\
    exchanges w' = exchanges w /\
    page_no st' = page_no st + 1 /\
    clock_reads w'
    = (clock_reads w + List.length (page_records page))%nat /\
    (dry = false ->
     db_log w' = db_log w
                 ++ updates_of_records rt run_id (page_no st + 1)
                      (clock_reads w) (page_records page)).
Proof.
  intros Hdb Hpg.
  destruct (page_well_formed_records page Hpg) as [results [Hres [Hiter Hitems]]].
  assert (Hrun : exists st' w',
             process_page rt run_id dry page st w = Some (Ok st', w') /\
             page_no st' = page_no st + 1 /\
             clock_reads w'
             = (clock_reads w + List.length (page_records page))%nat /\
             (dry = false ->
              db_log w' = db_log w
                          ++ updates_of_records rt run_id (page_no st + 1)
                               (clock_reads w) (page_records page))).
  { unfold process_page. unfold bind at 1. unfold lift at 1. rewrite Hres.
    unfold bind at 1. unfold lift at 1. rewrite Hiter.
    destruct (for_each_records_complete rt run_id dry (page_no st + 1)
                (page_records page) Hdb Hitems
                (mkRunState (latest_modified_seen st) (page_no st + 1)
                            (docs_ingested st)) w)
      as [s1 [w1 [H1 [Hp1 [Hc1 Hl1]]]]].
    unfold bind at 1. cbn [page_no] in *. rewrite H1.
    destruct page as [| | | | | |d]; try discriminate.
    eexists. eexists. split; [reflexivity|]. cbn.
    split; [exact Hp1|]. split; [exact Hc1|exact Hl1]. }
  destruct Hrun as [st' [w' [Hrun Hrest]]]. exists st', w'.
  split; [exact Hrun|]. split; [|exact Hrest].
  eapply process_page_same_exchanges. exact Hrun.
Qed.

Lemma updates_of_pages_app rt run_id done :
  forall page k rest,
    updates_of_pages rt run_id page k (done ++ rest)
    = updates_of_pages rt run_id page k done
      ++ updates_of_pages rt run_id (page + Z.of_nat (List.length done))
           (k + List.length (flat_map page_records done)) rest.
Proof.
  induction done as [|pg done IH]; intros page k rest;
    cbn [app updates_of_pages flat_map List.length].
  - now rewrite Z.add_0_r, Nat.add_0_r.
  - rewrite IH, <- app_assoc, length_app.
    replace (page + 1 + Z.of_nat (List.length done))
      with (page + Z.of_nat (S (List.length done))) by lia.
    now rewrite Nat.add_assoc.
Qed.

Lemma connect_mongo_completes rt uri db coll w :
  (forall log op, db_fault rt log op = None) ->
  exists w', connect_mongo rt uri db coll w = Some (Ok tt, w') /\
             exchanges w' = exchanges w /\ files w' = files w /\
             clock_reads w' = clock_reads w /\
             db_log w' = db_log w ++ [DbConnect uri db coll;
                                      DbCreateIndex "id";
                                      DbCreateIndex "ingested_at"].
Proof.
  intros Hdb. unfold connect_mongo.
  unfold bind at 1. rewrite (db_call_ok _ _ _ Hdb).
  unfold try_except. unfold bind at 1. rewrite (db_call_ok _ _ _ Hdb).
  rewrite (db_call_ok _ _ _ Hdb).
  eexists. split; [reflexivity|]. cbn. rewrite <- !app_assoc. now repeat split.
Qed.

Lemma loop_invariant_step rt cfg args done page st w :
  (dry_run args = false -> forall log op, db_fault rt log op = None) ->
  page_well_formed page ->
  loop_invariant rt cfg args done st w ->
  exists st' w',
    process_page rt (uuid4 rt) (dry_run args) page st w = Some (Ok st', w') /\
    exchanges w' = exchanges w /\
    loop_invariant rt cfg args (done ++ [page]) st' w'.
Proof.
  intros Hdb Hpg [Hno [Hclock Hlog]].
  destruct (process_page_completes rt (uuid4 rt) (dry_run args) page st w
              Hdb Hpg) as [s' [w' [Hrun [Hex [Hp [Hc Hl]]]]]].
  exists s', w'. split; [exact Hrun|]. split; [exact Hex|].
  split; [|split].
  - rewrite Hp, Hno, length_app. cbn [List.length]. lia.
  - rewrite Hc, Hclock, flat_map_app, length_app. cbn [flat_map].
    now rewrite app_nil_r.
  - intros Hdry. rewrite (Hl Hdry), (Hlog Hdry), updates_of_pages_app.
    cbn [updates_of_pages]. rewrite app_nil_r, <- app_assoc.
    rewrite Hno, Hclock. cbn [Nat.add].
    now replace (Z.of_nat (List.length done) + 1)
      with (1 + Z.of_nat (List.length done)) by lia.
Qed.

(** When the identity check succeeds, the feed serves a finite chain of
    well-formed pages and the store does not fail, the run completes with
    status 0, for any fuel above the number of pages, having received
    exactly these pages; unless it is dry, its store calls are those of
    [connect_mongo] followed by one update per record, in order, each with
    the number of its page and its own clock reading. *)
Theorem run_completes fuel rt cfg args fs coll key r me pages :
  api_key cfg = Some key ->
  key <> EmptyString ->
  http rt [] (identity_request key) = Ok r ->
  status_code r = 200 ->
  resp_json r = Ok (JDict me) ->
  serves_chain rt key [(identity_request key, Ok r)]
               (first_request key (page_limit cfg)
                              (run_resume_point cfg args fs))
               pages ->
  Forall page_well_formed pages ->
  (dry_run args = false -> forall log op, db_fault rt log op = None) ->
  (List.length pages < fuel)%nat ->
  exists w1,
    main fuel rt cfg args (boot fs coll) = Some (0, w1) /\
    fetched_pages w1 = pages /\
    (dry_run args = false ->
     db_log w1 = connect_ops cfg ++ updates_of_pages rt (uuid4 rt) 1 0 pages).
Proof.
  intros Hkey Hne Hhttp Hstatus Hjson Hchain Hpages Hdb Hfuel.
  destruct (since_file_boot cfg args fs coll) as [persisted [Hsf Hseed]].
  set (seed := run_resume_point cfg args fs) in *.
  set (w0 := log_exchange (identity_request key, Ok r) (boot fs coll)).
  assert (Hval : validate_api_key rt key (boot fs coll)
                 = Some (Ok (JDict me), w0)).
  { unfold validate_api_key, bind, session_get. cbn [exchanges boot].
    rewrite Hhttp, Hstatus. cbn [Z.eqb Pos.eqb negb]. unfold lift.
    now rewrite Hjson. }
  set (wa := put_out (OutAuthenticated (Dict.get_default me "username" JNull)
                        (Dict.get_default me "pulse_count" JNull)
                        (Dict.get_default me "indicator_count" JNull)) w0).
  assert (Hconn : exists wc,
             (if dry_run args then ret tt
              else connect_mongo rt (mongo_uri cfg) (mongo_db cfg)
                                 (mongo_collection cfg)) wa
             = Some (Ok tt, wc) /\
             exchanges wc = exchanges w0 /\
             clock_reads wc = 0%nat /\
             (dry_run args = false -> db_log wc = connect_ops cfg)).
  { destruct (dry_run args) eqn:Hdry.
    - exists wa. repeat split. discriminate.
    - destruct (connect_mongo_completes rt (mongo_uri cfg) (mongo_db cfg)
                  (mongo_collection cfg) wa (Hdb eq_refl))
        as [wc [Hc [He [_ [Hck Hlg]]]]].
      exists wc. split; [exact Hc|]. split; [rewrite He; reflexivity|].
      split; [rewrite Hck; reflexivity|]. intros _. rewrite Hlg. reflexivity. }
  destruct Hconn as [wc [Hconn [Hexc [Hclockc Hlogc]]]].
  destruct (follow_pages_chain_with rt key
              (process_page rt (uuid4 rt) (dry_run args))
              page_well_formed (loop_invariant rt cfg args)
              [(identity_request key, Ok r)]
              (first_request key (page_limit cfg) seed) pages Hchain)
    with (fuel := fuel)
         (url := JStr (urljoin OTX_BASE OTX_PULSES_SUBSCRIBED))
         (params := Some (first_params (page_limit cfg) seed))
         (has_query := false) (done := @nil json)
         (s := mkRunState seed 0 0) (w := wc)
    as [st [wl [new [Hloop [Hinv [Hexl [_ Hfetched]]]]]]];
    try assumption; try reflexivity.
  { intros done s w x Hinv. exact Hinv. }
  { intros done page s w Hpg Hinv.
    now apply loop_invariant_step. }
  { split; [reflexivity|]. split; [exact Hclockc|]. intros Hdry.
    rewrite (Hlogc Hdry). cbn [updates_of_pages]. now rewrite app_nil_r. }
  set (ws := put_out (summary_line cfg args (docs_ingested st)) wl).
  assert (Hend : exists w1,
             (if truthy (latest_modified_seen st)
              then save_watermark rt (watermark_file cfg)
                                  (latest_modified_seen st) ;;
                   print (OutWatermarkSaved (latest_modified_seen st)
                                            (watermark_file cfg))
              else ret tt) ws = Some (Ok tt, w1) /\
             exchanges w1 = exchanges ws /\ db_log w1 = db_log ws).
  { destruct (truthy (latest_modified_seen st)).
    - unfold save_watermark.
      destruct (String.eqb (watermark_file cfg) EmptyString).
      + eexists. repeat split.
      + unfold bind, try_except.
        destruct (write_fault rt (watermark_file cfg));
          eexists; repeat split.
    - eexists. repeat split. }
  destruct Hend as [w1 [Hend [Hex1 Hlog1]]].
  exists w1. split; [|split].
  - unfold main, run. rewrite Hkey.
    destruct key as [|c key]; [contradiction|].
    unfold bind at 1. rewrite Hsf. rewrite <- Hseed. fold seed.
    unfold bind at 1. rewrite Hval.
    unfold bind at 1. unfold lift at 1. cbn [py_get].
    unfold bind at 1. unfold lift at 1.
    unfold bind at 1. unfold lift at 1.
    unfold bind at 1. unfold print at 1. unfold modify at 1. fold wa.
    unfold bind at 1. rewrite Hconn.
    unfold bind at 1. unfold fetch_pulses. rewrite Hloop.
    unfold bind at 1. unfold print at 1. unfold modify at 1.
    change (put_out _ wl) with ws.
    rewrite Hend. reflexivity.
  - unfold fetched_pages. rewrite Hex1. unfold ws. cbn [exchanges put_out].
    rewrite Hexl. cbn [tl app]. exact Hfetched.
  - intros Hdry. rewrite Hlog1. unfold ws. cbn [db_log put_out].
    destruct Hinv as [_ [_ Hlog]]. exact (Hlog Hdry).
Qed.

Lemma update_of_enveloped rt run_id page k d :
  exists filter doc,
    update_of rt run_id page k (JDict d) = DbUpdateOne filter (JDict doc) /\
    Dict.wf doc /\
    Dict.lookup doc "_source" = Some (JStr "otx_pulses_subscribed") /\
    Dict.lookup doc "ingested_at" = Some (JStr (now rt k)) /\
    Dict.lookup doc "run_id" = Some (JStr run_id) /\
    Dict.lookup doc "page_no" = Some (JInt page).
Proof.
  destruct (make_mongo_safe_dict d) as [d' [Hd' Hwf]].
  unfold update_of. rewrite Hd'. eexists. eexists.
  split; [reflexivity|]. split; [now apply envelope_wf|]. apply envelope_has.
Qed.

(** C9. The document built from a record carries the envelope of the run
    in [_source], [ingested_at], [run_id] and [page_no], whatever the
    record held under these names after key rewriting; every update a
    process sends to the store carries the one [run_id] of that process;
    after an update the collection holds a document with every field of
    the document sent; and a run over a finite chain of pages that stores
    its records completes having sent, after the calls of [connect_mongo],
    exactly one update per record, in order, each with the envelope made
    of the run's [run_id], the 1-based number of the record's page and the
    record's own clock reading. *)
Theorem envelope_overrides_record :
  (forall rt run_id page d w,
      exists doc,
        build_doc rt run_id page (JDict d) w = Some (Ok (JDict doc), tick w) /\
        Dict.wf doc /\
        Dict.lookup doc "_source" = Some (JStr "otx_pulses_subscribed") /\
        Dict.lookup doc "ingested_at" = Some (JStr (now rt (clock_reads w))) /\
        Dict.lookup doc "run_id" = Some (JStr run_id) /\
        Dict.lookup doc "page_no" = Some (JInt page)) /\
  (forall fuel rt cfg args fs coll code w1 filter doc,
      main fuel rt cfg args (boot fs coll) = Some (code, w1) ->
      In (DbUpdateOne filter doc) (db_log w1) ->
      exists d page k,
        doc = JDict d /\
        Dict.lookup d "_source" = Some (JStr "otx_pulses_subscribed") /\
        Dict.lookup d "ingested_at" = Some (JStr (now rt k)) /\
        Dict.lookup d "run_id" = Some (JStr (uuid4 rt)) /\
        Dict.lookup d "page_no" = Some (JInt page)) /\
  (forall rt filter d w w',
      Dict.wf d ->
      db_call rt (DbUpdateOne filter (JDict d)) w = Some (Ok tt, w') ->
      exists stored,
        In stored (collection w') /\
        forall k v, Dict.lookup d k = Some v -> Dict.lookup stored k = Some v) /\
  (forall fuel rt cfg args fs coll pages,
      run_over rt cfg args fs pages ->
      dry_run args = false ->
      (List.length pages < fuel)%nat ->
      exists w1,
        main fuel rt cfg args (boot fs coll) = Some (0, w1) /\
        db_log w1
        = connect_ops cfg ++ updates_of_pages rt (uuid4 rt) 1 0 pages) /\
  (forall rt run_id page k d,
      exists filter doc,
        update_of rt run_id page k (JDict d)
        = DbUpdateOne filter (JDict doc) /\
        Dict.lookup doc "_source" = Some (JStr "otx_pulses_subscribed") /\
        Dict.lookup doc "ingested_at" = Some (JStr (now rt k)) /\
        Dict.lookup doc "run_id" = Some (JStr run_id) /\
        Dict.lookup doc "page_no" = Some (JInt page)).
Proof.
  split; [|split; [|split; [|split]]].
  - intros rt run_id page d w.
    destruct (make_mongo_safe_dict d) as [d' [Hd' Hwf]].
    exists (envelope rt run_id page (clock_reads w) d').
    split; [unfold build_doc; rewrite Hd'; reflexivity|].
    split; [now apply envelope_wf|]. apply envelope_has.
  - intros fuel rt cfg args fs coll code w1 filter doc Hmain Hin.
    apply main_logs_enveloped in Hmain. destruct Hmain as [new [Hlog Hall]].
    cbn in Hlog. rewrite Hlog in Hin. rewrite Forall_forall in Hall.
    destruct (Hall _ Hin) as [d [page [k [-> [_ [H1 [H2 [H3 H4]]]]]]]].
    now exists d, page, k.
  - intros rt filter d w w' Hwf. unfold db_call.
    destruct (db_fault rt (db_log w) _); [discriminate|].
    intros [= <-]. cbn. now apply update_one_upsert_fields.
  - intros fuel rt cfg args fs coll pages
           [key [r [me [Hkey [Hne [Hhttp [Hst [Hjs [Hch [Hpg Hdb]]]]]]]]]]
           Hdry Hfuel.
    destruct (run_completes fuel rt cfg args fs coll key r me pages)
      as [w1 [Hmain [_ Hlog]]]; try assumption.
    exists w1. split; [exact Hmain|exact (Hlog Hdry)].
  - intros rt run_id page k d.
    destruct (update_of_enveloped rt run_id page k d)
      as [filter [doc [Hup [_ Henv]]]].
    now exists filter, doc.
Qed.

(** ** Re-running the load *)

(** The fingerprint is taken of the document after the envelope is added,
    so its input differs from run to run. *)
Lemma fingerprinted_document_differs rt1 rt2 page1 page2 k1 k2 d :
  uuid4 rt1 <> uuid4 rt2 ->
  envelope rt1 (uuid4 rt1) page1 k1 d <> envelope rt2 (uuid4 rt2) page2 k2 d.
Proof.
  intros Hne Heq.
  pose proof (envelope_has rt1 (uuid4 rt1) page1 k1 d) as [_ [_ [H1 _]]].
  pose proof (envelope_has rt2 (uuid4 rt2) page2 k2 d) as [_ [_ [H2 _]]].
  rewrite Heq in H1. congruence.
Qed.

(** C1, at a record without "id".  Two runs over the same one-record page,
    both from no resume point: unless the fingerprints of the two
    documents collide, the second run adds a second document for the same
    record. *)
Theorem rerun_duplicates_record_without_id (hash1 hash2 : json -> Z) :
  let feed := Demo.feed Demo.page_anonymous Demo.page2 in
  let rt1 := Demo.runtime_with hash1 feed "2025-03-01" "run-1" in
  let rt2 := Demo.runtime_with hash2 feed "2025-03-02" "run-2" in
  hash1 (Demo.anonymous_doc "2025-03-01" "run-1")
    <> hash2 (Demo.anonymous_doc "2025-03-02" "run-2") ->
  exists w1 w2,
    main 5 rt1 Demo.config Demo.args_full (boot Demo.no_files [])
      = Some (0, w1) /\
    main 5 rt2 Demo.config Demo.args_full
         (boot (files w1) (collection w1)) = Some (0, w2) /\
    records_seen w1 = [Demo.pulse3] /\
    records_seen w2 = [Demo.pulse3] /\
    List.length (collection w1) = 1%nat /\
    List.length (collection w2) = 2%nat.
Proof.
  intros feed rt1 rt2 Hne. apply Z.eqb_neq in Hne.
  eexists. eexists. split; [vm_compute; reflexivity|].
  split.
  - cbn. unfold update_one_upsert, update_first, doc_matches, field_matches.
    cbn.
    match goal with
    | |- context [Z.eqb (hash1 ?x) (hash2 ?y)] =>
        replace (Z.eqb (hash1 x) (hash2 y)) with false
          by (symmetry; exact Hne)
    end.
    reflexivity.
  - repeat split; reflexivity.
Qed.

Lemma rerun_duplicates_sample_hash :
  Demo.checksum (Demo.anonymous_doc "2025-03-01" "run-1")
    <> Demo.checksum (Demo.anonymous_doc "2025-03-02" "run-2") /\
  exists w1 w2,
    main 5 (Demo.runtime (Demo.feed Demo.page_anonymous Demo.page2)
                         "2025-03-01" "run-1")
         Demo.config Demo.args_full (boot Demo.no_files []) = Some (0, w1) /\
    main 5 (Demo.runtime (Demo.feed Demo.page_anonymous Demo.page2)
                         "2025-03-02" "run-2")
         Demo.config Demo.args_full (boot (files w1) (collection w1))
      = Some (0, w2) /\
    records_seen w1 = [Demo.pulse3] /\
    records_seen w2 = [Demo.pulse3] /\
    List.length (collection w1) = 1%nat /\
    List.length (collection w2) = 2%nat.
Proof.
  assert (Hne : Demo.checksum (Demo.anonymous_doc "2025-03-01" "run-1")
                <> Demo.checksum (Demo.anonymous_doc "2025-03-02" "run-2"))
    by (vm_compute; discriminate).
  split; [exact Hne|].
  exact (rerun_duplicates_record_without_id Demo.checksum Demo.checksum Hne).
Defined.

(** The sibling path: a record with an "id" is replaced by the second
    run, whatever the fingerprints. *)
Lemma rerun_replaces_record_with_id (hash1 hash2 : json -> Z) :
  let feed := Demo.feed Demo.page_identified Demo.page2 in
  let rt1 := Demo.runtime_with hash1 feed "2025-03-01" "run-1" in
  let rt2 := Demo.runtime_with hash2 feed "2025-03-02" "run-2" in
  exists w1 w2,
    main 5 rt1 Demo.config Demo.args_full (boot Demo.no_files [])
      = Some (0, w1) /\
    main 5 rt2 Demo.config Demo.args_full
         (boot (files w1) (collection w1)) = Some (0, w2) /\
    List.length (collection w1) = 1%nat /\
    List.length (collection w2) = 1%nat /\
    (forall stored, In stored (collection w2) ->
                    Dict.lookup stored "run_id" = Some (JStr "run-2")).
Proof.
  intros feed rt1 rt2.
  eexists. eexists. split; [vm_compute; reflexivity|].
  split; [vm_compute; reflexivity|].
  repeat split; try reflexivity.
  intros stored [<-|[]]. reflexivity.
Qed.

(** In general: a second upsert under the same {id, revision} key finds
    the document of the first and adds none. *)
Lemma float_eqb_refl f : float_eqb f f = true.
Proof.
  destruct f as [s|s| |s m e]; simpl; try apply Bool.eqb_reflx;
    try reflexivity.
  now rewrite Bool.eqb_reflx, Pos.eqb_refl, Z.eqb_refl.
Qed.

Lemma json_eqb_refl v : json_eqb v v = true.
Proof.
  induction v as [|b|n|f|s|l IH|d IH] using json_tree_ind; simpl.
  - reflexivity.
  - apply Bool.eqb_reflx.
  - apply Z.eqb_refl.
  - apply float_eqb_refl.
  - apply String.eqb_refl.
  - induction IH as [|x l Hx _ IHl]; [reflexivity|]. now rewrite Hx, IHl.
  - induction IH as [|[k x] d Hx _ IHd]; [reflexivity|].
    simpl in Hx. now rewrite String.eqb_refl, Hx, IHd.
Qed.

Lemma update_first_length filter set_doc coll coll' :
  update_first filter set_doc coll = Some coll' ->
  List.length coll' = List.length coll.
Proof.
  revert coll'. induction coll as [|d r IH]; intros coll'; simpl;
    [discriminate|].
  destruct (doc_matches filter d); [now intros [= <-]|].
  destruct (update_first filter set_doc r) as [r'|]; [|discriminate].
  intros [= <-]. simpl. now rewrite (IH r').
Qed.

Lemma update_first_finds filter set_doc coll d :
  In d coll -> doc_matches filter d = true ->
  update_first filter set_doc coll <> None.
Proof.
  induction coll as [|x r IH]; simpl; [contradiction|].
  intros [<-|Hin] Hm.
  - now rewrite Hm.
  - destruct (doc_matches filter x); [discriminate|].
    specialize (IH Hin Hm).
    now destruct (update_first filter set_doc r).
Qed.

Lemma natural_key_with_id rt d :
  Dict.get d "id" <> JNull -> natural_key rt (JDict d) = Ok (id_key d).
Proof.
  unfold natural_key, id_key. cbn [py_get].
  change (Dict.get_default d ?k JNull) with (Dict.get d k).
  now destruct (Dict.get d "id").
Qed.

(** A stored document that got the fields of [d] matches [d]'s key, when
    it matched on "revision" before or [d] sets "revision". *)
Lemma id_key_matches_after_set stored d :
  Dict.wf d ->
  Dict.get d "id" <> JNull ->
  field_matches stored "revision" (Dict.get d "revision") = true ->
  doc_matches (id_key d) (apply_set stored d) = true.
Proof.
  intros Hwf Hid Hrev. unfold doc_matches, id_key, field_matches.
  cbn [forallb fst snd]. rewrite andb_true_r. apply andb_true_intro. split.
  - unfold Dict.get in *. destruct (Dict.lookup d "id") as [v|] eqn:E;
      [|contradiction].
    rewrite (apply_set_fields stored d "id" v Hwf E). apply json_eqb_refl.
  - unfold Dict.get in *.
    destruct (Dict.lookup d "revision") as [v|] eqn:E.
    + rewrite (apply_set_fields stored d "revision" v Hwf E).
      apply json_eqb_refl.
    + rewrite apply_set_other; [exact Hrev|].
      intros Hin. unfold Dict.keys in Hin. apply in_map_iff in Hin.
      destruct Hin as [[k x] [Hk Hin]]. simpl in Hk. subst k.
      clear - E Hin. induction d as [|[k' x'] r IH]; [contradiction|].
      simpl in E. destruct (String.eqb_spec k' "revision") as [->|Hne];
        [discriminate|].
      destruct Hin as [[= -> _]|Hin]; [contradiction|]. now apply IH.
Qed.

Lemma upsert_stores_id_key d coll :
  Dict.wf d ->
  Dict.get d "id" <> JNull ->
  exists stored,
    In stored (update_one_upsert (id_key d) d coll) /\
    doc_matches (id_key d) stored = true.
Proof.
  intros Hwf Hid. unfold update_one_upsert.
  destruct (update_first (id_key d) d coll) as [coll'|] eqn:Hup.
  - revert coll' Hup. induction coll as [|x r IH]; intros coll' Hup;
      cbn [update_first] in Hup; [discriminate|].
    destruct (doc_matches (id_key d) x) eqn:Hm.
    + injection Hup as <-. exists (apply_set x d). split; [now left|].
      apply id_key_matches_after_set; try assumption.
      unfold doc_matches, id_key in Hm. cbn [forallb fst snd] in Hm.
      rewrite andb_true_r in Hm. now apply andb_prop in Hm.
    + destruct (update_first (id_key d) d r) as [r'|]; [|discriminate].
      injection Hup as <-. destruct (IH r' eq_refl) as [s [Hin Hs]].
      exists s. split; [now right|exact Hs].
  - exists (apply_set (id_key d) d). split.
    + apply in_or_app. right. now left.
    + apply id_key_matches_after_set; try assumption.
      unfold field_matches, id_key. cbn [Dict.lookup].
      cbn. apply json_eqb_refl.
Qed.

Lemma rerun_with_id_adds_nothing d1 d2 coll :
  Dict.wf d1 ->
  Dict.get d1 "id" <> JNull ->
  id_key d2 = id_key d1 ->
  List.length (update_one_upsert (id_key d2) d2
                 (update_one_upsert (id_key d1) d1 coll))
  = List.length (update_one_upsert (id_key d1) d1 coll).
Proof.
  intros Hwf Hid Hkey. rewrite Hkey.
  destruct (upsert_stores_id_key d1 coll Hwf Hid) as [stored [Hin Hm]].
  set (coll1 := update_one_upsert (id_key d1) d1 coll) in *.
  unfold update_one_upsert at 1.
  destruct (update_first (id_key d1) d2 coll1) as [coll2|] eqn:Hup.
  - now apply update_first_length in Hup.
  - exfalso. eapply update_first_finds; eassumption.
Qed.

Lemma main_zero fuel rt cfg args w w1 :
  main fuel rt cfg args w = Some (0, w1) ->
  run fuel rt cfg args w = Some (Ok tt, w1).
Proof.
  unfold main.
  destruct (run fuel rt cfg args w) as [[[[]|[msg|c msg]] w']|];
    try discriminate. now intros [= <-].
Qed.

Lemma save_watermark_written rt path ts w :
  path <> EmptyString ->
  write_fault rt path = None ->
  save_watermark rt path ts w =
    Some (Ok tt, write_file path (Content (JDict [("modified_since", ts)])) w).
Proof.
  intros Hpath Hfault. unfold save_watermark.
  destruct (String.eqb_spec path EmptyString); [contradiction|].
  unfold try_except. now rewrite Hfault.
Qed.



(** Every completed run: the tracked watermark is the maximum of the
    resume point and the observed values, and it is what is saved. *)
Lemma completed_run_watermark fuel rt cfg args fs coll w1 :
  main fuel rt cfg args (boot fs coll) = Some (0, w1) ->
  let seed := run_resume_point cfg args fs in
  let recs := records_seen w1 in
  let path := watermark_file cfg in
  seed = JNull \/ is_timestamp seed ->
  (forall p, In p recs -> timestamps_typed p) ->
  exists wm,
    wm = track_all rt recs seed /\
    (wm = seed \/ exists p, In p recs /\ wm = observed p) /\
    wm_le seed wm /\
    (forall p, In p recs -> wm_le (observed p) wm) /\
    (wm <> JNull ->
     In (OutWatermarkSaved wm path) (stdout w1) /\
     (path <> EmptyString -> write_fault rt path = None ->
      files w1 path = Content (JDict [("modified_since", wm)]) /\
      load_watermark path w1 = Some (Ok wm, w1))) /\
    (wm = JNull -> files w1 = fs) /\
    (forall k, wm_le seed (track_all rt (firstn k recs) seed)).
Proof.
  intros Hmain seed recs path Hseed Hrecs.
  apply main_zero in Hmain. apply run_ok in Hmain. cbv zeta in Hmain.
  destruct Hmain as [w_sum [Hfs [Hex [Hsum Hsave]]]].
  fold seed recs path in Hsave.
  destruct (track_all_maximum rt recs seed Hrecs Hseed)
    as [Hsel [Hty [Hle Hall]]].
  exists (track_all rt recs seed).
  split; [reflexivity|]. split; [exact Hsel|]. split; [exact Hle|].
  split; [exact Hall|]. split; [|split].
  - intros Hnz.
    destruct Hty as [Hnull|Hts]; [contradiction|].
    rewrite (truthy_timestamp _ Hts) in Hsave.
    destruct Hsave as [w_saved [Hsaved Hw1]].
    split.
    { apply (f_equal stdout) in Hw1. cbn in Hw1. rewrite Hw1.
      apply in_or_app. right. now left. }
    intros Hpath Hfault.
    rewrite (save_watermark_written _ _ _ _ Hpath Hfault) in Hsaved.
    injection Hsaved as <-.
    assert (Hfile : files w1 path
                    = Content (JDict [("modified_since",
                                       track_all rt recs seed)])).
    { apply (f_equal (fun w => files w path)) in Hw1.
      cbn in Hw1. now rewrite String.eqb_refl in Hw1. }
    split; [exact Hfile|].
    destruct (load_watermark_total path w1) as [v [Hv [_ [_ [_ [_ Hd]]]]]].
    rewrite Hv. now rewrite (Hd _ Hpath Hfile).
  - intros Hnull. rewrite Hnull in Hsave. cbn in Hsave. now rewrite Hsave.
  - intros k. now apply track_all_prefix_above_seed.
Qed.

(** A run over a finite chain of pages completes, having seen the records
    of these pages in order. *)
Lemma run_over_completes fuel rt cfg args fs coll pages :
  run_over rt cfg args fs pages ->
  (List.length pages < fuel)%nat ->
  exists w1,
    main fuel rt cfg args (boot fs coll) = Some (0, w1) /\
    records_seen w1 = flat_map page_records pages.
Proof.
  intros [key [r [me [Hkey [Hne [Hhttp [Hst [Hjs [Hch [Hpg Hdb]]]]]]]]]] Hfuel.
  destruct (run_completes fuel rt cfg args fs coll key r me pages)
    as [w1 [Hmain [Hfetched _]]]; try assumption.
  exists w1. split; [exact Hmain|].
  unfold records_seen. now rewrite Hfetched.
Qed.

(** C2, as the code has it.  A run over any finite chain of pages, whose
    records hold timestamps in their "modified" and "created" fields,
    completes, and the watermark it has tracked is the maximum, in the
    order of the timestamp strings, of the resume point and of every
    record's "modified" value ("created" when "modified" is absent); that
    value is handed to the watermark file, which then holds it and yields
    it to the next run; and after any number of records the tracked value
    is, in that order, at or above the resume point. *)
Theorem watermark_is_maximum fuel rt cfg args fs coll pages :
  run_over rt cfg args fs pages ->
  (List.length pages < fuel)%nat ->
  let seed := run_resume_point cfg args fs in
  let recs := flat_map page_records pages in
  let path := watermark_file cfg in
  seed = JNull \/ is_timestamp seed ->
  (forall p, In p recs -> timestamps_typed p) ->
  exists w1 wm,
    main fuel rt cfg args (boot fs coll) = Some (0, w1) /\
    records_seen w1 = recs /\
    wm = track_all rt recs seed /\
    (wm = seed \/ exists p, In p recs /\ wm = observed p) /\
    wm_le seed wm /\
    (forall p, In p recs -> wm_le (observed p) wm) /\
    (wm <> JNull ->
     In (OutWatermarkSaved wm path) (stdout w1) /\
     (path <> EmptyString -> write_fault rt path = None ->
      files w1 path = Content (JDict [("modified_since", wm)]) /\
      load_watermark path w1 = Some (Ok wm, w1))) /\
    (wm = JNull -> files w1 = fs) /\
    (forall k, wm_le seed (track_all rt (firstn k recs) seed)).
Proof.
  intros Hover Hfuel seed recs path Hseed Hrecs.
  destruct (run_over_completes fuel rt cfg args fs coll pages Hover Hfuel)
    as [w1 [Hmain Hseen]].
  fold recs in Hseen.
  destruct (completed_run_watermark fuel rt cfg args fs coll w1 Hmain)
    as [wm Hwm]; [exact Hseed|now rewrite Hseen|].
  rewrite Hseen in Hwm. exists w1, wm. tauto.
Qed.

(** The sample feed from the resume point 2025-01-01: the second record
    has no "modified", and its "created" value becomes the watermark. *)
Lemma demo_run_over args :
  run_over (Demo.runtime (Demo.feed Demo.page1 Demo.page2)
                         "2025-03-01" "run-1")
           Demo.config args Demo.no_files [Demo.page1; Demo.page2].
Proof.
  exists Demo.key, (mkResponse 200 EmptyString (Ok Demo.me)).
  eexists. split; [reflexivity|]. split; [discriminate|].
  split; [reflexivity|]. split; [reflexivity|]. split; [reflexivity|].
  split; [|split].
  - eapply chain_next; try reflexivity; [discriminate|].
    eapply chain_last; reflexivity.
  - repeat constructor; eexists; eexists;
      (split; [reflexivity|split; [reflexivity|]]);
      repeat constructor; eexists; reflexivity.
  - reflexivity.
Qed.

Lemma watermark_demo :
  exists w1,
    run_over (Demo.runtime (Demo.feed Demo.page1 Demo.page2)
                           "2025-03-01" "run-1")
             Demo.config Demo.args_since Demo.no_files
             [Demo.page1; Demo.page2] /\
    run_resume_point Demo.config Demo.args_since Demo.no_files
      = JStr "2025-01-01T00:00:00+00:00" /\
    demo_since_run = Some (0, w1) /\
    records_seen w1 = [Demo.pulse1; Demo.pulse2; Demo.pulse3] /\
    files w1 ".otx_watermark.json"
      = Content (JDict [("modified_since",
                         JStr "2025-02-01T00:00:00+00:00")]).
Proof.
  destruct (watermark_is_maximum 5
              (Demo.runtime (Demo.feed Demo.page1 Demo.page2)
                            "2025-03-01" "run-1")
              Demo.config Demo.args_since Demo.no_files []
              [Demo.page1; Demo.page2])
    as [w1 [wm [Hmain [Hseen [Hwm [_ [_ [_ [Hsaved _]]]]]]]]].
  - apply demo_run_over.
  - simpl. lia.
  - right. eexists. split; [reflexivity|discriminate].
  - intros p Hp d k Hd Hk.
    destruct Hp as [<-|[<-|[<-|[]]]]; injection Hd as <-;
      destruct Hk as [-> | ->]; vm_compute;
      first [ left; reflexivity
            | right; eexists; split; [reflexivity|discriminate] ].
  - exists w1. split; [apply demo_run_over|]. split; [reflexivity|].
    split; [exact Hmain|]. split; [exact Hseen|].
    vm_compute in Hwm. subst wm.
    apply Hsaved; [discriminate|discriminate|reflexivity].
Defined.

(** The order of strings is not the order in time.  From the resume point
    2025-01-01T00:00:00+00:00, a record modified at
    2025-01-01T00:30:00+01:00, half an hour before the resume point in
    time, compares greater as a string: it becomes the watermark, which
    thus falls behind its seed in time. *)
Lemma watermark_falls_behind_in_time :
  exists fuel rt cfg args fs coll w1 t_seed t_saved,
    main fuel rt cfg args (boot fs coll) = Some (0, w1) /\
    run_resume_point cfg args fs = JStr "2025-01-01T00:00:00+00:00" /\
    records_seen w1 = [Demo.pulse5] /\
    observed Demo.pulse5 = JStr "2025-01-01T00:30:00+01:00" /\
    files w1 (watermark_file cfg)
      = Content (JDict [("modified_since",
                         JStr "2025-01-01T00:30:00+01:00")]) /\
    instant "2025-01-01T00:00:00+00:00" = Some t_seed /\
    instant "2025-01-01T00:30:00+01:00" = Some t_saved /\
    t_saved < t_seed.
Proof.
  exists 5%nat,
         (Demo.runtime (Demo.feed Demo.page_offset Demo.page2)
                       "2025-03-01" "run-1"),
         Demo.config, Demo.args_since, Demo.no_files, [].
  eexists. exists 1735689600, 1735687800.
  split; [vm_compute; reflexivity|].
  repeat split; try reflexivity.
Qed.

(** ** The resume point is the one used for extraction *)

Lemma log_grows_refl w : log_grows w w.
Proof. exists []. now rewrite app_nil_r. Qed.

Lemma log_grows_same w w' : exchanges w' = exchanges w -> log_grows w w'.
Proof. intros H. exists []. now rewrite app_nil_r. Qed.

Lemma log_grows_trans a b c : log_grows a b -> log_grows b c -> log_grows a c.
Proof.
  intros [n1 H1] [n2 H2]. exists (n1 ++ n2). now rewrite H2, H1, app_assoc.
Qed.

Ltac grow_side :=
  solve [ apply log_grows_trans
        | intros; apply log_grows_same; reflexivity ].

Lemma session_get_grows rt req : keeps log_grows (session_get rt req).
Proof. intros w r w' [= _ <-]. now eexists. Qed.

Lemma process_page_grows rt run_id dry page st :
  keeps log_grows (process_page rt run_id dry page st).
Proof.
  intros w r w' H. apply log_grows_same.
  eapply process_page_same_exchanges. exact H.
Qed.

Lemma bind_keeps_cases {A B} (R : World -> World -> Prop) (m : M A)
    (k : A -> M B) w r w' :
  keeps R m ->
  bind m k w = Some (r, w') ->
  (exists a w1, R w w1 /\ k a w1 = Some (r, w')) \/ R w w'.
Proof.
  intros Hm H. apply bind_inv in H.
  destruct H as [[a [w1 [H1 H2]]]|[e [H1 _]]].
  - left. exists a, w1. split; [eapply Hm; exact H1|exact H2].
  - right. eapply Hm. exact H1.
Qed.

Lemma follow_pages_first_request rt run_id dry key fuel url params has_query
    st w r w' :
  py_contains_qmark url = Ok has_query ->
  follow_pages fuel rt key url params (process_page rt run_id dry) st w
    = Some (r, w') ->
  exists new,
    exchanges w' = exchanges w ++ new /\
    forall x, hd_error new = Some x ->
              fst x = mkRequest url (api_headers key)
                                (if has_query then None else params).
Proof.
  intros Hq H. destruct fuel as [|fuel]; [discriminate|].
  cbn [follow_pages] in H. destruct (truthy url).
  - unfold bind at 1 in H. unfold lift at 1 in H. rewrite Hq in H.
    apply bind_inv in H.
    assert (Hrest : forall (m : M RunState) w2,
               keeps log_grows m -> m w2 = Some (r, w') ->
               w2 = log_exchange
                      (mkRequest url (api_headers key)
                                 (if has_query then None else params),
                       http rt (exchanges w)
                            (mkRequest url (api_headers key)
                               (if has_query then None else params))) w ->
               exists new,
                 exchanges w' = exchanges w ++ new /\
                 forall x, hd_error new = Some x ->
                           fst x = mkRequest url (api_headers key)
                                     (if has_query then None else params)).
    { intros m w2 Hm Hrun ->. destruct (Hm _ _ _ Hrun) as [new Hnew].
      cbn in Hnew. rewrite <- app_assoc in Hnew. eexists.
      split; [exact Hnew|]. now intros x [= <-]. }
    destruct H as [[resp [w2 [Hget H]]]|[e [Hget ->]]].
    + unfold session_get in Hget. injection Hget as _ Hw2.
      eapply Hrest; [|exact H|now symmetry].
      destruct (negb _); [apply keeps_raise; grow_side|].
      apply keeps_bind; try grow_side; [apply keeps_lift; grow_side|].
      intros data. apply keeps_bind; try grow_side;
        [apply process_page_grows|].
      intros s'. apply keeps_bind; try grow_side;
        [apply keeps_lift; grow_side|].
      intros next. apply keeps_follow_pages; try grow_side.
      * apply session_get_grows.
      * intros page s. apply process_page_grows.
    + unfold session_get in Hget. injection Hget as _ Hw2.
      eapply (Hrest (raise e) w'); [apply keeps_raise; grow_side
                                   |reflexivity|now symmetry].
  - injection H as _ <-. exists []. rewrite app_nil_r.
    split; [reflexivity|]. intros x. discriminate.
Qed.

Lemma run_first_listing_request fuel rt cfg args fs coll key r w1 x :
  api_key cfg = Some key ->
  run fuel rt cfg args (boot fs coll) = Some (r, w1) ->
  nth_error (exchanges w1) 1 = Some x ->
  fst x = first_request key (page_limit cfg) (run_resume_point cfg args fs).
Proof.
  intros Hkey H Hx. unfold run in H. rewrite Hkey in H.
  destruct key as [|c key]; [injection H as _ <-; discriminate|].
  set (key0 := String c key) in *.
  destruct (since_file_boot cfg args fs coll) as [persisted [Hsf Hseed]].
  unfold bind at 1 in H. rewrite Hsf in H. rewrite <- Hseed in H.
  assert (Hshort : forall w, (List.length (exchanges w) <= 1)%nat ->
                             exchanges w1 = exchanges w -> False).
  { intros w Hlen Heq. rewrite Heq in Hx.
    assert (Hsome : nth_error (exchanges w) 1 <> None) by congruence.
    apply nth_error_Some in Hsome. lia. }
  apply bind_inv in H. destruct H as [[me [wa [Hval H]]]|[e [Hval _]]].
  2:{ unfold validate_api_key in Hval. apply bind_inv in Hval.
      destruct Hval as [[resp [w2 [Hget Hval]]]|[e' [Hget _]]];
        unfold session_get in Hget; injection Hget as _ <-.
      - destruct (negb _); [injection Hval as _ <-|
                            apply lift_inv in Hval; destruct Hval as [_ ->]];
          cbn in Hx; discriminate.
      - cbn in Hx. discriminate. }
  assert (Hwa : (List.length (exchanges wa) = 1)%nat).
  { unfold validate_api_key in Hval. apply bind_ok_inv in Hval.
    destruct Hval as [resp [w2 [Hget Hval]]].
    unfold session_get in Hget. injection Hget as _ <-.
    destruct (negb _); [discriminate|].
    apply lift_inv in Hval. destruct Hval as [_ ->]. reflexivity. }
  assert (Hquiet : forall w, exchanges w = exchanges wa ->
                             exchanges w1 = exchanges w -> False).
  { intros w Hw. apply Hshort. rewrite Hw, Hwa. lia. }
  apply (bind_keeps_cases same_exchanges) in H;
    [|apply keeps_lift; reflexivity].
  destruct H as [[username [w2 [He2 H]]]|Hend];
    [|exfalso; now apply (Hquiet wa)].
  apply (bind_keeps_cases same_exchanges) in H;
    [|apply keeps_lift; reflexivity].
  destruct H as [[pulses [w3 [He3 H]]]|Hend];
    [|exfalso; apply (Hquiet w2); congruence].
  apply (bind_keeps_cases same_exchanges) in H;
    [|apply keeps_lift; reflexivity].
  destruct H as [[indicators [w4 [He4 H]]]|Hend];
    [|exfalso; apply (Hquiet w3); unfold same_exchanges in *; congruence].
  apply (bind_keeps_cases same_exchanges) in H;
    [|apply keeps_print; reflexivity].
  destruct H as [[u5 [w5 [He5 H]]]|Hend];
    [|exfalso; apply (Hquiet w4); unfold same_exchanges in *; congruence].
  apply (bind_keeps_cases same_exchanges) in H.
  2:{ intros wx rx wy Hc.
      eapply (connect_quiet rt (dry_run args)). exact Hc. }
  destruct H as [[u6 [w6 [He6 H]]]|Hend];
    [|exfalso; apply (Hquiet w5); unfold same_exchanges in *; congruence].
  assert (Hw6 : exchanges w6 = exchanges wa)
    by (unfold same_exchanges in *; congruence).
  apply bind_inv in H.
  assert (Hloop : forall res w7,
             fetch_pulses fuel rt key0 (page_limit cfg)
               (run_resume_point cfg args fs)
               (process_page rt (uuid4 rt) (dry_run args))
               (mkRunState (run_resume_point cfg args fs) 0 0) w6
             = Some (res, w7) ->
             exchanges w1 = exchanges w7 ->
             fst x = first_request key0 (page_limit cfg)
                                   (run_resume_point cfg args fs)).
  { intros res w7 Hrun Heq. unfold fetch_pulses in Hrun.
    eapply (follow_pages_first_request _ _ _ _ _ _ _ false) in Hrun;
      [|reflexivity].
    destruct Hrun as [new [Hnew Hfirst]].
    rewrite Heq, Hnew, Hw6 in Hx.
    destruct (exchanges wa) as [|x0 [|x1 l]]; try discriminate.
    cbn in Hx. apply Hfirst. destruct new; [discriminate|exact Hx]. }
  destruct H as [[st [w7 [Hrun H]]]|[e [Hrun _]]];
    [|now apply (Hloop _ _ Hrun)].
  apply (Hloop _ _ Hrun).
  revert H. apply (keeps_bind (fun a b => exchanges b = exchanges a)).
  - congruence.
  - apply keeps_print. reflexivity.
  - intros u. destruct (truthy _); [|apply keeps_ret; reflexivity].
    apply keeps_bind; [congruence| |intros u'; apply keeps_print; reflexivity].
    apply keeps_save_watermark; try reflexivity. congruence.
Qed.

(** C7. The resume point is the --since value when one is given; else
    the value in the watermark file, unless --no-watermark is set; else
    the configured default; else none, where a value counts as given when
    it is not empty (Python's [or]).  Reading the watermark file never
    raises: an absent file, an unreadable one, or one that does not hold
    a mapping, reads as no watermark.  The value so chosen is the one sent
    with the first listing request. *)
Theorem resume_point_resolution cfg args fs coll :
  let path := watermark_file cfg in
  exists persisted,
    since_file cfg args (boot fs coll) = Some (Ok persisted, boot fs coll) /\
    (no_watermark args = true -> persisted = JNull) /\
    (fs path = Absent \/ fs path = Corrupt -> persisted = JNull) /\
    (forall data, fs path = Content data -> (forall d, data <> JDict d) ->
                  persisted = JNull) /\
    (forall d, no_watermark args = false -> path <> EmptyString ->
               fs path = Content (JDict d) ->
               persisted = Dict.get d "modified_since") /\
    run_resume_point cfg args fs =
      (if truthy (opt_str (since args)) then opt_str (since args)
       else if truthy persisted then persisted
       else if String.eqb (default_since cfg) EmptyString then JNull
       else JStr (default_since cfg)) /\
    (forall fuel rt key code w1 x,
        api_key cfg = Some key ->
        main fuel rt cfg args (boot fs coll) = Some (code, w1) ->
        nth_error (exchanges w1) 1 = Some x ->
        fst x = first_request key (page_limit cfg)
                              (run_resume_point cfg args fs)).
Proof.
  intros path.
  destruct (since_file_boot cfg args fs coll) as [persisted [Hsf Hseed]].
  exists persisted. split; [exact Hsf|].
  destruct (since_file_total cfg args (boot fs coll)) as [v [Hv [Hskip Hload]]].
  rewrite Hsf in Hv. injection Hv as <-.
  assert (Hcases : no_watermark args = false ->
            exists v, load_watermark path (boot fs coll)
                      = Some (Ok v, boot fs coll) /\ v = persisted).
  { intros Hno. exists persisted. split; [now apply Hload|reflexivity]. }
  destruct (load_watermark_total path (boot fs coll))
    as [v [Hv [_ [Habs [Hcor [Hnd Hd]]]]]].
  cbn [files boot] in Habs, Hcor, Hnd, Hd.
  assert (Hsame : no_watermark args = false -> v = persisted).
  { intros Hno. specialize (Hload Hno). fold path in Hload.
    rewrite Hv in Hload. now injection Hload. }
  split; [exact Hskip|].
  assert (Hany : forall P : Prop, (v = JNull -> P) ->
                   (persisted = JNull -> P) -> v = JNull -> P) by auto.
  split.
  { intros Hfile. destruct (no_watermark args) eqn:Hno; [now apply Hskip|].
    rewrite <- (Hsame eq_refl). destruct Hfile; auto. }
  split.
  { intros data Hfile Hnot.
    destruct (no_watermark args) eqn:Hno; [now apply Hskip|].
    rewrite <- (Hsame eq_refl). eauto. }
  split.
  { intros d Hno Hpath Hfile. rewrite <- (Hsame Hno). now apply Hd. }
  split.
  { rewrite Hseed. apply resume_point_order. }
  intros fuel rt key code w1 x Hkey Hmain Hx. unfold main in Hmain.
  destruct (run fuel rt cfg args (boot fs coll)) as [[r w']|] eqn:Hrun;
    [|discriminate].
  assert (Hw : exchanges w1 = exchanges w').
  { destruct r as [[]|[msg|c msg]]; injection Hmain as _ <-; reflexivity. }
  rewrite Hw in Hx.
  eapply run_first_listing_request; eassumption.
Qed.

(** ** Dry runs *)









(** ** The sample feed *)

Lemma demo_chain log :
  serves_chain (Demo.runtime (Demo.feed Demo.page1 Demo.page2)
                             "2025-03-01" "run-1")
               Demo.key log (first_request Demo.key 50 JNull)
               [Demo.page1; Demo.page2].
Proof.
  eapply chain_next; try reflexivity; [discriminate|].
  eapply chain_last; reflexivity.
Qed.

Lemma pagination_two_pages :
  let rt := Demo.runtime (Demo.feed Demo.page1 Demo.page2)
                         "2025-03-01" "run-1" in
  let w := boot Demo.no_files [] in
  serves_chain rt Demo.key (exchanges w) (first_request Demo.key 50 JNull)
               [Demo.page1; Demo.page2] /\
  (List.length [Demo.page1; Demo.page2] < 3)%nat /\
  exists w' new,
    fetch_all 3 rt Demo.key 50 JNull w
      = Some (Ok [Demo.page1; Demo.page2], w') /\
    exchanges w' = exchanges w ++ new /\
    List.length new = 2%nat /\
    map fst new = [first_request Demo.key 50 JNull;
                   mkRequest (JStr Demo.page2_url)
                             (api_headers Demo.key) None].
Proof.
  intros rt w.
  split; [apply demo_chain|]. split; [simpl; lia|].
  apply (pagination_terminates rt Demo.key 50 JNull w
           [Demo.page1; Demo.page2] 3);
    [apply demo_chain|simpl; lia].
Defined.

Lemma two_page_scenario :
  exists w1,
    demo_plain_run = Some (0, w1) /\
    map (fun d => Dict.lookup d "page_no") (collection w1)
      = [Some (JInt 1); Some (JInt 1); Some (JInt 2)] /\
    map (fun d => Dict.lookup d "run_id") (collection w1)
      = [Some (JStr "run-1"); Some (JStr "run-1"); Some (JStr "run-1")] /\
    stdout w1 = [OutAuthenticated (JStr "ann") (JInt 3) (JInt 9);
                 OutPage 1 2 2 true; OutPage 2 1 3 false;
                 OutDone 3 "threatintel" "otx_pulses_raw";
                 OutWatermarkSaved (JStr "2025-02-01T00:00:00+00:00")
                                   ".otx_watermark.json"].
Proof.
  eexists. split; [vm_compute; reflexivity|]. repeat split; reflexivity.
Qed.

Lemma envelope_demo :
  exists w1,
    demo_plain_run = Some (0, w1) /\
    db_log w1
    = connect_ops Demo.config
      ++ updates_of_pages (Demo.runtime (Demo.feed Demo.page1 Demo.page2)
                                        "2025-03-01" "run-1")
           "run-1" 1 0 [Demo.page1; Demo.page2] /\
    forall filter doc,
      In (DbUpdateOne filter doc) (db_log w1) ->
      exists d page k,
        doc = JDict d /\
        Dict.lookup d "_source" = Some (JStr "otx_pulses_subscribed") /\
        Dict.lookup d "ingested_at"
          = Some (JStr (Demo.clock "2025-03-01" k)) /\
        Dict.lookup d "run_id" = Some (JStr "run-1") /\
        Dict.lookup d "page_no" = Some (JInt page).
Proof.
  destruct (proj1 (proj2 (proj2 (proj2 envelope_overrides_record)))
              5%nat (Demo.runtime (Demo.feed Demo.page1 Demo.page2)
                                  "2025-03-01" "run-1")
              Demo.config Demo.args_plain Demo.no_files []
              [Demo.page1; Demo.page2])
    as [w1 [Hrun Hlog]];
    [apply demo_run_over|reflexivity|simpl; lia|].
  exists w1. split; [exact Hrun|]. split; [exact Hlog|].
  intros filter doc Hin.
  exact (proj1 (proj2 envelope_overrides_record) _ _ _ _ _ _ _ _ _ _
           Hrun Hin).
Defined.

Lemma resume_point_demo :
  exists persisted,
    since_file Demo.config Demo.args_since (boot Demo.no_files [])
      = Some (Ok persisted, boot Demo.no_files []) /\
    persisted = JNull /\
    run_resume_point Demo.config Demo.args_since Demo.no_files
      = JStr "2025-01-01T00:00:00+00:00".
Proof.
  destruct (resume_point_resolution Demo.config Demo.args_since
              Demo.no_files [])
    as [persisted [Hsf [_ [Habsent _]]]].
  exists persisted. split; [exact Hsf|].
  split; [apply Habsent; now left|reflexivity].
Defined.

Lemma keys_safe_demo :
  In "type_name" (json_keys (make_mongo_safe Demo.pulse1)) /\
  (forall i, String.get i "type_name" <> Some "."%char) /\
  String.get 0 "type_name" <> Some "$"%char.
Proof.
  assert (Hin : In "type_name" (json_keys (make_mongo_safe Demo.pulse1))).
  { vm_compute. tauto. }
  split; [exact Hin|].
  exact (make_mongo_safe_keys_safe Demo.pulse1 "type_name" Hin).
Defined.

(* ================================================================== *)
(** * Further properties of the code *)

(** ** Normalizer: which keys change, and which value survives *)

Lemma safe_key_cons c key :
  safe_key (String c key)
  = if Ascii.eqb c "$" then safe_key key
    else String (if Ascii.eqb c "." then "_"%char else c)
                (PyStr.replace "." "_" key).
Proof.
  unfold safe_key. cbn [PyStr.replace PyStr.lstrip].
  destruct (Ascii.eqb_spec c ".") as [->|Hdot]; [reflexivity|].
  reflexivity.
Qed.

(** X1. [safe_key] returns the empty key exactly for the keys made of
    "$" only (the empty key among them). *)
Theorem safe_key_empty_iff key :
  safe_key key = EmptyString
  <-> Forall (fun c => c = "$"%char) (list_ascii_of_string key).
Proof.
  induction key as [|c key IH]; cbn [list_ascii_of_string].
  - split; [constructor|reflexivity].
  - rewrite safe_key_cons.
    destruct (Ascii.eqb_spec c "$") as [->|Hc].
    + rewrite IH. split; [now constructor|now inversion 1].
    + split; [discriminate|]. inversion 1. contradiction.
Qed.

(** X2. [safe_key] leaves a key as it is exactly when the key holds no
    "." and does not start with "$". *)
Theorem safe_key_fixed_iff key :
  safe_key key = key
  <-> PyStr.contains "." key = false /\ String.get 0 key <> Some "$"%char.
Proof.
  split.
  - intros H. rewrite <- H. split.
    + apply PyStrFacts.contains_get. intros i. apply safe_key_no_dot.
    + apply safe_key_no_dollar.
  - intros [Hdot Hdollar]. apply safe_key_fixed; [|exact Hdollar].
    now apply PyStrFacts.contains_get.
Qed.

Lemma lookup_app a b k :
  Dict.lookup (a ++ b) k
  = match Dict.lookup a k with Some v => Some v | None => Dict.lookup b k end.
Proof.
  induction a as [|[k' v'] a IH]; simpl; [reflexivity|].
  now destruct (String.eqb k' k).
Qed.

Lemma lookup_absent d k : ~ In k (Dict.keys d) -> Dict.lookup d k = None.
Proof.
  induction d as [|[k' v'] d IH]; simpl; [reflexivity|].
  intros H. destruct (String.eqb_spec k' k) as [->|_].
  - exfalso. apply H. now left.
  - apply IH. intros Hin. apply H. now right.
Qed.

(** A dictionary built item by item holds, under each key, the value of
    the last item with that key. *)
Lemma fold_set_lookup l :
  forall acc k,
    Dict.lookup (fold_left (fun d kv => Dict.set d (fst kv) (snd kv)) l acc) k
    = match Dict.lookup (rev l) k with
      | Some v => Some v
      | None => Dict.lookup acc k
      end.
Proof.
  induction l as [|[k0 v0] l IH]; intros acc k; cbn [fold_left rev fst snd];
    [reflexivity|].
  rewrite IH, lookup_app. destruct (Dict.lookup (rev l) k); [reflexivity|].
  cbn [Dict.lookup]. destruct (String.eqb_spec k0 k) as [->|Hne].
  - apply DictLookup.lookup_set_same.
  - now apply DictLookup.lookup_set_other.
Qed.

(** X3. When several keys of a mapping are rewritten to the same key, the
    value kept under it is the one of the last of them, transformed. *)
Theorem make_mongo_safe_last_wins pre k v post :
  (forall k', In k' (Dict.keys post) -> safe_key k' <> safe_key k) ->
  exists out,
    make_mongo_safe (JDict (pre ++ (k, v) :: post)) = JDict out /\
    Dict.lookup out (safe_key k) = Some (make_mongo_safe v).
Proof.
  intros Hpost. eexists. split; [reflexivity|].
  set (f := fun kv : string * json =>
              (safe_key (fst kv), make_mongo_safe (snd kv))).
  unfold Dict.of_items. rewrite fold_set_lookup.
  rewrite map_app. cbn [map]. rewrite rev_app_distr. cbn [rev].
  rewrite <- app_assoc, lookup_app.
  rewrite lookup_absent.
  - cbn [app Dict.lookup fst snd]. now rewrite String.eqb_refl.
  - intros Hin. unfold Dict.keys in Hin. rewrite map_rev, map_map in Hin.
    apply in_rev in Hin. apply in_map_iff in Hin.
    destruct Hin as [[k' v'] [Hk Hin]]. cbn in Hk.
    apply (Hpost k'); [|exact Hk].
    unfold Dict.keys. apply in_map_iff. now exists (k', v').
Qed.

Lemma last_wins_sample :
  (forall k', In k' (Dict.keys [("c", JInt 3)])
              -> safe_key k' <> safe_key "a_b") /\
  exists out,
    make_mongo_safe (JDict ([("a.b", JInt 1)] ++ ("a_b", JInt 2)
                            :: [("c", JInt 3)])) = JDict out /\
    Dict.lookup out (safe_key "a_b") = Some (make_mongo_safe (JInt 2)).
Proof.
  assert (H : forall k', In k' (Dict.keys [("c", JInt 3)])
                         -> safe_key k' <> safe_key "a_b").
  { intros k' [<-|[]]. vm_compute. discriminate. }
  split; [exact H|].
  exact (make_mongo_safe_last_wins [("a.b", JInt 1)] "a_b" (JInt 2)
           [("c", JInt 3)] H).
Defined.

(** X4. When no two keys of a mapping are rewritten to the same key, the
    mapping keeps every entry, in order: each key rewritten, each value
    transformed. *)
Theorem make_mongo_safe_without_collisions d :
  NoDup (map safe_key (Dict.keys d)) ->
  make_mongo_safe (JDict d)
  = JDict (map (fun kv => (safe_key (fst kv), make_mongo_safe (snd kv))) d).
Proof.
  intros Hnd. cbn [make_mongo_safe]. f_equal.
  apply DictFacts.of_items_unique. unfold Dict.wf, Dict.keys in *.
  rewrite map_map in *. exact Hnd.
Qed.

Lemma without_collisions_sample :
  NoDup (map safe_key (Dict.keys [("$set", JInt 1); ("a.b", JInt 2)])) /\
  make_mongo_safe (JDict [("$set", JInt 1); ("a.b", JInt 2)])
  = JDict (map (fun kv => (safe_key (fst kv), make_mongo_safe (snd kv)))
               [("$set", JInt 1); ("a.b", JInt 2)]).
Proof.
  assert (H : NoDup (map safe_key
                         (Dict.keys [("$set", JInt 1); ("a.b", JInt 2)]))).
  { vm_compute. repeat constructor; simpl; intuition discriminate. }
  split; [exact H|].
  exact (make_mongo_safe_without_collisions
           [("$set", JInt 1); ("a.b", JInt 2)] H).
Defined.

Lemma distinct_NoDup l : distinct l = true <-> NoDup l.
Proof.
  induction l as [|k l IH]; cbn [distinct].
  - split; [constructor|reflexivity].
  - rewrite andb_true_iff, negb_true_iff, IH. split.
    + intros [Hk Hl]. constructor; [|exact Hl]. intros Hin.
      assert (Hex : existsb (String.eqb k) l = true).
      { apply existsb_exists. exists k. split; [exact Hin|].
        apply String.eqb_refl. }
      congruence.
    + inversion 1 as [|? ? Hk Hl]. subst. split; [|exact Hl].
      destruct (existsb (String.eqb k) l) eqn:E; [|reflexivity].
      apply existsb_exists in E. destruct E as [x [Hin Hx]].
      apply String.eqb_eq in Hx. subst x. contradiction.
Qed.

Lemma map_fixed_inv {A} (f : A -> A) l :
  map f l = l -> forall x, In x l -> f x = x.
Proof.
  induction l as [|y l IH]; simpl; [contradiction|].
  intros [= Hy Hl] x [<-|Hin]; [exact Hy|now apply IH].
Qed.

Lemma json_keys_item (d : dict) kv k :
  In kv d -> k = fst kv \/ In k (json_keys (snd kv)) ->
  In k (json_keys (JDict d)).
Proof.
  intros Hin Hk. cbn [json_keys]. apply in_flat_map. exists kv.
  split; [exact Hin|]. destruct Hk as [->|Hk]; [now left|now right].
Qed.

(** X5. [make_mongo_safe] returns a value unchanged exactly when every
    mapping key of the value, at every depth, is one [safe_key] leaves
    alone (the value being one Python can hold, each mapping with one item
    per key). *)
Theorem make_mongo_safe_unchanged_iff (obj : json) :
  make_mongo_safe obj = obj
  <-> unique_keys obj = true /\
      forall k, In k (json_keys obj) -> safe_key k = k.
Proof.
  induction obj as [|b|n|f|s|l IH|d IH] using json_tree_ind;
    try (cbn; split; [intros _; split; [reflexivity|contradiction]
                     |reflexivity]).
  - cbn [make_mongo_safe unique_keys json_keys].
    rewrite Forall_forall in IH. split.
    + intros [= H]. pose proof (map_fixed_inv _ _ H) as Hfix. split.
      * apply forallb_forall. intros x Hx.
        now apply (proj1 (IH x Hx) (Hfix x Hx)).
      * intros k Hk. apply in_flat_map in Hk. destruct Hk as [x [Hx Hk]].
        now apply (proj1 (IH x Hx) (Hfix x Hx)).
    + intros [Hu Hk]. f_equal. apply map_fixed. intros x Hx.
      apply (IH x Hx). split.
      * rewrite forallb_forall in Hu. now apply Hu.
      * intros k Hin. apply Hk. apply in_flat_map. now exists x.
  - rewrite Forall_forall in IH.
    set (g := fun kv : string * json =>
                (safe_key (fst kv), make_mongo_safe (snd kv))).
    change (make_mongo_safe (JDict d)) with (JDict (Dict.of_items (map g d))).
    cbn [unique_keys]. split.
    + intros [= H].
      assert (Hnd : NoDup (Dict.keys (map g d))).
      { destruct (fold_set_length (map g d) []) as [_ Heq].
        apply Heq. fold (Dict.of_items (map g d)). rewrite H.
        cbn [List.length]. now rewrite length_map. }
      rewrite (DictFacts.of_items_unique _ Hnd) in H.
      pose proof (map_fixed_inv _ _ H) as Hfix.
      rewrite H in Hnd. split.
      * apply andb_true_intro. split; [now apply distinct_NoDup|].
        apply forallb_forall. intros kv Hin.
        apply (IH kv Hin). specialize (Hfix kv Hin). unfold g in Hfix.
        destruct kv as [k v]. cbn [fst snd] in *.
        now injection Hfix.
      * intros k Hk. cbn [json_keys] in Hk. apply in_flat_map in Hk.
        destruct Hk as [kv [Hin Hk]]. specialize (Hfix kv Hin).
        unfold g in Hfix. destruct kv as [k0 v0]. cbn [fst snd] in *.
        injection Hfix as Hk0 Hv0.
        destruct Hk as [<-|Hk]; [exact Hk0|].
        now apply (proj1 (IH (k0, v0) Hin) Hv0).
    + intros [Hu Hk]. apply andb_prop in Hu. destruct Hu as [Hd Hu].
      apply distinct_NoDup in Hd. rewrite forallb_forall in Hu.
      assert (Hmap : map g d = d).
      { apply map_fixed. intros [k v] Hin. unfold g. cbn [fst snd]. f_equal.
        - apply Hk. eapply json_keys_item; [exact Hin|now left].
        - apply (IH (k, v) Hin). split; [now apply (Hu (k, v))|].
          intros k' Hk'. apply Hk.
          eapply json_keys_item; [exact Hin|now right]. }
      rewrite Hmap. f_equal. now apply DictFacts.of_items_unique.
Qed.

(** ** Watermark file: what is saved is what is loaded *)



(** X7. [save_watermark] never raises.  With an empty path it does
    nothing at all; when the file cannot be written it prints one warning
    to standard error, which carries the cause, and returns. *)
Theorem save_watermark_never_raises rt path ts w :
  exists w',
    save_watermark rt path ts w = Some (Ok tt, w') /\
    exchanges w' = exchanges w /\ stdout w' = stdout w /\
    db_log w' = db_log w /\ collection w' = collection w /\
    (path = EmptyString -> w' = w) /\
    (forall cause,
        path <> EmptyString -> write_fault rt path = Some cause ->
        stderr w'
        = stderr w ++ [("[warn] could not persist watermark: "
                        ++ cause)%string]) /\
    (write_fault rt path = None -> stderr w' = stderr w).
Proof.
  unfold save_watermark.
  destruct (String.eqb_spec path EmptyString) as [->|Hpath].
  - exists w. repeat split; intros; try reflexivity; contradiction.
  - unfold try_except.
    destruct (write_fault rt path) as [cause|]; eexists;
      (split; [reflexivity|]); cbn; repeat split;
      try contradiction; try discriminate.
    now intros cause' _ [= ->].
Qed.

(** ** Transport: the default timeout *)

(** X8. The wrapped request function passes on the caller's keyword
    arguments with a "timeout" among them: the caller's own when it gave
    one (whatever its value), the default otherwise; every other argument
    is passed on as given.  Wrapping twice is wrapping once with the
    outer default. *)
Theorem wrap_timeout_supplies_default {A}
    (func : string -> json -> dict -> A) (timeout : json)
    (method : string) (url : json) (kwargs : dict) :
  exists passed,
    _wrap_timeout func timeout method url kwargs = func method url passed /\
    Dict.lookup passed "timeout"
    = Some (match Dict.lookup kwargs "timeout" with
            | Some given => given
            | None => timeout
            end) /\
    (forall k, k <> "timeout" -> Dict.lookup passed k = Dict.lookup kwargs k) /\
    (forall inner_default,
        _wrap_timeout (_wrap_timeout func inner_default) timeout
                      method url kwargs
        = _wrap_timeout func timeout method url kwargs).
Proof.
  unfold _wrap_timeout.
  destruct (Dict.lookup kwargs "timeout") as [given|] eqn:E.
  - exists kwargs. split; [reflexivity|]. split; [exact E|].
    split; [reflexivity|]. intros inner_default. now rewrite E.
  - exists (Dict.set kwargs "timeout" timeout). split; [reflexivity|].
    split; [apply DictLookup.lookup_set_same|].
    split.
    + intros k Hk. apply DictLookup.lookup_set_other. congruence.
    + intros inner_default.
      now rewrite DictLookup.lookup_set_same.
Qed.

(** ** Listings that end on a falsy "next", and listings that break *)

Local Open Scope py_scope.

Lemma feed_serves_pages rt key log req new pages stop :
  feed_serves rt key log req new pages stop ->
  flat_map page_of new = pages /\
  List.length new
  = (List.length pages + match stop with None => 0 | Some _ => 1 end)%nat.
Proof.
  induction 1 as [log req r d Hhttp Hst Hjs Hnext
                 |log req r d u new rest stop Hhttp Hst Hjs Hnext Hu _ [IH1 IH2]
                 |log req r Hhttp Hst
                 |log req e Hhttp
                 |log req r e Hhttp Hst Hjs];
    cbn [flat_map page_of snd app List.length].
  - rewrite Hst, Hjs. split; reflexivity.
  - rewrite Hst, Hjs, IH1, IH2. split; reflexivity.
  - apply Z.eqb_neq in Hst. rewrite Hst. split; reflexivity.
  - split; reflexivity.
  - rewrite Hst, Hjs. split; reflexivity.
Qed.

(** Following a listing, for any consumer that accepts its pages and
    leaves the HTTP log alone. *)
Lemma follow_pages_serves {S} rt key (body : json -> S -> M S)
    (Pg : json -> Prop) (Inv : list json -> S -> World -> Prop)
    log req new pages stop :
  feed_serves rt key log req new pages stop ->
  (forall done s w x, Inv done s w -> Inv done s (log_exchange x w)) ->
  (forall done page s w,
      Pg page -> Inv done s w ->
      exists s' w', body page s w = Some (Ok s', w') /\
                    exchanges w' = exchanges w /\
                    Inv (done ++ [page]) s' w') ->
  Forall Pg pages ->
  forall fuel url params has_query done s w,
    Inv done s w ->
    exchanges w = log ->
    truthy url = true ->
    py_contains_qmark url = Ok has_query ->
    req = mkRequest url (api_headers key)
                    (if has_query then None else params) ->
    (List.length pages < fuel)%nat ->
    exists s' w',
      follow_pages fuel rt key url params body s w
        = Some (ended stop s', w') /\
      Inv (done ++ pages) s' w' /\
      exchanges w' = log ++ new.
Proof.
  intros Hserves Hstable Hbody.
  induction Hserves as [log req r d Hhttp Hst Hjs Hnext
                       |log req r d u new rest stop Hhttp Hst Hjs Hnext Hu
                            Hrest IH
                       |log req r Hhttp Hst
                       |log req e Hhttp
                       |log req r e Hhttp Hst Hjs];
    intros Hpages fuel url params has_query done s w Hinv Hlog Htruthy Hq
           Hreq Hfuel;
    (destruct fuel as [|fuel]; [simpl in Hfuel; lia|]);
    set (req0 := mkRequest url (api_headers key)
                           (if has_query then None else params)) in *;
    subst req log.
  - inversion Hpages as [|? ? Hpg _]; subst.
    destruct (Hbody done (JDict d) s (log_exchange (req0, Ok r) w) Hpg
                    (Hstable _ _ _ _ Hinv))
      as [s1 [w1 [Hrun1 [Hex1 Hinv1]]]].
    destruct fuel as [|fuel]; [simpl in Hfuel; lia|].
    exists s1, w1. split; [|split; [exact Hinv1|now rewrite Hex1]].
    cbn [follow_pages]. rewrite Htruthy.
    unfold bind at 1. unfold lift at 1. rewrite Hq.
    unfold bind at 1. unfold session_get. fold req0.
    rewrite Hhttp, Hst. cbn [Z.eqb Pos.eqb negb].
    unfold bind at 1. unfold lift at 1. rewrite Hjs.
    unfold bind at 1. rewrite Hrun1.
    unfold bind at 1. unfold lift at 1. cbn [py_get].
    rewrite Hnext. reflexivity.
  - inversion Hpages as [|? ? Hpg Hpages']; subst.
    destruct (Hbody done (JDict d) s (log_exchange (req0, Ok r) w) Hpg
                    (Hstable _ _ _ _ Hinv))
      as [s1 [w1 [Hrun1 [Hex1 Hinv1]]]].
    destruct (IH Hpages' fuel (JStr u) None (PyStr.contains "?" u)
                (done ++ [JDict d]) s1 w1)
      as [s' [w' [Hrun [Hinv' Hex]]]].
    + exact Hinv1.
    + now rewrite Hex1.
    + now apply truthy_url.
    + reflexivity.
    + now destruct (PyStr.contains "?" u).
    + simpl in Hfuel. lia.
    + exists s', w'. split; [|split].
      * cbn [follow_pages]. rewrite Htruthy.
        unfold bind at 1. unfold lift at 1. rewrite Hq.
        unfold bind at 1. unfold session_get. fold req0.
        rewrite Hhttp, Hst. cbn [Z.eqb Pos.eqb negb].
        unfold bind at 1. unfold lift at 1. rewrite Hjs.
        unfold bind at 1. rewrite Hrun1.
        unfold bind at 1. unfold lift at 1. cbn [py_get].
        unfold Dict.get_default. rewrite Hnext. exact Hrun.
      * now rewrite <- app_assoc in Hinv'.
      * rewrite Hex. now rewrite <- app_assoc.
  - exists s, (log_exchange (req0, Ok r) w). split; [|split].
    + cbn [follow_pages]. rewrite Htruthy.
      unfold bind at 1. unfold lift at 1. rewrite Hq.
      unfold bind at 1. unfold session_get. fold req0.
      rewrite Hhttp. apply Z.eqb_neq in Hst. rewrite Hst. reflexivity.
    + rewrite app_nil_r. now apply Hstable.
    + reflexivity.
  - exists s, (log_exchange (req0, Raise e) w). split; [|split].
    + cbn [follow_pages]. rewrite Htruthy.
      unfold bind at 1. unfold lift at 1. rewrite Hq.
      unfold bind at 1. unfold session_get. fold req0.
      rewrite Hhttp. reflexivity.
    + rewrite app_nil_r. now apply Hstable.
    + reflexivity.
  - exists s, (log_exchange (req0, Ok r) w). split; [|split].
    + cbn [follow_pages]. rewrite Htruthy.
      unfold bind at 1. unfold lift at 1. rewrite Hq.
      unfold bind at 1. unfold session_get. fold req0.
      rewrite Hhttp, Hst. cbn [Z.eqb Pos.eqb negb].
      unfold bind at 1. unfold lift at 1. rewrite Hjs. reflexivity.
    + rewrite app_nil_r. now apply Hstable.
    + reflexivity.
Qed.

(** ** What the steps of a run add to the world *)

Lemma adds_refl w : adds [] 0 0 [] w w.
Proof.
  unfold adds. rewrite !Nat.add_0_r, !app_nil_r. now repeat split.
Qed.

Lemma adds_trans ops1 t1 n1 out1 ops2 t2 n2 out2 a b c :
  adds ops1 t1 n1 out1 a b -> adds ops2 t2 n2 out2 b c ->
  adds (ops1 ++ ops2) (t1 + t2) (n1 + n2) (out1 ++ out2) a c.
Proof.
  unfold adds.
  intros [Hc1 [Hn1 [Ho1 [He1 [Hf1 [Hl1 Hs1]]]]]]
         [Hc2 [Hn2 [Ho2 [He2 [Hf2 [Hl2 Hs2]]]]]].
  rewrite Hc2, Hc1, Hn2, Hn1, Ho2, Ho1, He2, He1, Hf2, Hf1, Hl2, Hl1,
          Hs2, Hs1, fold_left_app, !app_assoc.
  repeat split; lia.
Qed.

Lemma adds_log_exchange ops t n out a b x :
  adds ops t n out a b -> adds ops t n out a (log_exchange x b).
Proof. exact (fun H => H). Qed.

Lemma adds_put_out ops t n out a b o :
  adds ops t n out a b -> adds ops t n (out ++ [o]) a (put_out o b).
Proof.
  intros H. replace ops with (ops ++ []) by apply app_nil_r.
  replace t with (t + 0)%nat by lia. replace n with (n + 0)%nat by lia.
  eapply adds_trans; [exact H|].
  unfold adds. cbn. rewrite !Nat.add_0_r, app_nil_r. now repeat split.
Qed.

(** One record: the clock is read once; unless the run is dry, the
    expected update is sent and applied to the collection. *)
Lemma process_record_adds rt run_id dry page d st w :
  (dry = false -> forall log op, db_fault rt log op = None) ->
  exists st' w',
    process_record rt run_id dry page (JDict d) st w = Some (Ok st', w') /\
    exchanges w' = exchanges w /\
    adds (if dry then []
          else [update_of rt run_id page (clock_reads w) (JDict d)])
         1 0 [] w w'.
Proof.
  intros Hdb. unfold process_record.
  destruct (build_doc_dict rt run_id page d w) as [d' [Hd' [_ Hbuild]]].
  unfold bind at 1. rewrite Hbuild. unfold update_of. rewrite Hd'.
  destruct dry.
  - eexists. eexists. split; [reflexivity|]. split; [reflexivity|].
    unfold adds. cbn. rewrite !app_nil_r. repeat split; lia.
  - unfold upsert_pulse, natural_key. cbn [py_get].
    unfold bind, lift.
    destruct (Dict.get_default _ "id" JNull);
      rewrite (db_call_ok _ _ _ (Hdb eq_refl));
      eexists; eexists; (split; [reflexivity|]);
      (split; [reflexivity|]);
      unfold adds; cbn; rewrite !app_nil_r; repeat split; lia.
Qed.

Lemma for_each_records_add rt run_id dry page items :
  (dry = false -> forall log op, db_fault rt log op = None) ->
  Forall is_record items ->
  forall st w,
  exists st' w',
    for_each (process_record rt run_id dry page) items st w
      = Some (Ok st', w') /\
    exchanges w' = exchanges w /\
    adds (if dry then []
          else updates_of_records rt run_id page (clock_reads w) items)
         (List.length items) 0 [] w w'.
Proof.
  intros Hdb Hitems. induction Hitems as [|p items [d ->] _ IH];
    intros st w; cbn [for_each updates_of_records List.length].
  - exists st, w. split; [reflexivity|]. split; [reflexivity|].
    destruct dry; apply adds_refl.
  - destruct (process_record_adds rt run_id dry page d st w Hdb)
      as [s1 [w1 [H1 [He1 Ha1]]]].
    destruct (IH s1 w1) as [s2 [w2 [H2 [He2 Ha2]]]].
    exists s2, w2. split; [unfold bind; now rewrite H1|].
    split; [congruence|].
    pose proof (adds_trans _ _ _ _ _ _ _ _ _ _ _ Ha1 Ha2) as Ha.
    assert (Hclock : clock_reads w1 = S (clock_reads w)).
    { destruct Ha1 as [Hc _]. lia. }
    rewrite Hclock in Ha. cbn [app Nat.add] in Ha.
    destruct dry; exact Ha.
Qed.

(** One page: its records, then one line on standard output and one
    nap. *)
Lemma process_page_adds rt run_id dry page st w :
  (dry = false -> forall log op, db_fault rt log op = None) ->
  page_well_formed page ->
  let recs := page_records page in
  exists st' w',
    process_page rt run_id dry page st w = Some (Ok st', w') /\
    exchanges w' = exchanges w /\
    adds (if dry then []
          else updates_of_records rt run_id (page_no st + 1)
                 (clock_reads w) recs)
         (List.length recs) 1
         [OutPage (page_no st + 1) (Z.of_nat (List.length recs))
                  (docs_ingested st + Z.of_nat (List.length recs))
                  (truthy (next_of page))]
         w w'.
Proof.
  intros Hdb Hpg recs.
  destruct (page_well_formed_records page Hpg)
    as [results [Hres [Hiter Hitems]]]. fold recs in Hiter, Hitems.
  set (st0 := mkRunState (latest_modified_seen st) (page_no st + 1)
                         (docs_ingested st)).
  destruct (for_each_records_add rt run_id dry (page_no st + 1) recs Hdb
              Hitems st0 w) as [s1 [w1 [H1 [He1 Ha1]]]].
  pose proof (for_each_records_ok _ _ _ _ _ _ _ _ _ H1) as [_ [Hd1 Hp1]].
  cbn [docs_ingested page_no st0] in Hd1, Hp1.
  destruct page as [| | | | | |pd]; try discriminate.
  exists s1.
  exists (nap (put_out (OutPage (page_no s1) (Z.of_nat (List.length recs))
                                (docs_ingested s1)
                                (truthy (next_of (JDict pd)))) w1)).
  split; [|split].
  - unfold process_page. unfold bind at 1. unfold lift at 1. rewrite Hres.
    unfold bind at 1. unfold lift at 1. rewrite Hiter.
    unfold bind at 1. cbn [page_no]. fold st0. rewrite H1.
    reflexivity.
  - cbn. exact He1.
  - rewrite Hd1, Hp1.
    destruct Ha1 as [Hc [Hn [Ho [He [Hf [Hl Hs]]]]]]. unfold adds.
    cbn [clock_reads naps stdout stderr files db_log collection nap put_out].
    rewrite Hc, Hn, Ho, He, Hf, Hl, Hs, ?app_nil_r.
    repeat split; lia.
Qed.

Lemma page_lines_app done :
  forall page_no total rest,
    page_lines page_no total (done ++ rest)
    = page_lines page_no total done
      ++ page_lines (page_no + Z.of_nat (List.length done))
           (total + Z.of_nat (List.length (flat_map page_records done)))
           rest.
Proof.
  induction done as [|pg done IH]; intros page_no total rest;
    cbn [app page_lines flat_map List.length].
  - now rewrite !Z.add_0_r.
  - rewrite IH, length_app. cbn [app]. f_equal. f_equal; f_equal; lia.
Qed.

Lemma store_calls_step rt cfg args done page :
  store_calls rt cfg args (done ++ [page])
  = store_calls rt cfg args done
    ++ (if dry_run args then []
        else updates_of_records rt (uuid4 rt)
               (Z.of_nat (List.length done) + 1)
               (List.length (flat_map page_records done))
               (page_records page)).
Proof.
  unfold store_calls. destruct (dry_run args); [reflexivity|].
  rewrite updates_of_pages_app. cbn [updates_of_pages].
  rewrite app_nil_r, <- app_assoc. cbn [Nat.add].
  now replace (1 + Z.of_nat (List.length done))
    with (Z.of_nat (List.length done) + 1) by lia.
Qed.

(** The page loop of a run keeps [progress]. *)
Lemma progress_step rt cfg args seed me w0 done page st w :
  (dry_run args = false -> forall log op, db_fault rt log op = None) ->
  clock_reads w0 = 0%nat ->
  page_well_formed page ->
  progress rt cfg args seed me w0 done st w ->
  exists st' w',
    process_page rt (uuid4 rt) (dry_run args) page st w = Some (Ok st', w') /\
    exchanges w' = exchanges w /\
    progress rt cfg args seed me w0 (done ++ [page]) st' w'.
Proof.
  intros Hdb Hclock0 Hpg [Hlatest [Hno [Hdocs Hadds]]].
  destruct (process_page_adds rt (uuid4 rt) (dry_run args) page st w Hdb Hpg)
    as [s' [w' [Hrun [Hex Ha]]]].
  cbv zeta in Ha.
  pose proof (process_page_ok _ _ _ _ _ _ _ _ Hrun) as [Hl' [Hd' Hp']].
  exists s', w'. split; [exact Hrun|]. split; [exact Hex|].
  unfold progress. rewrite flat_map_app, !length_app. cbn [flat_map].
  rewrite app_nil_r. cbn [List.length].
  split; [|split; [|split]].
  - rewrite Hl', Hlatest. unfold track_all. now rewrite fold_left_app.
  - rewrite Hp', Hno. lia.
  - rewrite Hd', Hdocs. lia.
  - pose proof (adds_trans _ _ _ _ _ _ _ _ _ _ _ Hadds Ha) as Hall.
    assert (Hck : clock_reads w
                  = List.length (flat_map page_records done)).
    { destruct Hadds as [Hc _]. lia. }
    rewrite Hck, Hno, Hdocs in Hall.
    rewrite store_calls_step, page_lines_app. cbn [page_lines app].
    rewrite Z.add_0_l.
    replace (1 + Z.of_nat (List.length done))
      with (Z.of_nat (List.length done) + 1) by lia.
    exact Hall.
Qed.

(** ** The end of a run *)

(** After the page loop nothing can fail: the summary is printed, and
    the watermark saved when it is truthy. *)
Lemma finish_completes rt cfg args st w :
  let wm := latest_modified_seen st in
  let path := watermark_file cfg in
  exists w1,
    finish rt cfg args st w = Some (Ok tt, w1) /\
    exchanges w1 = exchanges w /\
    clock_reads w1 = clock_reads w /\
    naps w1 = naps w /\
    db_log w1 = db_log w /\
    collection w1 = collection w /\
    stdout w1 = stdout w
                ++ summary_line cfg args (docs_ingested st)
                :: (if truthy wm then [OutWatermarkSaved wm path] else []) /\
    stderr w1 = stderr w ++ save_warnings rt path wm /\
    files w1 = saved_files rt path wm (files w).
Proof.
  intros wm path. unfold finish, saved_files, save_warnings.
  fold wm path.
  unfold bind at 1. unfold print at 1. unfold modify at 1.
  destruct (truthy wm); cbn [andb].
  - unfold save_watermark.
    destruct (String.eqb path EmptyString); cbn [negb].
    + eexists. split; [reflexivity|]. cbn.
      rewrite <- !app_assoc, app_nil_r. now repeat split.
    + unfold bind, try_except.
      destruct (write_fault rt path); eexists;
        (split; [reflexivity|]); cbn;
        rewrite <- ?app_assoc, ?app_nil_r; now repeat split.
  - eexists. split; [reflexivity|]. cbn. rewrite app_nil_r.
    now repeat split.
Qed.

Lemma run_unfolds fuel rt cfg args key :
  api_key cfg = Some key -> key <> EmptyString ->
  run fuel rt cfg args
  = (persisted <- since_file cfg args ;;
     let modified_since :=
       resume_point (opt_str (since args)) persisted (default_since cfg) in
     me <- validate_api_key rt key ;;
     username <- lift (py_get me "username" JNull) ;;
     pulses <- lift (py_get me "pulse_count" JNull) ;;
     indicators <- lift (py_get me "indicator_count" JNull) ;;
     print (OutAuthenticated username pulses indicators) ;;
     (if dry_run args then ret tt
      else connect_mongo rt (mongo_uri cfg) (mongo_db cfg)
                         (mongo_collection cfg)) ;;
     st <- fetch_pulses fuel rt key (page_limit cfg) modified_since
             (process_page rt (uuid4 rt) (dry_run args))
             (mkRunState modified_since 0 0) ;;
     finish rt cfg args st).
Proof.
  intros Hkey Hne. unfold run. rewrite Hkey.
  destruct key as [|c key]; [contradiction|]. reflexivity.
Qed.

Lemma connect_mongo_adds rt uri db coll w :
  (forall log op, db_fault rt log op = None) ->
  exists w', connect_mongo rt uri db coll w = Some (Ok tt, w') /\
             exchanges w' = exchanges w /\
             adds [DbConnect uri db coll; DbCreateIndex "id";
                   DbCreateIndex "ingested_at"] 0 0 [] w w'.
Proof.
  intros Hdb. unfold connect_mongo.
  unfold bind at 1. rewrite (db_call_ok _ _ _ Hdb).
  unfold try_except. unfold bind at 1. rewrite (db_call_ok _ _ _ Hdb).
  rewrite (db_call_ok _ _ _ Hdb).
  eexists. split; [reflexivity|]. split; [reflexivity|].
  unfold adds. cbn. rewrite <- !app_assoc, app_nil_r.
  repeat split; lia.
Qed.

(** A run over a feed, up to the end of its page loop. *)
Lemma run_reaches fuel rt cfg args fs coll key r me new pages stop :
  run_serves rt cfg args fs key r me new pages stop ->
  (List.length pages < fuel)%nat ->
  exists st w,
    progress rt cfg args (run_resume_point cfg args fs) me (boot fs coll)
             pages st w /\
    exchanges w = (identity_request key, Ok r) :: new /\
    run fuel rt cfg args (boot fs coll)
    = match stop with
      | None => finish rt cfg args st w
      | Some e => Some (Raise e, w)
      end.
Proof.
  intros [Hkey [Hne [Hhttp [Hstatus [Hjson [Hfeed [Hpages Hdb]]]]]]] Hfuel.
  destruct (since_file_boot cfg args fs coll) as [persisted [Hsf Hseed]].
  set (seed := run_resume_point cfg args fs) in *.
  set (w0 := log_exchange (identity_request key, Ok r) (boot fs coll)).
  assert (Hval : validate_api_key rt key (boot fs coll)
                 = Some (Ok (JDict me), w0)).
  { unfold validate_api_key, bind, session_get. cbn [exchanges boot].
    rewrite Hhttp, Hstatus. cbn [Z.eqb Pos.eqb negb]. unfold lift.
    now rewrite Hjson. }
  set (wa := put_out (greeting me) w0).
  assert (Hconn : exists wc,
             (if dry_run args then ret tt
              else connect_mongo rt (mongo_uri cfg) (mongo_db cfg)
                                 (mongo_collection cfg)) wa
             = Some (Ok tt, wc) /\
             exchanges wc = exchanges w0 /\
             adds (store_calls rt cfg args []) 0 0 [greeting me]
                  (boot fs coll) wc).
  { unfold store_calls. destruct (dry_run args) eqn:Hdry.
    - exists wa. split; [reflexivity|]. split; [reflexivity|].
      unfold adds. cbn. now repeat split.
    - destruct (connect_mongo_adds rt (mongo_uri cfg) (mongo_db cfg)
                  (mongo_collection cfg) wa (Hdb eq_refl))
        as [wc [Hc [He Ha]]].
      exists wc. split; [exact Hc|]. split; [rewrite He; reflexivity|].
      cbn [updates_of_pages]. rewrite app_nil_r.
      destruct Ha as [H1 [H2 [H3 [H4 [H5 [H6 H7]]]]]].
      unfold adds. rewrite H1, H2, H3, H4, H5, H6, H7. cbn.
      now repeat split. }
  destruct Hconn as [wc [Hconn [Hexc Haddc]]].
  destruct (follow_pages_serves rt key
              (process_page rt (uuid4 rt) (dry_run args))
              page_well_formed
              (progress rt cfg args seed me (boot fs coll))
              [(identity_request key, Ok r)]
              (first_request key (page_limit cfg) seed) new pages stop Hfeed)
    with (fuel := fuel)
         (url := JStr (urljoin OTX_BASE OTX_PULSES_SUBSCRIBED))
         (params := Some (first_params (page_limit cfg) seed))
         (has_query := false) (done := @nil json)
         (s := mkRunState seed 0 0) (w := wc)
    as [st [wl [Hloop [Hinv Hexl]]]];
    try assumption; try reflexivity.
  { intros done s w x Hinv. exact Hinv. }
  { intros done page s w Hpg Hinv.
    now apply progress_step. }
  { unfold progress. cbn [flat_map List.length page_lines track_all
                          fold_left latest_modified_seen page_no
                          docs_ingested].
    split; [reflexivity|]. split; [reflexivity|]. split; [reflexivity|].
    exact Haddc. }
  exists st, wl. split; [exact Hinv|]. split; [exact Hexl|].
  rewrite (run_unfolds fuel rt cfg args key Hkey Hne).
  unfold bind at 1. rewrite Hsf. rewrite <- Hseed. fold seed.
  unfold bind at 1. rewrite Hval.
  unfold bind at 1. unfold lift at 1. cbn [py_get].
  unfold bind at 1. unfold lift at 1.
  unfold bind at 1. unfold lift at 1.
  unfold bind at 1. unfold print at 1. unfold modify at 1.
  change (put_out _ w0) with wa.
  unfold bind at 1. rewrite Hconn.
  unfold bind at 1. unfold fetch_pulses. rewrite Hloop.
  destruct stop; reflexivity.
Qed.

(** ** The extractor: how a listing ends *)

(** X9. A listing ends at the first page whose "next" is absent, null or
    otherwise falsy: the extractor returns the pages served so far, having
    made one request per page, for any fuel above their number. *)
Theorem listing_ends_on_falsy_next rt key limit modified_since w new pages
    fuel :
  feed_serves rt key (exchanges w) (first_request key limit modified_since)
              new pages None ->
  (List.length pages < fuel)%nat ->
  exists w',
    fetch_all fuel rt key limit modified_since w = Some (Ok pages, w') /\
    exchanges w' = exchanges w ++ new /\
    List.length new = List.length pages /\
    flat_map page_of new = pages.
Proof.
  intros Hfeed Hfuel.
  destruct (follow_pages_serves rt key collect (fun _ => True)
              (fun done s _ => s = done) _ _ _ _ _ Hfeed)
    with (fuel := fuel)
         (url := JStr (urljoin OTX_BASE OTX_PULSES_SUBSCRIBED))
         (params := Some (first_params limit modified_since))
         (has_query := false) (done := @nil json) (s := @nil json) (w := w)
    as [s' [w' [Hrun [Hinv Hex]]]]; try reflexivity; try assumption.
  - auto.
  - intros done page s w0 _ ->. exists (done ++ [page]), w0. now repeat split.
  - clear. induction pages; constructor; auto.
  - destruct (feed_serves_pages _ _ _ _ _ _ _ Hfeed) as [Hpages Hlen].
    exists w'. cbn [app] in Hinv. subst s'.
    split; [exact Hrun|]. split; [exact Hex|].
    split; [lia|exact Hpages].
Qed.

Lemma null_next_sample :
  let new := Sample.trace_null JNull in
  exists w',
    feed_serves Sample.rt_null Demo.key (exchanges (boot Demo.no_files []))
                (first_request Demo.key 50 JNull) new
                [Demo.page1; Sample.page_last] None /\
    (List.length [Demo.page1; Sample.page_last] < 3)%nat /\
    fetch_all 3 Sample.rt_null Demo.key 50 JNull (boot Demo.no_files [])
      = Some (Ok [Demo.page1; Sample.page_last], w') /\
    exchanges w' = exchanges (boot Demo.no_files []) ++ new /\
    List.length new = 2%nat.
Proof.
  intros new.
  assert (Hfeed : feed_serves Sample.rt_null Demo.key
                    (exchanges (boot Demo.no_files []))
                    (first_request Demo.key 50 JNull)
                    new [Demo.page1; Sample.page_last] None).
  { eapply serves_next; try reflexivity; [discriminate|].
    eapply serves_last; reflexivity. }
  destruct (listing_ends_on_falsy_next Sample.rt_null Demo.key 50 JNull
              (boot Demo.no_files []) _ _ 3 Hfeed)
    as [w' [Hrun [Hex [Hlen _]]]]; [simpl; lia|].
  exists w'. split; [exact Hfeed|]. split; [simpl; lia|].
  split; [exact Hrun|]. split; [exact Hex|exact Hlen].
Defined.

(** X10. A listing breaks at the first request that is not answered with
    status 200 and a JSON body: the extractor raises (for a status other
    than 200, a [RuntimeError] whose message is "Fetch error: ", the
    status and at most 200 characters of the body) and makes no further
    request; the pages served before are not returned. *)
Theorem listing_breaks_on_error rt key limit modified_since w new pages e
    fuel :
  feed_serves rt key (exchanges w) (first_request key limit modified_since)
              new pages (Some e) ->
  (List.length pages < fuel)%nat ->
  exists w',
    fetch_all fuel rt key limit modified_since w = Some (Raise e, w') /\
    exchanges w' = exchanges w ++ new /\
    List.length new = S (List.length pages) /\
    flat_map page_of new = pages /\
    (forall req r, In (req, Ok r) new -> status_code r <> 200 ->
                   e = RuntimeError (fetch_error_message r) /\
                   PyStr.occurs_in (PyStr.of_Z (status_code r))
                                   (fetch_error_message r)).
Proof.
  intros Hfeed Hfuel.
  destruct (follow_pages_serves rt key collect (fun _ => True)
              (fun done s _ => s = done) _ _ _ _ _ Hfeed)
    with (fuel := fuel)
         (url := JStr (urljoin OTX_BASE OTX_PULSES_SUBSCRIBED))
         (params := Some (first_params limit modified_since))
         (has_query := false) (done := @nil json) (s := @nil json) (w := w)
    as [s' [w' [Hrun [Hinv Hex]]]]; try reflexivity; try assumption.
  - auto.
  - intros done page s w0 _ ->. exists (done ++ [page]), w0. now repeat split.
  - clear. induction pages; constructor; auto.
  - destruct (feed_serves_pages _ _ _ _ _ _ _ Hfeed) as [Hpages Hlen].
    exists w'. split; [exact Hrun|]. split; [exact Hex|].
    split; [lia|]. split; [exact Hpages|].
    clear - Hfeed. remember (Some e) as stop eqn:Hstop.
    induction Hfeed as [log req r d Hhttp Hst Hjs Hnext
                       |log req r d u new rest stop Hhttp Hst Hjs Hnext Hu
                            Hrest IH
                       |log req r Hhttp Hst
                       |log req e' Hhttp
                       |log req r e' Hhttp Hst Hjs];
      intros req0 r0 Hin Hstatus; try discriminate.
    + destruct Hin as [[= _ <-]|Hin]; [contradiction|].
      now apply (IH Hstop req0 r0).
    + destruct Hin as [[= _ <-]|[]].
      injection Hstop as <-. split; [reflexivity|].
      exists "Fetch error: ", (" " ++ PyStr.take 200 (text r))%string.
      reflexivity.
    + destruct Hin as [[=]|[]].
    + destruct Hin as [[= _ <-]|[]]. contradiction.
Qed.

Lemma broken_listing_sample :
  let new := Sample.trace_broken JNull in
  exists w',
    feed_serves Sample.rt_broken Demo.key (exchanges (boot Demo.no_files []))
                (first_request Demo.key 50 JNull) new [Demo.page1]
                (Some (RuntimeError "Fetch error: 500 upstream error")) /\
    (List.length [Demo.page1] < 2)%nat /\
    fetch_all 2 Sample.rt_broken Demo.key 50 JNull (boot Demo.no_files [])
      = Some (Raise (RuntimeError "Fetch error: 500 upstream error"), w') /\
    exchanges w' = exchanges (boot Demo.no_files []) ++ new /\
    List.length new = 2%nat.
Proof.
  intros new.
  assert (Hfeed : feed_serves Sample.rt_broken Demo.key
                    (exchanges (boot Demo.no_files []))
                    (first_request Demo.key 50 JNull)
                    new [Demo.page1]
                    (Some (RuntimeError "Fetch error: 500 upstream error"))).
  { eapply serves_next; try reflexivity; [discriminate|].
    apply (serves_status Sample.rt_broken Demo.key _ _ Sample.unavailable);
      [reflexivity|discriminate]. }
  destruct (listing_breaks_on_error Sample.rt_broken Demo.key 50 JNull
              (boot Demo.no_files []) _ _ _ 2 Hfeed)
    as [w' [Hrun [Hex [Hlen _]]]]; [simpl; lia|].
  exists w'. split; [exact Hfeed|]. split; [simpl; lia|].
  split; [exact Hrun|]. split; [exact Hex|exact Hlen].
Defined.

(** ** Whole runs over a feed *)

Lemma progress_at_boot rt cfg args seed me fs coll pages st w :
  progress rt cfg args seed me (boot fs coll) pages st w ->
  let recs := flat_map page_records pages in
  latest_modified_seen st = track_all rt recs seed /\
  docs_ingested st = Z.of_nat (List.length recs) /\
  clock_reads w = List.length recs /\
  naps w = List.length pages /\
  stdout w = greeting me :: page_lines 1 0 pages /\
  stderr w = [] /\
  files w = fs /\
  db_log w = store_calls rt cfg args pages /\
  collection w
  = fold_left (fun c op => apply_db op c) (store_calls rt cfg args pages) coll.
Proof.
  intros [Hl [_ [Hd [Hc [Hn [Ho [He [Hf [Hlog Hcoll]]]]]]]]] recs.
  cbn [boot clock_reads naps stdout stderr files db_log collection app
       Nat.add] in *.
  now repeat split.
Qed.

(** The world a run leaves when its listing ends. *)
Lemma completed_run_world fuel rt cfg args fs coll key r me new pages :
  run_serves rt cfg args fs key r me new pages None ->
  (List.length pages < fuel)%nat ->
  let recs := flat_map page_records pages in
  let wm := track_all rt recs (run_resume_point cfg args fs) in
  let path := watermark_file cfg in
  exists w1,
    main fuel rt cfg args (boot fs coll) = Some (0, w1) /\
    exchanges w1 = (identity_request key, Ok r) :: new /\
    clock_reads w1 = List.length recs /\
    naps w1 = List.length pages /\
    stdout w1
    = greeting me :: page_lines 1 0 pages
      ++ summary_line cfg args (Z.of_nat (List.length recs))
      :: (if truthy wm then [OutWatermarkSaved wm path] else []) /\
    stderr w1 = save_warnings rt path wm /\
    files w1 = saved_files rt path wm fs /\
    db_log w1 = store_calls rt cfg args pages /\
    collection w1
    = fold_left (fun c op => apply_db op c) (store_calls rt cfg args pages)
                coll.
Proof.
  intros Hserves Hfuel recs wm path.
  destruct (run_reaches fuel rt cfg args fs coll key r me new pages None
              Hserves Hfuel) as [st [w [Hprog [Hex Hrun]]]].
  apply progress_at_boot in Hprog. cbv zeta in Hprog.
  destruct Hprog as [Hl [Hd [Hc [Hn [Ho [He [Hf [Hlog Hcoll]]]]]]]].
  destruct (finish_completes rt cfg args st w)
    as [w1 [Hfin [E1 [E2 [E3 [E4 [E5 [E6 [E7 E8]]]]]]]]].
  fold recs in Hl, Hd, Hc. rewrite Hl, Hd in *. fold wm path in E6, E7, E8.
  exists w1. unfold main. rewrite Hrun, Hfin.
  split; [reflexivity|].
  rewrite E1, E2, E3, E4, E5, E6, E7, E8, Hex, Hc, Hn, Ho, He, Hf, Hlog,
          Hcoll.
  now repeat split.
Qed.

(** The world a run leaves when its listing breaks. *)
Lemma broken_run_world fuel rt cfg args fs coll key r me new pages e :
  run_serves rt cfg args fs key r me new pages (Some e) ->
  (List.length pages < fuel)%nat ->
  let recs := flat_map page_records pages in
  exists w1,
    main fuel rt cfg args (boot fs coll) = Some (1, w1) /\
    exchanges w1 = (identity_request key, Ok r) :: new /\
    clock_reads w1 = List.length recs /\
    naps w1 = List.length pages /\
    stdout w1 = greeting me :: page_lines 1 0 pages /\
    stderr w1 = [last_words e] /\
    files w1 = fs /\
    db_log w1 = store_calls rt cfg args pages /\
    collection w1
    = fold_left (fun c op => apply_db op c) (store_calls rt cfg args pages)
                coll.
Proof.
  intros Hserves Hfuel recs.
  destruct (run_reaches fuel rt cfg args fs coll key r me new pages (Some e)
              Hserves Hfuel) as [st [w [Hprog [Hex Hrun]]]].
  apply progress_at_boot in Hprog. cbv zeta in Hprog.
  destruct Hprog as [Hl [Hd [Hc [Hn [Ho [He [Hf [Hlog Hcoll]]]]]]]].
  exists (put_err (last_words e) w). unfold main. rewrite Hrun.
  split; [now destruct e|].
  cbn [put_err exchanges clock_reads naps stdout stderr files db_log
       collection].
  rewrite He. now repeat split.
Qed.

Lemma sample_run_serves_null args :
  run_serves Sample.rt_null Demo.config args Demo.no_files Demo.key
             Sample.identity_answer Sample.me
             (Sample.trace_null
                (run_resume_point Demo.config args Demo.no_files))
             [Demo.page1; Sample.page_last] None.
Proof.
  split; [reflexivity|]. split; [discriminate|].
  split; [reflexivity|]. split; [reflexivity|]. split; [reflexivity|].
  split; [|split].
  - eapply serves_next; try reflexivity; [discriminate|].
    eapply serves_last; reflexivity.
  - repeat constructor; eexists; eexists;
      (split; [reflexivity|split; [reflexivity|]]);
      repeat constructor; eexists; reflexivity.
  - reflexivity.
Qed.


(** X11. A run whose listing ends exits with status 0 having made the
    identity request and one request per page, read the clock once per
    record and slept once per page; it prints the greeting, one line per
    page (page number from 1, records of the page, running total, whether
    a next page is named), the summary with the number of all records,
    and the watermark line exactly when the tracked watermark is
    truthy. *)
Theorem completed_run_report fuel rt cfg args fs coll key r me new pages :
  run_serves rt cfg args fs key r me new pages None ->
  (List.length pages < fuel)%nat ->
  let recs := flat_map page_records pages in
  let wm := track_all rt recs (run_resume_point cfg args fs) in
  exists w1,
    main fuel rt cfg args (boot fs coll) = Some (0, w1) /\
    exchanges w1 = (identity_request key, Ok r) :: new /\
    List.length new = List.length pages /\
    clock_reads w1 = List.length recs /\
    naps w1 = List.length pages /\
    stdout w1
    = greeting me :: page_lines 1 0 pages
      ++ summary_line cfg args (Z.of_nat (List.length recs))
      :: (if truthy wm
          then [OutWatermarkSaved wm (watermark_file cfg)] else []).
Proof.
  intros Hserves Hfuel recs wm.
  destruct (completed_run_world fuel rt cfg args fs coll key r me new pages
              Hserves Hfuel)
    as [w1 [Hmain [Hex [Hc [Hn [Ho _]]]]]].
  exists w1. split; [exact Hmain|]. split; [exact Hex|].
  split; [|now repeat split].
  destruct Hserves as [_ [_ [_ [_ [_ [Hfeed _]]]]]].
  destruct (feed_serves_pages _ _ _ _ _ _ _ Hfeed) as [_ Hlen]. lia.
Qed.

Lemma completed_run_sample :
  exists w1,
    run_serves Sample.rt_null Demo.config Demo.args_plain Demo.no_files
               Demo.key Sample.identity_answer Sample.me
               (Sample.trace_null JNull) [Demo.page1; Sample.page_last]
               None /\
    main 3 Sample.rt_null Demo.config Demo.args_plain (boot Demo.no_files [])
      = Some (0, w1) /\
    clock_reads w1 = 3%nat /\
    naps w1 = 2%nat /\
    stdout w1
    = [OutAuthenticated (JStr "ann") (JInt 3) (JInt 9);
       OutPage 1 2 2 true; OutPage 2 1 3 false;
       OutDone 3 "threatintel" "otx_pulses_raw";
       OutWatermarkSaved (JStr "2025-02-01T00:00:00+00:00")
                         ".otx_watermark.json"].
Proof.
  destruct (completed_run_report 3 Sample.rt_null Demo.config Demo.args_plain
              Demo.no_files [] Demo.key Sample.identity_answer Sample.me
              (Sample.trace_null JNull) [Demo.page1; Sample.page_last]
              (sample_run_serves_null Demo.args_plain))
    as [w1 [Hmain [_ [_ [Hc [Hn Ho]]]]]]; [simpl; lia|].
  exists w1. split; [apply (sample_run_serves_null Demo.args_plain)|].
  split; [exact Hmain|]. split; [exact Hc|]. split; [exact Hn|exact Ho].
Defined.

Lemma fold_connect_ops cfg ops coll :
  fold_left (fun c op => apply_db op c) (connect_ops cfg ++ ops) coll
  = fold_left (fun c op => apply_db op c) ops coll.
Proof. now rewrite fold_left_app. Qed.

Lemma updates_of_records_length rt run_id page items :
  forall k,
    List.length (updates_of_records rt run_id page k items)
    = List.length items.
Proof.
  induction items as [|p items IH]; intros k; cbn; [reflexivity|].
  now rewrite IH.
Qed.

Lemma updates_of_pages_length rt run_id pages :
  forall page k,
    List.length (updates_of_pages rt run_id page k pages)
    = List.length (flat_map page_records pages).
Proof.
  induction pages as [|pg pages IH]; intros page k; cbn [updates_of_pages
    flat_map]; [reflexivity|].
  now rewrite !length_app, updates_of_records_length, IH.
Qed.

(** X12. After a storing run whose listing ends, the collection is the
    collection as the run found it with one upsert per record applied to
    it, in the order of the feed. *)
Theorem completed_run_store fuel rt cfg args fs coll key r me new pages :
  run_serves rt cfg args fs key r me new pages None ->
  dry_run args = false ->
  (List.length pages < fuel)%nat ->
  let updates := updates_of_pages rt (uuid4 rt) 1 0 pages in
  exists w1,
    main fuel rt cfg args (boot fs coll) = Some (0, w1) /\
    collection w1 = fold_left (fun c op => apply_db op c) updates coll /\
    List.length updates = List.length (flat_map page_records pages) /\
    db_log w1 = connect_ops cfg ++ updates.
Proof.
  intros Hserves Hdry Hfuel updates.
  destruct (completed_run_world fuel rt cfg args fs coll key r me new pages
              Hserves Hfuel)
    as [w1 [Hmain [_ [_ [_ [_ [_ [_ [Hlog Hcoll]]]]]]]]].
  unfold store_calls in Hlog, Hcoll. rewrite Hdry in Hlog, Hcoll.
  rewrite fold_connect_ops in Hcoll.
  exists w1. split; [exact Hmain|]. split; [exact Hcoll|].
  split; [apply updates_of_pages_length|exact Hlog].
Qed.

Lemma completed_store_sample :
  exists w1,
    run_serves Sample.rt_null Demo.config Demo.args_plain Demo.no_files
               Demo.key Sample.identity_answer Sample.me
               (Sample.trace_null JNull) [Demo.page1; Sample.page_last]
               None /\
    dry_run Demo.args_plain = false /\
    main 3 Sample.rt_null Demo.config Demo.args_plain (boot Demo.no_files [])
      = Some (0, w1) /\
    collection w1
    = fold_left (fun c op => apply_db op c)
        (updates_of_pages Sample.rt_null "run-1" 1 0
                          [Demo.page1; Sample.page_last]) [] /\
    List.length (collection w1) = 3%nat.
Proof.
  destruct (completed_run_store 3 Sample.rt_null Demo.config Demo.args_plain
              Demo.no_files [] Demo.key Sample.identity_answer Sample.me
              (Sample.trace_null JNull) [Demo.page1; Sample.page_last]
              (sample_run_serves_null Demo.args_plain) eq_refl)
    as [w1 [Hmain [Hcoll _]]]; [simpl; lia|].
  exists w1. split; [apply (sample_run_serves_null Demo.args_plain)|].
  split; [reflexivity|]. split; [exact Hmain|]. split; [exact Hcoll|].
  rewrite Hcoll. vm_compute. reflexivity.
Defined.



Lemma run_serves_dry rt cfg since_cli skip fs key r me new pages stop :
  run_serves rt cfg (mkArgs since_cli skip false) fs key r me new pages stop ->
  run_serves rt cfg (mkArgs since_cli skip true) fs key r me new pages stop.
Proof.
  intros [H1 [H2 [H3 [H4 [H5 [H6 [H7 _]]]]]]].
  repeat (split; [assumption|]). discriminate.
Qed.

Lemma page_lines_as_dry pages :
  forall page_no total,
    map as_dry (page_lines page_no total pages)
    = page_lines page_no total pages.
Proof.
  induction pages as [|pg pages IH]; intros page_no total; cbn;
    [reflexivity|]. now rewrite IH.
Qed.

(** X14. As long as the store accepts every call, a dry run is a
    faithful rehearsal: over the same feed, with the same other options,
    it exits with the same status as the storing run after the same
    requests, clock readings and naps, leaves the same files (the
    watermark is saved alike) and prints the same lines, but for the
    summary; it makes no store call.  (A store that refuses a call ends
    the storing run or adds a warning to it, where the dry run goes
    on.) *)
Theorem dry_run_rehearses fuel rt cfg since_cli skip fs coll key r me new
    pages stop :
  let storing := mkArgs since_cli skip false in
  let rehearsal := mkArgs since_cli skip true in
  (forall log op, db_fault rt log op = None) ->
  run_serves rt cfg storing fs key r me new pages stop ->
  (List.length pages < fuel)%nat ->
  exists code w_real w_dry,
    main fuel rt cfg storing (boot fs coll) = Some (code, w_real) /\
    main fuel rt cfg rehearsal (boot fs coll) = Some (code, w_dry) /\
    exchanges w_dry = exchanges w_real /\
    clock_reads w_dry = clock_reads w_real /\
    naps w_dry = naps w_real /\
    files w_dry = files w_real /\
    stderr w_dry = stderr w_real /\
    stdout w_dry = map as_dry (stdout w_real) /\
    db_log w_dry = [] /\
    collection w_dry = coll.
Proof.
  intros storing rehearsal _ Hserves Hfuel.
  pose proof (run_serves_dry _ _ _ _ _ _ _ _ _ _ _ Hserves) as Hdry.
  fold rehearsal in Hdry.
  destruct stop as [e|].
  - destruct (broken_run_world fuel rt cfg storing fs coll key r me new
                pages e Hserves Hfuel)
      as [w1 [Hm1 [A1 [A2 [A3 [A4 [A5 [A6 _]]]]]]]].
    destruct (broken_run_world fuel rt cfg rehearsal fs coll key r me new
                pages e Hdry Hfuel)
      as [w2 [Hm2 [B1 [B2 [B3 [B4 [B5 [B6 [B7 B8]]]]]]]]].
    exists 1, w1, w2. split; [exact Hm1|]. split; [exact Hm2|].
    rewrite A1, A2, A3, A4, A5, A6, B1, B2, B3, B4, B5, B6, B7, B8.
    cbn [map as_dry greeting]. rewrite page_lines_as_dry.
    now repeat split.
  - destruct (completed_run_world fuel rt cfg storing fs coll key r me new
                pages Hserves Hfuel)
      as [w1 [Hm1 [A1 [A2 [A3 [A4 [A5 [A6 _]]]]]]]].
    destruct (completed_run_world fuel rt cfg rehearsal fs coll key r me new
                pages Hdry Hfuel)
      as [w2 [Hm2 [B1 [B2 [B3 [B4 [B5 [B6 [B7 B8]]]]]]]]].
    exists 0, w1, w2. split; [exact Hm1|]. split; [exact Hm2|].
    rewrite A1, A2, A3, A4, A5, A6, B1, B2, B3, B4, B5, B6, B7, B8.
    cbn [map as_dry greeting]. rewrite map_app, page_lines_as_dry.
    cbn [map as_dry summary_line dry_run storing rehearsal].
    destruct (truthy _); now repeat split.
Qed.

Lemma rehearsal_sample :
  exists code w_real w_dry,
    (forall log op, db_fault Sample.rt_null log op = None) /\
    run_serves Sample.rt_null Demo.config Demo.args_plain Demo.no_files
               Demo.key Sample.identity_answer Sample.me
               (Sample.trace_null JNull) [Demo.page1; Sample.page_last]
               None /\
    main 3 Sample.rt_null Demo.config Demo.args_plain (boot Demo.no_files [])
      = Some (code, w_real) /\
    main 3 Sample.rt_null Demo.config Demo.args_dry (boot Demo.no_files [])
      = Some (code, w_dry) /\
    exchanges w_dry = exchanges w_real /\
    files w_dry = files w_real /\
    stdout w_dry = map as_dry (stdout w_real) /\
    db_log w_dry = [].
Proof.
  destruct (dry_run_rehearses 3 Sample.rt_null Demo.config None false
              Demo.no_files [] Demo.key Sample.identity_answer Sample.me
              (Sample.trace_null JNull) [Demo.page1; Sample.page_last] None
              (fun _ _ => eq_refl)
              (sample_run_serves_null Demo.args_plain))
    as [code [w1 [w2 [H1 [H2 [H3 [_ [_ [H4 [_ [H5 [H6 _]]]]]]]]]]]];
    [simpl; lia|].
  exists code, w1, w2. split; [reflexivity|].
  split; [apply (sample_run_serves_null Demo.args_plain)|].
  now repeat split.
Defined.

(** X15. The watermark line is no proof of saving: a run prints it
    whenever the tracked watermark is truthy, also when nothing was saved,
    and still exits with status 0.  With an empty watermark path no file
    is touched.  When the write fails, the failure shows only as the
    warning of [save_watermark] on standard error, and the watermark file
    is what the failed write left of it: as it was if it could not be
    opened, emptied or partial once it was; no other file changes. *)
Theorem saved_line_without_saving fuel rt cfg args fs coll key r me new
    pages :
  run_serves rt cfg args fs key r me new pages None ->
  (List.length pages < fuel)%nat ->
  let wm := track_all rt (flat_map page_records pages)
                      (run_resume_point cfg args fs) in
  let path := watermark_file cfg in
  truthy wm = true ->
  exists w1,
    main fuel rt cfg args (boot fs coll) = Some (0, w1) /\
    In (OutWatermarkSaved wm path) (stdout w1) /\
    (path = EmptyString -> files w1 = fs /\ stderr w1 = []) /\
    (forall cause,
        path <> EmptyString -> write_fault rt path = Some cause ->
        stderr w1 = [("[warn] could not persist watermark: "
                      ++ cause)%string] /\
        files w1 path = write_leaves rt path (fs path) /\
        (forall other, other <> path -> files w1 other = fs other)).
Proof.
  intros Hserves Hfuel wm path Hwm.
  destruct (completed_run_world fuel rt cfg args fs coll key r me new pages
              Hserves Hfuel)
    as [w1 [Hmain [_ [_ [_ [Ho [He [Hf _]]]]]]]].
  fold wm path in Ho, He, Hf. rewrite Hwm in Ho.
  exists w1. split; [exact Hmain|]. split; [|split].
  - rewrite Ho. right. apply in_or_app. right. right. now left.
  - intros Hpath. rewrite Hf, He. unfold saved_files, save_warnings.
    rewrite Hwm, Hpath. split; reflexivity.
  - intros cause Hpath Hfault. rewrite Hf, He.
    unfold saved_files, save_warnings. rewrite Hwm, Hfault. cbn [andb].
    destruct (String.eqb_spec path EmptyString) as [Hempty|_];
      [contradiction|]. cbn [negb].
    split; [reflexivity|]. split.
    + now rewrite String.eqb_refl.
    + intros other Hother.
      now destruct (String.eqb_spec other path).
Qed.

Lemma unsaved_watermark_sample :
  exists w1,
    run_serves Sample.rt_disk_full Demo.config Demo.args_plain
               (fun _ => Content (JDict [("modified_since",
                                          JStr "2025-01-01T00:00:00+00:00")]))
               Demo.key Sample.identity_answer Sample.me
               (Sample.trace_null (JStr "2025-01-01T00:00:00+00:00"))
               [Demo.page1; Sample.page_last] None /\
    main 3 Sample.rt_disk_full Demo.config Demo.args_plain
         (boot (fun _ => Content (JDict [("modified_since",
                                          JStr "2025-01-01T00:00:00+00:00")]))
               []) = Some (0, w1) /\
    In (OutWatermarkSaved (JStr "2025-02-01T00:00:00+00:00")
                          ".otx_watermark.json") (stdout w1) /\
    stderr w1
    = ["[warn] could not persist watermark: No space left on device"] /\
    files w1 ".otx_watermark.json" = Corrupt.
Proof.
  set (fs := fun _ : string =>
               Content (JDict [("modified_since",
                                JStr "2025-01-01T00:00:00+00:00")])).
  assert (Hserves : run_serves Sample.rt_disk_full Demo.config
                      Demo.args_plain fs Demo.key Sample.identity_answer
                      Sample.me
                      (Sample.trace_null (JStr "2025-01-01T00:00:00+00:00"))
                      [Demo.page1; Sample.page_last] None).
  { split; [reflexivity|]. split; [discriminate|].
    split; [reflexivity|]. split; [reflexivity|]. split; [reflexivity|].
    split; [|split].
    - eapply serves_next; try reflexivity; [discriminate|].
      eapply serves_last; reflexivity.
    - repeat constructor; eexists; eexists;
        (split; [reflexivity|split; [reflexivity|]]);
        repeat constructor; eexists; reflexivity.
    - reflexivity. }
  destruct (saved_line_without_saving 3 Sample.rt_disk_full Demo.config
              Demo.args_plain fs [] Demo.key Sample.identity_answer Sample.me
              (Sample.trace_null (JStr "2025-01-01T00:00:00+00:00"))
              [Demo.page1; Sample.page_last] Hserves)
    as [w1 [Hmain [Hin [_ Hfault]]]]; [simpl; lia|reflexivity|].
  destruct (Hfault "No space left on device") as [Herr [Hfile _]];
    [discriminate|reflexivity|].
  exists w1. split; [exact Hserves|]. split; [exact Hmain|].
  split; [exact Hin|]. split; [exact Herr|exact Hfile].
Defined.



(** ** What a run never does *)

Lemma fails_clean_bind {A B} (m : M A) (k : A -> M B) :
  keeps same_files m -> (forall a, fails_clean (k a)) ->
  fails_clean (bind m k).
Proof.
  intros Hm Hk w e w' H. apply bind_inv in H.
  destruct H as [[a [w1 [H1 H2]]]|[e' [H1 _]]].
  - rewrite (Hk a _ _ _ H2). exact (Hm _ _ _ H1).
  - exact (Hm _ _ _ H1).
Qed.

Lemma finish_fails_clean rt cfg args st : fails_clean (finish rt cfg args st).
Proof.
  intros w e w' H.
  destruct (finish_completes rt cfg args st w) as [w1 [Hfin _]].
  rewrite Hfin in H. discriminate.
Qed.

Lemma same_files_refl w : same_files w w.
Proof. reflexivity. Qed.

Lemma run_fails_clean fuel rt cfg args : fails_clean (run fuel rt cfg args).
Proof.
  destruct (api_key cfg) as [key|] eqn:Hkey.
  2: { intros w e w'. unfold run. rewrite Hkey. now intros [= _ <-]. }
  destruct (String.eqb_spec key EmptyString) as [->|Hne].
  { intros w e w'. unfold run. rewrite Hkey. now intros [= _ <-]. }
  rewrite (run_unfolds fuel rt cfg args key Hkey Hne).
  apply fails_clean_bind.
  { apply keeps_since_file. apply same_files_refl. }
  intros persisted. apply fails_clean_bind.
  { apply keeps_validate_api_key;
      [apply same_files_refl|apply same_files_trans
      |apply session_get_same_files]. }
  intros me. apply fails_clean_bind.
  { apply keeps_lift. apply same_files_refl. }
  intros username. apply fails_clean_bind.
  { apply keeps_lift. apply same_files_refl. }
  intros pulses. apply fails_clean_bind.
  { apply keeps_lift. apply same_files_refl. }
  intros indicators. apply fails_clean_bind.
  { apply keeps_print. reflexivity. }
  intros _. apply fails_clean_bind.
  { destruct (dry_run args).
    - apply keeps_ret. apply same_files_refl.
    - apply keeps_connect_mongo; try reflexivity;
        [apply same_files_trans|apply db_call_same_files]. }
  intros _. apply fails_clean_bind.
  { unfold fetch_pulses. apply follow_pages_same_files.
    intros page s. apply process_page_same_files. }
  intros st. apply finish_fails_clean.
Qed.

Lemma save_watermark_touches rt path ts w w' :
  save_watermark rt path ts w = Some (Ok tt, w') ->
  stdout w' = stdout w /\
  (forall other, other <> path -> files w' other = files w other) /\
  (path = EmptyString -> files w' = files w).
Proof.
  unfold save_watermark.
  destruct (String.eqb_spec path EmptyString) as [->|Hpath].
  - intros [= <-]. now repeat split.
  - unfold try_except.
    destruct (write_fault rt path) as [cause|]; cbn; intros [= <-]; cbn;
      (split; [reflexivity|]); (split; [|contradiction]);
      intros other Hother; now destruct (String.eqb_spec other path).
Qed.

(** X16. The only file a process ever writes is the watermark file, and
    it writes that file last: whatever the exit status, every other file
    is as the process found it, and when the watermark file has changed
    the run had gone through all its pages (the summary line is on
    standard output), with a truthy tracked watermark and a non-empty
    watermark path.  So a run that fails before its summary leaves the
    old watermark in place, and the next run fetches again from it. *)
Theorem watermark_file_written_last fuel rt cfg args fs coll code w1 :
  main fuel rt cfg args (boot fs coll) = Some (code, w1) ->
  let path := watermark_file cfg in
  (forall other, other <> path -> files w1 other = fs other) /\
  (files w1 path <> fs path ->
   path <> EmptyString /\
   In (summary_line cfg args (Z.of_nat (List.length (records_seen w1))))
      (stdout w1) /\
   truthy (track_all rt (records_seen w1) (run_resume_point cfg args fs))
   = true).
Proof.
  intros Hmain path. unfold main in Hmain.
  destruct (run fuel rt cfg args (boot fs coll)) as [[[[]|e] w']|] eqn:Hrun;
    try discriminate.
  - injection Hmain as _ <-.
    destruct (run_ok _ _ _ _ _ _ _ Hrun) as [ws [Hfs [_ [Hsum Hend]]]].
    destruct (truthy _) eqn:Hwm.
    + destruct Hend as [wsaved [Hsave Hw1]].
      destruct (save_watermark_touches _ _ _ _ _ Hsave)
        as [Hout [Hother Hempty]].
      fold path in Hother, Hempty.
      pose proof (f_equal files Hw1) as Hfiles.
      pose proof (f_equal stdout Hw1) as Hlines.
      cbn [files stdout put_out] in Hfiles, Hlines.
      split.
      * intros other Ho. rewrite Hfiles, (Hother other Ho). now rewrite Hfs.
      * intros Hchanged. split; [|split].
        -- intros Hp. apply Hchanged.
           rewrite Hfiles, (Hempty Hp). now rewrite Hfs.
        -- rewrite Hlines. apply in_or_app. left. rewrite Hout. exact Hsum.
        -- reflexivity.
    + subst w'. split; [intros; now rewrite Hfs|].
      intros Hchanged. exfalso. apply Hchanged. now rewrite Hfs.
  - apply run_fails_clean in Hrun. cbn [files boot] in Hrun.
    assert (Hf : files w1 = fs).
    { destruct e; injection Hmain as _ <-; exact Hrun. }
    split; [intros; now rewrite Hf|].
    intros Hchanged. exfalso. apply Hchanged. now rewrite Hf.
Qed.

Lemma watermark_written_sample :
  exists w1,
    main 3 Sample.rt_null Demo.config Demo.args_plain (boot Demo.no_files [])
      = Some (0, w1) /\
    (forall other, other <> ".otx_watermark.json" ->
                   files w1 other = Demo.no_files other) /\
    files w1 ".otx_watermark.json" <> Demo.no_files ".otx_watermark.json" /\
    In (OutDone 3 "threatintel" "otx_pulses_raw") (stdout w1).
Proof.
  destruct (main 3 Sample.rt_null Demo.config Demo.args_plain
                 (boot Demo.no_files [])) as [[code w1]|] eqn:Hrun;
    [|vm_compute in Hrun; discriminate].
  destruct (watermark_file_written_last 3 Sample.rt_null Demo.config
              Demo.args_plain Demo.no_files [] code w1 Hrun)
    as [Hother Hlast].
  assert (Hcode : code = 0) by (vm_compute in Hrun; congruence).
  assert (Hrecs : Z.of_nat (List.length (records_seen w1)) = 3)
    by (vm_compute in Hrun; injection Hrun as _ <-; reflexivity).
  assert (Hfile : files w1 ".otx_watermark.json"
                  <> Demo.no_files ".otx_watermark.json")
    by (vm_compute in Hrun; injection Hrun as _ <-; discriminate).
  subst code. exists w1. split; [reflexivity|]. split; [exact Hother|].
  split; [exact Hfile|].
  destruct (Hlast Hfile) as [_ [Hsum _]].
  rewrite Hrecs in Hsum. exact Hsum.
Defined.

Lemma asks_refl key w : asks_with_key key w w.
Proof. exists []. rewrite app_nil_r. split; [reflexivity|constructor]. Qed.

Lemma asks_same key w w' :
  exchanges w' = exchanges w -> asks_with_key key w w'.
Proof.
  intros H. exists []. rewrite app_nil_r. split; [exact H|constructor].
Qed.

Lemma asks_trans key a b c :
  asks_with_key key a b -> asks_with_key key b c -> asks_with_key key a c.
Proof.
  intros [n1 [H1 F1]] [n2 [H2 F2]]. exists (n1 ++ n2).
  split; [now rewrite H2, H1, app_assoc|now apply Forall_app].
Qed.

Lemma session_get_asks rt key url params :
  keeps (asks_with_key key)
        (session_get rt (mkRequest url (api_headers key) params)).
Proof.
  intros w r w' [= _ <-]. eexists. split; [reflexivity|].
  repeat constructor.
Qed.

Ltac asks_side :=
  solve [ apply asks_refl | apply asks_trans
        | intros; apply asks_same; reflexivity ].

Lemma follow_pages_asks {S} fuel rt key (body : json -> S -> M S) :
  (forall page s, keeps same_exchanges (body page s)) ->
  forall url params s,
    keeps (asks_with_key key) (follow_pages fuel rt key url params body s).
Proof.
  intros Hbody. induction fuel as [|fuel IH]; cbn [follow_pages];
    intros url params s.
  - intros w r w'. discriminate.
  - destruct (truthy url); [|apply keeps_ret; asks_side].
    apply keeps_bind; try asks_side; [apply keeps_lift; asks_side|].
    intros has_query.
    apply keeps_bind; try asks_side; [apply session_get_asks|].
    intros r. destruct (negb _); [apply keeps_raise; asks_side|].
    apply keeps_bind; try asks_side; [apply keeps_lift; asks_side|].
    intros data. apply keeps_bind; try asks_side.
    + intros w r0 w' H. apply asks_same. exact (Hbody _ _ _ _ _ H).
    + intros s'. apply keeps_bind; try asks_side;
        [apply keeps_lift; asks_side|].
      intros next. apply IH.
Qed.

(** The run after its identity check. *)
Lemma run_body_asks fuel rt cfg args key modified_since me :
  keeps (asks_with_key key)
        (username <- lift (py_get me "username" JNull) ;;
         pulses <- lift (py_get me "pulse_count" JNull) ;;
         indicators <- lift (py_get me "indicator_count" JNull) ;;
         print (OutAuthenticated username pulses indicators) ;;
         (if dry_run args then ret tt
          else connect_mongo rt (mongo_uri cfg) (mongo_db cfg)
                             (mongo_collection cfg)) ;;
         st <- fetch_pulses fuel rt key (page_limit cfg) modified_since
                 (process_page rt (uuid4 rt) (dry_run args))
                 (mkRunState modified_since 0 0) ;;
         finish rt cfg args st).
Proof.
  apply keeps_bind; try asks_side; [apply keeps_lift; asks_side|].
  intros username. apply keeps_bind; try asks_side;
    [apply keeps_lift; asks_side|].
  intros pulses. apply keeps_bind; try asks_side;
    [apply keeps_lift; asks_side|].
  intros indicators. apply keeps_bind; try asks_side;
    [apply keeps_print; asks_side|].
  intros _. apply keeps_bind; try asks_side.
  { destruct (dry_run args); [apply keeps_ret; asks_side|].
    intros w r w' H. apply asks_same.
    destruct (connect_quiet rt false (mongo_uri cfg) (mongo_db cfg)
                (mongo_collection cfg) _ _ _ H) as [He _]. exact He. }
  intros _. apply keeps_bind; try asks_side.
  { unfold fetch_pulses. apply follow_pages_asks.
    intros page s. apply process_page_same_exchanges. }
  intros st w r w' H. apply asks_same.
  destruct (finish_completes rt cfg args st w) as [w1 [Hfin [He _]]].
  rewrite Hfin in H. now injection H as _ <-.
Qed.

Lemma validate_api_key_logs rt key w r w' :
  validate_api_key rt key w = Some (r, w') ->
  exists answer, exchanges w' = exchanges w ++ [(identity_request key, answer)].
Proof.
  unfold validate_api_key. intros H. apply bind_inv in H.
  destruct H as [[resp [w2 [Hget H]]]|[e [Hget _]]];
    unfold session_get in Hget; injection Hget as _ <-.
  - destruct (negb _); [injection H as _ <-|
                        apply lift_inv in H; destruct H as [_ ->]];
      now eexists.
  - now eexists.
Qed.

Lemma run_asks fuel rt cfg args key :
  api_key cfg = Some key ->
  keeps (asks_with_key key) (run fuel rt cfg args).
Proof.
  intros Hkey.
  destruct (String.eqb_spec key EmptyString) as [->|Hne].
  { unfold run. rewrite Hkey. apply keeps_raise. asks_side. }
  rewrite (run_unfolds fuel rt cfg args key Hkey Hne).
  apply keeps_bind; try asks_side.
  { apply keeps_since_file. asks_side. }
  intros persisted. apply keeps_bind; try asks_side.
  { unfold validate_api_key. apply keeps_bind; try asks_side.
    - apply session_get_asks.
    - intros r. destruct (negb _);
        [apply keeps_raise|apply keeps_lift]; asks_side. }
  intros me. apply run_body_asks.
Qed.

Lemma main_of_run fuel rt cfg args w code w1 :
  main fuel rt cfg args w = Some (code, w1) ->
  exists r w', run fuel rt cfg args w = Some (r, w') /\
               exchanges w1 = exchanges w'.
Proof.
  unfold main. intros Hmain.
  destruct (run fuel rt cfg args w) as [[[[]|e] w']|]; try discriminate.
  - injection Hmain as _ <-. now eexists; eexists.
  - destruct e; injection Hmain as _ <-; now eexists; eexists.
Qed.

(** With a key, a run starts with the identity check. *)
Lemma run_starts_with_identity fuel rt cfg args fs coll key r w' :
  api_key cfg = Some key ->
  key <> EmptyString ->
  run fuel rt cfg args (boot fs coll) = Some (r, w') ->
  exists answer rest,
    exchanges w' = (identity_request key, answer) :: rest.
Proof.
  intros Hkey Hne Hrun.
  rewrite (run_unfolds fuel rt cfg args key Hkey Hne) in Hrun.
  destruct (since_file_boot cfg args fs coll) as [persisted [Hsf _]].
  unfold bind at 1 in Hrun. rewrite Hsf in Hrun.
  apply bind_inv in Hrun.
  destruct Hrun as [[me [wa [Hval H]]]|[e [Hval _]]];
    apply validate_api_key_logs in Hval; destruct Hval as [answer Hwa];
    cbn [boot exchanges app] in Hwa.
  - apply run_body_asks in H. destruct H as [new [Hnew _]].
    exists answer, new. now rewrite Hnew, Hwa.
  - exists answer, []. exact Hwa.
Qed.

(** X17. Every request of a process carries the configured API key in
    the header "X-OTX-API-KEY", whatever URL it goes to (the "next" URLs
    are taken from the answers as they are); and the first request of a
    process is the identity check. *)
Theorem every_request_carries_key fuel rt cfg args fs coll key code w1 :
  api_key cfg = Some key ->
  main fuel rt cfg args (boot fs coll) = Some (code, w1) ->
  Forall (fun x => req_headers (fst x) = [("X-OTX-API-KEY", key)])
         (exchanges w1) /\
  (forall x, hd_error (exchanges w1) = Some x ->
             fst x = mkRequest (JStr "https://otx.alienvault.com/api/v1/users/me")
                               [("X-OTX-API-KEY", key)] None).
Proof.
  intros Hkey Hmain.
  destruct (main_of_run _ _ _ _ _ _ _ Hmain) as [r [w' [Hrun ->]]]. split.
  - destruct (run_asks fuel rt cfg args key Hkey _ _ _ Hrun)
      as [new [Hnew Hall]]. now rewrite Hnew.
  - destruct (String.eqb_spec key EmptyString) as [->|Hne].
    { unfold run in Hrun. rewrite Hkey in Hrun. injection Hrun as _ <-.
      intros x. discriminate. }
    destruct (run_starts_with_identity _ _ _ _ _ _ _ _ _ Hkey Hne Hrun)
      as [answer [rest ->]].
    now intros x [= <-].
Qed.

Lemma every_request_sample :
  exists code w1,
    api_key Demo.config = Some Demo.key /\
    main 3 Sample.rt_null Demo.config Demo.args_plain (boot Demo.no_files [])
      = Some (code, w1) /\
    Forall (fun x => req_headers (fst x) = [("X-OTX-API-KEY", Demo.key)])
           (exchanges w1) /\
    List.length (exchanges w1) = 3%nat.
Proof.
  destruct (main 3 Sample.rt_null Demo.config Demo.args_plain
                 (boot Demo.no_files [])) as [[code w1]|] eqn:Hrun;
    [|vm_compute in Hrun; discriminate].
  exists code, w1. split; [reflexivity|]. split; [reflexivity|].
  split.
  - exact (proj1 (every_request_carries_key 3 Sample.rt_null Demo.config
                    Demo.args_plain Demo.no_files [] Demo.key code w1
                    eq_refl Hrun)).
  - vm_compute in Hrun. injection Hrun as _ <-. reflexivity.
Defined.

(** ** The store only gains *)

Lemma loses_nothing_refl coll : loses_nothing coll coll.
Proof. intros i d H. now exists d. Qed.

Lemma loses_nothing_trans a b c :
  loses_nothing a b -> loses_nothing b c -> loses_nothing a c.
Proof.
  intros Hab Hbc i d H. destruct (Hab i d H) as [d1 [H1 K1]].
  destruct (Hbc i d1 H1) as [d2 [H2 K2]]. exists d2. split; [exact H2|].
  intros k Hk. now apply K2, K1.
Qed.

Lemma keys_set_keeps d k v k' :
  In k' (Dict.keys d) -> In k' (Dict.keys (Dict.set d k v)).
Proof.
  intros H. rewrite DictFacts.keys_set.
  destruct (in_dec string_dec k (Dict.keys d)); [exact H|].
  apply in_or_app. now left.
Qed.

Lemma keys_apply_set set_doc :
  forall stored k,
    In k (Dict.keys stored) -> In k (Dict.keys (apply_set stored set_doc)).
Proof.
  unfold apply_set.
  induction set_doc as [|[k0 v0] set_doc IH]; intros stored k H;
    cbn [fold_left fst snd]; [exact H|].
  apply IH. now apply keys_set_keeps.
Qed.

Lemma update_first_loses_nothing filter set_doc coll :
  forall coll',
    update_first filter set_doc coll = Some coll' ->
    loses_nothing coll coll'.
Proof.
  induction coll as [|x r IH]; intros coll'; cbn [update_first];
    [discriminate|].
  destruct (doc_matches filter x).
  - intros [= <-] [|i] d H; cbn [nth_error] in *.
    + injection H as <-. eexists. split; [reflexivity|].
      intros k. apply keys_apply_set.
    + now exists d.
  - destruct (update_first filter set_doc r) as [r'|]; [|discriminate].
    intros [= <-] [|i] d H; cbn [nth_error] in *.
    + now exists d.
    + now apply (IH r' eq_refl).
Qed.

Lemma update_one_upsert_loses_nothing filter set_doc coll :
  loses_nothing coll (update_one_upsert filter set_doc coll).
Proof.
  unfold update_one_upsert.
  destruct (update_first filter set_doc coll) as [coll'|] eqn:E.
  - now apply (update_first_loses_nothing filter set_doc).
  - intros i d H. exists d. split; [|auto].
    rewrite nth_error_app1; [exact H|].
    apply nth_error_Some. congruence.
Qed.

Lemma db_call_store_keeps rt op : keeps store_keeps (db_call rt op).
Proof.
  intros w r w'. unfold db_call, store_keeps.
  destruct (db_fault rt (db_log w) op); intros [= _ <-]; cbn.
  - apply loses_nothing_refl.
  - destruct op as [| |filter [| | | | | |set_doc]]; cbn;
      try apply loses_nothing_refl.
    apply update_one_upsert_loses_nothing.
Qed.

(** X18. A process never removes a document from the collection, nor a
    field from a document: whatever its outcome, every document is still
    there afterwards, at its place, with at least the fields it had. *)
Theorem run_loses_nothing fuel rt cfg args w code w1 :
  main fuel rt cfg args w = Some (code, w1) ->
  (List.length (collection w) <= List.length (collection w1))%nat /\
  forall i d,
    nth_error (collection w) i = Some d ->
    exists d', nth_error (collection w1) i = Some d' /\
               forall k, In k (Dict.keys d) -> In k (Dict.keys d').
Proof.
  intros Hmain.
  assert (H : store_keeps w w1).
  { revert Hmain. apply keeps_main; unfold store_keeps; cbn;
      try (intros; apply loses_nothing_refl).
    - intros a b c. apply loses_nothing_trans.
    - intros req w0 r w2 [= _ <-]. apply loses_nothing_refl.
    - intros _ op. apply db_call_store_keeps. }
  split; [|exact H].
  destruct (collection w) as [|d0 l] eqn:E; [simpl; lia|].
  rewrite <- E in *.
  assert (Hlast : nth_error (collection w) (List.length (collection w) - 1)
                  <> None).
  { apply nth_error_Some. rewrite E. simpl. lia. }
  destruct (nth_error (collection w) (List.length (collection w) - 1))
    as [d|] eqn:Hd; [|contradiction].
  destruct (H _ _ Hd) as [d' [Hd' _]].
  assert (Hsome : nth_error (collection w1) (List.length (collection w) - 1)
                  <> None) by congruence.
  apply nth_error_Some in Hsome. rewrite E in *. simpl in *. lia.
Qed.

Lemma run_loses_nothing_sample :
  exists code w1,
    main 3 Sample.rt_null Demo.config Demo.args_plain
         (boot Demo.no_files [Sample.me]) = Some (code, w1) /\
    (List.length (collection (boot Demo.no_files [Sample.me]))
     <= List.length (collection w1))%nat /\
    nth_error (collection w1) 0 = Some Sample.me.
Proof.
  destruct (main 3 Sample.rt_null Demo.config Demo.args_plain
                 (boot Demo.no_files [Sample.me])) as [[code w1]|] eqn:Hrun;
    [|vm_compute in Hrun; discriminate].
  exists code, w1. split; [reflexivity|]. split.
  - exact (proj1 (run_loses_nothing 3 Sample.rt_null Demo.config
                    Demo.args_plain (boot Demo.no_files [Sample.me])
                    code w1 Hrun)).
  - vm_compute in Hrun. injection Hrun as _ <-. reflexivity.
Defined.

(** ** Loader: upserts and index creation *)

Lemma set_same d k v : Dict.lookup d k = Some v -> Dict.set d k v = d.
Proof.
  induction d as [|[k' v'] d IH]; cbn [Dict.lookup Dict.set];
    [discriminate|].
  destruct (String.eqb_spec k' k) as [->|_].
  - now intros [= ->].
  - intros H. now rewrite IH.
Qed.

Lemma lookup_In_wf d k v : Dict.wf d -> In (k, v) d -> Dict.lookup d k = Some v.
Proof.
  unfold Dict.wf, Dict.keys.
  induction d as [|[k' v'] d IH]; cbn [map fst Dict.lookup In];
    [contradiction|].
  intros Hwf [[= -> ->]|Hin].
  - now rewrite String.eqb_refl.
  - inversion Hwf as [|? ? Hnotin Hwf']. subst.
    destruct (String.eqb_spec k' k) as [->|_]; [|now apply IH].
    exfalso. apply Hnotin. apply in_map_iff. now exists (k, v).
Qed.

Lemma apply_set_fixed set_doc :
  forall stored,
    (forall k v, In (k, v) set_doc -> Dict.lookup stored k = Some v) ->
    apply_set stored set_doc = stored.
Proof.
  unfold apply_set.
  induction set_doc as [|[k v] set_doc IH]; intros stored H;
    cbn [fold_left fst snd]; [reflexivity|].
  rewrite (set_same stored k v) by (apply H; now left).
  apply IH. intros k' v' Hin. apply H. now right.
Qed.

(** Setting the same fields again changes nothing. *)
Lemma apply_set_idempotent stored set_doc :
  Dict.wf set_doc ->
  apply_set (apply_set stored set_doc) set_doc = apply_set stored set_doc.
Proof.
  intros Hwf. apply apply_set_fixed. intros k v Hin.
  apply apply_set_fields; [exact Hwf|]. now apply lookup_In_wf.
Qed.

Lemma id_key_still_matches d x :
  Dict.wf d -> Dict.get d "id" <> JNull ->
  doc_matches (id_key d) x = true ->
  doc_matches (id_key d) (apply_set x d) = true.
Proof.
  intros Hwf Hid Hm. apply id_key_matches_after_set; try assumption.
  unfold doc_matches, id_key in Hm. cbn [forallb fst snd] in Hm.
  rewrite andb_true_r in Hm. now apply andb_prop in Hm.
Qed.

Lemma id_key_matches_inserted d :
  Dict.wf d -> Dict.get d "id" <> JNull ->
  doc_matches (id_key d) (apply_set (id_key d) d) = true.
Proof.
  intros Hwf Hid. apply id_key_matches_after_set; try assumption.
  unfold field_matches, id_key. cbn. apply json_eqb_refl.
Qed.

Lemma update_first_again d coll :
  Dict.wf d -> Dict.get d "id" <> JNull ->
  forall coll',
    update_first (id_key d) d coll = Some coll' ->
    update_first (id_key d) d coll' = Some coll'.
Proof.
  intros Hwf Hid. induction coll as [|x r IH]; intros coll';
    cbn [update_first]; [discriminate|].
  destruct (doc_matches (id_key d) x) eqn:Hm.
  - intros [= <-]. cbn [update_first].
    rewrite (id_key_still_matches d x Hwf Hid Hm).
    now rewrite apply_set_idempotent.
  - destruct (update_first (id_key d) d r) as [r'|]; [|discriminate].
    intros [= <-]. cbn [update_first]. rewrite Hm.
    now rewrite (IH r' eq_refl).
Qed.

Lemma update_first_inserted d coll :
  Dict.wf d -> Dict.get d "id" <> JNull ->
  update_first (id_key d) d coll = None ->
  update_first (id_key d) d (coll ++ [apply_set (id_key d) d])
  = Some (coll ++ [apply_set (id_key d) d]).
Proof.
  intros Hwf Hid. induction coll as [|x r IH]; cbn [update_first app].
  - intros _. rewrite (id_key_matches_inserted d Hwf Hid).
    now rewrite apply_set_idempotent.
  - destruct (doc_matches (id_key d) x); [discriminate|].
    destruct (update_first (id_key d) d r); [discriminate|].
    intros _. now rewrite IH.
Qed.

Lemma upsert_idempotent d coll :
  Dict.wf d -> Dict.get d "id" <> JNull ->
  update_one_upsert (id_key d) d (update_one_upsert (id_key d) d coll)
  = update_one_upsert (id_key d) d coll.
Proof.
  intros Hwf Hid. unfold update_one_upsert at 2 3.
  destruct (update_first (id_key d) d coll) as [coll'|] eqn:E.
  - unfold update_one_upsert.
    now rewrite (update_first_again d coll Hwf Hid coll' E).
  - unfold update_one_upsert.
    now rewrite (update_first_inserted d coll Hwf Hid E).
Qed.

(** X19. Upserting a document that has an "id" twice is upserting it
    once: the second [upsert_pulse] finds the document the first one
    stored or updated, and leaves the collection as it is. *)
Theorem upsert_pulse_idempotent rt d w :
  Dict.wf d ->
  Dict.get d "id" <> JNull ->
  (forall log op, db_fault rt log op = None) ->
  exists w1 w2,
    upsert_pulse rt (JDict d) w = Some (Ok tt, w1) /\
    upsert_pulse rt (JDict d) w1 = Some (Ok tt, w2) /\
    collection w2 = collection w1 /\
    (List.length (collection w) <= List.length (collection w1)
     <= S (List.length (collection w)))%nat.
Proof.
  intros Hwf Hid Hdb.
  assert (Hup : forall w0,
             upsert_pulse rt (JDict d) w0
             = Some (Ok tt,
                     set_collection
                       (update_one_upsert (id_key d) d (collection w0))
                       (log_db (DbUpdateOne (id_key d) (JDict d)) w0))).
  { intros w0. unfold upsert_pulse. unfold bind, lift.
    rewrite (natural_key_with_id rt d Hid).
    now rewrite (db_call_ok _ _ _ Hdb). }
  eexists. eexists. split; [apply Hup|]. split; [apply Hup|].
  cbn [collection set_collection log_db]. split.
  - now apply upsert_idempotent.
  - unfold update_one_upsert.
    destruct (update_first (id_key d) d (collection w)) as [c|] eqn:E.
    + apply update_first_length in E. lia.
    + rewrite length_app. simpl. lia.
Qed.

Lemma upsert_twice_sample :
  let d := [("id", JStr "p1"); ("revision", JInt 1);
            ("name", JStr "first")] in
  Dict.wf d /\ Dict.get d "id" <> JNull /\
  exists w1 w2,
    upsert_pulse Sample.rt_null (JDict d) (boot Demo.no_files [])
      = Some (Ok tt, w1) /\
    upsert_pulse Sample.rt_null (JDict d) w1 = Some (Ok tt, w2) /\
    collection w2 = collection w1 /\
    (List.length (collection (boot Demo.no_files []))
     <= List.length (collection w1)
     <= S (List.length (collection (boot Demo.no_files []))))%nat.
Proof.
  intros d.
  assert (Hwf : Dict.wf d).
  { repeat constructor; simpl; intuition discriminate. }
  assert (Hid : Dict.get d "id" <> JNull) by discriminate.
  split; [exact Hwf|]. split; [exact Hid|].
  exact (upsert_pulse_idempotent Sample.rt_null d (boot Demo.no_files [])
           Hwf Hid (fun _ _ => eq_refl)).
Defined.

(** X20. Once the client is made, [connect_mongo] does not fail: when an
    index cannot be created it prints one warning to standard error with
    the cause and returns; after a failure on "id" the index on
    "ingested_at" is not attempted.  Documents and files are not
    touched. *)
Theorem index_failure_is_not_fatal rt uri db coll w :
  db_fault rt (db_log w) (DbConnect uri db coll) = None ->
  let log1 := db_log w ++ [DbConnect uri db coll] in
  let warning cause := ("[warn] index creation failed: " ++ cause)%string in
  exists w',
    connect_mongo rt uri db coll w = Some (Ok tt, w') /\
    exchanges w' = exchanges w /\ files w' = files w /\
    collection w' = collection w /\ stdout w' = stdout w /\
    match db_fault rt log1 (DbCreateIndex "id") with
    | Some cause =>
        db_log w' = log1 ++ [DbCreateIndex "id"] /\
        stderr w' = stderr w ++ [warning cause]
    | None =>
        db_log w' = log1 ++ [DbCreateIndex "id"; DbCreateIndex "ingested_at"]
        /\ match db_fault rt (log1 ++ [DbCreateIndex "id"])
                          (DbCreateIndex "ingested_at") with
           | Some cause => stderr w' = stderr w ++ [warning cause]
           | None => stderr w' = stderr w
           end
    end.
Proof.
  intros Hconn log1 warning. subst log1 warning. unfold connect_mongo.
  unfold bind at 1. unfold db_call at 1. rewrite Hconn.
  unfold try_except, bind, db_call.
  cbn [db_log log_db set_collection collection apply_db].
  destruct (db_fault rt (db_log w ++ [DbConnect uri db coll])
                     (DbCreateIndex "id")) as [cause|].
  - cbn. eexists. split; [reflexivity|]. cbn. now repeat split.
  - cbn [db_log log_db set_collection collection apply_db].
    destruct (db_fault rt ((db_log w ++ [DbConnect uri db coll])
                           ++ [DbCreateIndex "id"])
                       (DbCreateIndex "ingested_at")) as [cause|].
    + cbn. eexists. split; [reflexivity|]. cbn.
      rewrite <- !app_assoc. now repeat split.
    + eexists. split; [reflexivity|]. cbn.
      rewrite <- !app_assoc. now repeat split.
Qed.

Lemma index_refused_sample :
  exists w',
    db_fault Sample.runtime_index_refused (db_log (boot Demo.no_files []))
             (DbConnect "mongodb://localhost:27017" "threatintel"
                        "otx_pulses_raw") = None /\
    connect_mongo Sample.runtime_index_refused "mongodb://localhost:27017"
                  "threatintel" "otx_pulses_raw" (boot Demo.no_files [])
      = Some (Ok tt, w') /\
    db_log w' = [DbConnect "mongodb://localhost:27017" "threatintel"
                           "otx_pulses_raw"; DbCreateIndex "id"] /\
    stderr w' = ["[warn] index creation failed: not authorized"].
Proof.
  destruct (index_failure_is_not_fatal Sample.runtime_index_refused
              "mongodb://localhost:27017" "threatintel" "otx_pulses_raw"
              (boot Demo.no_files []) eq_refl)
    as [w' [Hrun [_ [_ [_ [_ Hlog]]]]]].
  exists w'. split; [reflexivity|]. split; [exact Hrun|].
  exact Hlog.
Defined.

(** ** Runs that stop early *)

(** X21. A process without an API key (unset or empty) ends at the key
    check, which comes before the other settings and the command line are
    looked at: it prints "Missing OTX_API_KEY in environment or .env
    file" to standard error, without the "[fatal]" prefix, and exits with
    status 1 having done nothing else: no request, no store call, no line
    on standard output, no file written. *)
Theorem missing_api_key_exits fuel rt cfg args w :
  api_key cfg = None \/ api_key cfg = Some EmptyString ->
  main fuel rt cfg args w
  = Some (1, put_err "Missing OTX_API_KEY in environment or .env file" w).
Proof.
  intros [H|H]; unfold main, run; now rewrite H.
Qed.

Lemma missing_api_key_sample :
  let cfg := mkConfig (Some EmptyString) "mongodb://localhost:27017"
                      "threatintel" "otx_pulses_raw" 50 EmptyString
                      ".otx_watermark.json" in
  (api_key cfg = None \/ api_key cfg = Some EmptyString) /\
  main 3 Sample.rt_null cfg Demo.args_plain (boot Demo.no_files [])
  = Some (1, put_err "Missing OTX_API_KEY in environment or .env file"
                     (boot Demo.no_files [])).
Proof.
  intros cfg.
  assert (Hmissing : api_key cfg = None \/ api_key cfg = Some EmptyString)
    by (right; reflexivity).
  split; [exact Hmissing|].
  exact (missing_api_key_exits 3 Sample.rt_null cfg Demo.args_plain
           (boot Demo.no_files []) Hmissing).
Defined.

(** X22. An identity check that gives no usable answer ends the process
    with status 1 right after that one request, with one line on standard
    error: a transport error, a 200 answer whose body is not JSON, and a
    200 answer whose JSON is not a mapping (the greeting calls [get] on
    it).  Nothing is printed to standard output and the store is not
    touched. *)
Theorem unusable_identity_is_fatal fuel rt cfg args fs coll key :
  api_key cfg = Some key ->
  key <> EmptyString ->
  let req := identity_request key in
  let stopped answer line :=
    Some (1, put_err line (log_exchange (req, answer) (boot fs coll))) in
  (forall e, http rt [] req = Raise e ->
             main fuel rt cfg args (boot fs coll)
             = stopped (Raise e) (last_words e)) /\
  (forall r e, http rt [] req = Ok r -> status_code r = 200 ->
               resp_json r = Raise e ->
               main fuel rt cfg args (boot fs coll)
               = stopped (Ok r) (last_words e)) /\
  (forall r me, http rt [] req = Ok r -> status_code r = 200 ->
                resp_json r = Ok me -> (forall d, me <> JDict d) ->
                main fuel rt cfg args (boot fs coll)
                = stopped (Ok r)
                    ("[fatal] '" ++ type_name me
                     ++ "' object has no attribute 'get'")%string).
Proof.
  intros Hkey Hne req stopped. subst req stopped. cbv beta.
  destruct (since_file_boot cfg args fs coll) as [persisted [Hsf _]].
  split; [|split].
  - intros e Hhttp.
    unfold main. rewrite (run_unfolds fuel rt cfg args key Hkey Hne).
    unfold bind at 1. rewrite Hsf. unfold bind at 1.
    unfold validate_api_key, bind, session_get. cbn [exchanges boot].
    rewrite Hhttp. now destruct e.
  - intros r e Hhttp Hst Hjs.
    unfold main. rewrite (run_unfolds fuel rt cfg args key Hkey Hne).
    unfold bind at 1. rewrite Hsf. unfold bind at 1.
    unfold validate_api_key, bind, session_get. cbn [exchanges boot].
    rewrite Hhttp, Hst. cbn [Z.eqb Pos.eqb negb]. unfold lift.
    rewrite Hjs. now destruct e.
  - intros r me Hhttp Hst Hjs Hme.
    unfold main. rewrite (run_unfolds fuel rt cfg args key Hkey Hne).
    unfold bind at 1. rewrite Hsf. unfold bind at 1.
    unfold validate_api_key, bind, session_get. cbn [exchanges boot].
    rewrite Hhttp, Hst. cbn [Z.eqb Pos.eqb negb]. unfold lift.
    rewrite Hjs.
    destruct me as [| | | | | |d]; try reflexivity.
    now destruct (Hme d).
Qed.

Lemma unusable_identity_sample :
  api_key Demo.config = Some Demo.key /\
  Demo.key <> EmptyString /\
  main 3 Sample.rt_odd Demo.config Demo.args_plain (boot Demo.no_files [])
  = Some (1, put_err "[fatal] 'list' object has no attribute 'get'"
               (log_exchange (identity_request Demo.key,
                              Demo.ok (JList [JStr "ann"]))
                             (boot Demo.no_files []))).
Proof.
  assert (Hne : Demo.key <> EmptyString) by discriminate.
  split; [reflexivity|]. split; [exact Hne|].
  exact (proj2 (proj2 (unusable_identity_is_fatal 3 Sample.rt_odd Demo.config
                         Demo.args_plain Demo.no_files [] Demo.key
                         eq_refl Hne))
           (mkResponse 200 EmptyString (Ok (JList [JStr "ann"])))
           (JList [JStr "ann"]) eq_refl eq_refl eq_refl
           (fun d H => ltac:(discriminate H))).
Defined.

Lemma for_each_app {A S} (body : A -> S -> M S) a b :
  forall s w,
    for_each body (a ++ b) s w
    = (s' <- for_each body a s ;; for_each body b s') w.
Proof.
  induction a as [|x a IH]; intros s w; cbn [app for_each].
  - reflexivity.
  - unfold bind in *.
    destruct (body x s w) as [[[s1|e] w1]|]; try reflexivity.
    apply IH.
Qed.

Lemma process_record_rejects rt run_id dry page bad st w :
  (forall d, bad <> JDict d) ->
  exists msg,
    process_record rt run_id dry page bad st w
    = Some (Raise (TypeError msg), w).
Proof.
  intros Hbad. unfold process_record, build_doc.
  destruct bad as [| | | | | |d]; try (eexists; reflexivity).
  now destruct (Hbad d).
Qed.

(** X23. A record that is not a mapping stops the run at that record
    with a [TypeError] (the envelope cannot be set on it): the records
    before it on the page have been counted and, unless the run is dry,
    stored; those after it are not looked at, and the line of the page is
    not printed. *)
Theorem non_mapping_record_aborts rt run_id dry page st w good bad rest :
  (dry = false -> forall log op, db_fault rt log op = None) ->
  page_records page = good ++ bad :: rest ->
  Forall is_record good ->
  (forall d, bad <> JDict d) ->
  exists msg w',
    process_page rt run_id dry page st w = Some (Raise (TypeError msg), w') /\
    exchanges w' = exchanges w /\
    adds (if dry then []
          else updates_of_records rt run_id (page_no st + 1)
                 (clock_reads w) good)
         (List.length good) 0 [] w w'.
Proof.
  intros Hdb Hrecs Hgood Hbad.
  unfold page_records in Hrecs.
  destruct (py_get page "results" (JList [])) as [results|] eqn:Hres;
    [|destruct good; discriminate].
  destruct (py_iter results) as [items|] eqn:Hiter;
    [|destruct good; discriminate].
  subst items.
  set (st0 := mkRunState (latest_modified_seen st) (page_no st + 1)
                         (docs_ingested st)).
  destruct (for_each_records_add rt run_id dry (page_no st + 1) good Hdb
              Hgood st0 w) as [s1 [w1 [H1 [He1 Ha1]]]].
  destruct (process_record_rejects rt run_id dry (page_no st + 1) bad s1 w1
              Hbad) as [msg Hrej].
  exists msg, w1. split; [|split; [exact He1|exact Ha1]].
  unfold process_page. unfold bind at 1. unfold lift at 1. rewrite Hres.
  unfold bind at 1. unfold lift at 1. rewrite Hiter.
  unfold bind at 1. cbn [page_no]. fold st0.
  rewrite for_each_app. unfold bind at 1. rewrite H1.
  cbn [for_each]. unfold bind at 1. now rewrite Hrej.
Qed.

Lemma mixed_page_sample :
  exists msg w',
    page_records Sample.page_mixed
    = [Demo.pulse1] ++ JStr "p2" :: [Demo.pulse3] /\
    Forall is_record [Demo.pulse1] /\
    (forall d, JStr "p2" <> JDict d) /\
    process_page Sample.rt_null "run-1" false Sample.page_mixed
                 (mkRunState JNull 0 0) (boot Demo.no_files [])
      = Some (Raise (TypeError msg), w') /\
    msg = "'str' object does not support item assignment" /\
    List.length (collection w') = 1%nat /\
    stdout w' = [].
Proof.
  assert (Hgood : Forall is_record [Demo.pulse1])
    by (repeat constructor; eexists; reflexivity).
  assert (Hbad : forall d, JStr "p2" <> JDict d) by discriminate.
  destruct (non_mapping_record_aborts Sample.rt_null "run-1" false
              Sample.page_mixed (mkRunState JNull 0 0)
              (boot Demo.no_files []) [Demo.pulse1] (JStr "p2")
              [Demo.pulse3] (fun _ _ _ => eq_refl) eq_refl Hgood Hbad)
    as [msg [w' [Hrun [_ Hadds]]]].
  exists msg, w'. split; [reflexivity|]. split; [exact Hgood|].
  split; [exact Hbad|]. split; [exact Hrun|].
  vm_compute in Hrun. injection Hrun as <- <-.
  split; [reflexivity|]. split; reflexivity.
Defined.

(** ** A listing without end *)

Lemma follow_pages_endless {S} rt key (body : json -> S -> M S) :
  (forall log req,
      exists r d u,
        http rt log req = Ok r /\ status_code r = 200 /\
        resp_json r = Ok (JDict d) /\
        Dict.lookup d "next" = Some (JStr u) /\ u <> EmptyString) ->
  (forall page s w, exists s' w', body page s w = Some (Ok s', w')) ->
  forall fuel url params s w,
    url <> EmptyString ->
    follow_pages fuel rt key (JStr url) params body s w = None.
Proof.
  intros Hfeed Hbody.
  induction fuel as [|fuel IH]; intros url params s w Hurl; [reflexivity|].
  cbn [follow_pages]. rewrite (truthy_url url Hurl).
  unfold bind at 1. unfold lift at 1. cbn [py_contains_qmark].
  unfold bind at 1. unfold session_get.
  destruct (Hfeed (exchanges w)
              (mkRequest (JStr url) (api_headers key)
                         (if PyStr.contains "?" url then None else params)))
    as [r [d [u [Hhttp [Hst [Hjs [Hnext Hu]]]]]]].
  rewrite Hhttp, Hst. cbn [Z.eqb Pos.eqb negb].
  unfold bind at 1. unfold lift at 1. rewrite Hjs.
  destruct (Hbody (JDict d) s
              (log_exchange
                 (mkRequest (JStr url) (api_headers key)
                            (if PyStr.contains "?" url then None else params),
                  Ok r) w)) as [s' [w' Hrun]].
  unfold bind at 1. rewrite Hrun.
  unfold bind at 1. unfold lift at 1. cbn [py_get].
  unfold Dict.get_default. rewrite Hnext.
  apply IH. exact Hu.
Qed.

(** X24. The extractor has no page limit of its own: when every answer
    is a page that names a next one, it produces no result, whatever the
    fuel. *)
Theorem endless_listing_never_ends rt key :
  (forall log req,
      exists r d u,
        http rt log req = Ok r /\ status_code r = 200 /\
        resp_json r = Ok (JDict d) /\
        Dict.lookup d "next" = Some (JStr u) /\ u <> EmptyString) ->
  forall fuel limit modified_since w,
    fetch_all fuel rt key limit modified_since w = None.
Proof.
  intros Hfeed fuel limit modified_since w. unfold fetch_all, fetch_pulses.
  apply follow_pages_endless; [exact Hfeed| |discriminate].
  intros page s w0. now eexists; eexists.
Qed.

Lemma endless_listing_sample :
  (forall log req,
      exists r d u,
        http Sample.rt_endless log req = Ok r /\ status_code r = 200 /\
        resp_json r = Ok (JDict d) /\
        Dict.lookup d "next" = Some (JStr u) /\ u <> EmptyString) /\
  fetch_all 1000 Sample.rt_endless Demo.key 50 JNull (boot Demo.no_files [])
  = None.
Proof.
  assert (H : forall log req,
             exists r d u,
               http Sample.rt_endless log req = Ok r /\ status_code r = 200 /\
               resp_json r = Ok (JDict d) /\
               Dict.lookup d "next" = Some (JStr u) /\ u <> EmptyString).
  { intros log req. eexists. eexists. eexists.
    split; [reflexivity|]. split; [reflexivity|]. split; [reflexivity|].
    split; [reflexivity|discriminate]. }
  split; [exact H|].
  exact (endless_listing_never_ends Sample.rt_endless Demo.key H 1000 50 JNull
           (boot Demo.no_files [])).
Defined.

(** ** What reaches the store *)

Lemma normalized_keys_fixed obj :
  forall k, In k (json_keys (make_mongo_safe obj)) -> safe_key k = k.
Proof.
  induction obj as [| | | | |l IH|d IH] using json_tree_ind;
    cbn [make_mongo_safe json_keys]; intros k Hk; try contradiction.
  - apply in_flat_map in Hk. destruct Hk as [x [Hx Hk]].
    apply in_map_iff in Hx. destruct Hx as [x0 [<- Hx0]].
    rewrite Forall_forall in IH. now apply (IH x0).
  - apply in_flat_map in Hk. destruct Hk as [[k1 v1] [Hin Hk]].
    apply DictFacts.of_items_In in Hin. apply in_map_iff in Hin.
    destruct Hin as [[k0 v0] [Heq Hin0]]. cbn [fst snd] in Heq.
    injection Heq as <- <-. cbn [fst snd] in Hk.
    destruct Hk as [<-|Hk]; [apply safe_key_idempotent|].
    rewrite Forall_forall in IH. now apply (IH (k0, v0) Hin0).
Qed.

Lemma fixed_key_is_safe k : safe_key k = k -> key_is_safe k.
Proof.
  intros <-. split; [intros i; apply safe_key_no_dot|apply safe_key_no_dollar].
Qed.

Lemma json_keys_set d k v :
  forall k',
    In k' (json_keys (JDict (Dict.set d k v))) ->
    k' = k \/ In k' (json_keys v) \/ In k' (json_keys (JDict d)).
Proof.
  induction d as [|[k0 v0] d IH]; intros k'; cbn [Dict.set].
  - cbn [json_keys flat_map fst snd app]. rewrite app_nil_r.
    intros [<-|H]; [now left|now right; left].
  - destruct (String.eqb_spec k0 k) as [->|Hne].
    + cbn [json_keys flat_map fst snd]. intros [<-|H]; [now left|].
      apply in_app_or in H. destruct H as [H|H]; [now right; left|].
      right. right. right. apply in_or_app. now right.
    + change (json_keys (JDict ((k0, v0) :: ?r)))
        with ((k0 :: json_keys v0) ++ json_keys (JDict r)).
      intros H. apply in_app_or in H. destruct H as [H|H].
      * right. right. apply in_or_app. now left.
      * destruct (IH k' H) as [E|[E|E]]; [now left|now right; left|].
        right. right. apply in_or_app. now right.
Qed.

Lemma envelope_keys_safe rt run_id page n d :
  Forall key_is_safe (json_keys (JDict d)) ->
  Forall key_is_safe (json_keys (JDict (envelope rt run_id page n d))).
Proof.
  intros Hd. rewrite Forall_forall in *. intros k Hk. unfold envelope in Hk.
  assert (Hsafe : forall name, safe_key name = name -> key_is_safe name)
    by apply fixed_key_is_safe.
  apply json_keys_set in Hk.
  destruct Hk as [->|[[]|Hk]]; [now apply Hsafe|].
  apply json_keys_set in Hk.
  destruct Hk as [->|[[]|Hk]]; [now apply Hsafe|].
  apply json_keys_set in Hk.
  destruct Hk as [->|[[]|Hk]]; [now apply Hsafe|].
  apply json_keys_set in Hk.
  destruct Hk as [->|[[]|Hk]]; [now apply Hsafe|].
  now apply Hd.
Qed.

Lemma natural_key_safe rt doc key :
  natural_key rt doc = Ok key -> Forall key_is_safe (Dict.keys key).
Proof.
  unfold natural_key.
  destruct (py_get doc "id" JNull) as [id|]; [|discriminate].
  destruct (py_get doc "revision" JNull) as [revision|]; [|discriminate].
  destruct id; intros [= <-]; cbn [Dict.keys map fst];
    repeat constructor; now apply fixed_key_is_safe.
Qed.

Lemma safe_keys_same w w' : db_log w' = db_log w -> sends_safe_keys w w'.
Proof. intros H. exists []. now rewrite app_nil_r. Qed.

Lemma safe_keys_trans a b c :
  sends_safe_keys a b -> sends_safe_keys b c -> sends_safe_keys a c.
Proof.
  intros [n1 [H1 F1]] [n2 [H2 F2]]. exists (n1 ++ n2).
  split; [now rewrite H2, H1, app_assoc|now apply Forall_app].
Qed.

Lemma db_call_safe_keys rt op :
  op_is_safe op -> keeps sends_safe_keys (db_call rt op).
Proof.
  intros Hop w r w'. unfold db_call.
  destruct (db_fault rt (db_log w) op); intros [= _ <-];
    exists [op]; split; try reflexivity; now constructor.
Qed.

Ltac safe_side :=
  solve [ apply safe_keys_trans
        | intros; apply safe_keys_same; reflexivity ].

Lemma process_record_safe_keys rt run_id dry page p st :
  keeps sends_safe_keys (process_record rt run_id dry page p st).
Proof.
  intros w r w' H. unfold process_record in H.
  apply bind_inv in H. destruct H as [[doc [w1 [Hdoc H]]]|[e [Hdoc _]]].
  - apply build_doc_inv in Hdoc.
    destruct Hdoc as [d [Hd [_ [-> ->]]]].
    apply (safe_keys_trans w (tick w) w'); [now apply safe_keys_same|].
    revert H. apply keeps_bind; try safe_side.
    + destruct dry; [apply keeps_ret; safe_side|].
      unfold upsert_pulse. intros w0 r0 w2 H.
      apply bind_inv in H.
      destruct H as [[key [w3 [Hkey H]]]|[e [Hkey _]]];
        apply lift_inv in Hkey; destruct Hkey as [Hkey ->].
      * revert H. apply db_call_safe_keys. split.
        -- symmetry in Hkey. exact (natural_key_safe rt _ key Hkey).
        -- apply envelope_keys_safe. rewrite <- Hd.
           apply Forall_forall. intros k Hk.
           now apply fixed_key_is_safe, (normalized_keys_fixed p).
      * now apply safe_keys_same.
    + intros u. apply keeps_ret; safe_side.
  - eapply (keeps_build_doc sends_safe_keys); try exact Hdoc; safe_side.
Qed.

Lemma connect_mongo_safe_keys rt uri db coll :
  keeps sends_safe_keys (connect_mongo rt uri db coll).
Proof.
  unfold connect_mongo. apply keeps_bind; try safe_side.
  - now apply db_call_safe_keys.
  - intros u. apply keeps_try_except; try safe_side.
    + apply keeps_bind; try safe_side.
      * now apply db_call_safe_keys.
      * intros u'. now apply db_call_safe_keys.
    + intros msg. apply keeps_eprint; safe_side.
Qed.

(** X26. Whatever the feed sends, every document a process hands to the
    store has keys the store accepts, at every nesting depth: no key holds
    a "." and none starts with "$"; and so do the filters of its
    upserts. *)
Theorem stored_documents_have_safe_keys fuel rt cfg args fs coll code w1
    filter doc :
  main fuel rt cfg args (boot fs coll) = Some (code, w1) ->
  In (DbUpdateOne filter doc) (db_log w1) ->
  (forall k, In k (json_keys doc) ->
             (forall i, String.get i k <> Some "."%char) /\
             String.get 0 k <> Some "$"%char) /\
  (forall k, In k (Dict.keys filter) ->
             (forall i, String.get i k <> Some "."%char) /\
             String.get 0 k <> Some "$"%char).
Proof.
  intros Hmain Hin.
  assert (H : sends_safe_keys (boot fs coll) w1).
  { revert Hmain. apply keeps_main_with; try safe_side.
    - intros req a r b [= _ <-]. now apply safe_keys_same.
    - intros _. apply connect_mongo_safe_keys.
    - intros n p s. apply process_record_safe_keys. }
  destruct H as [new [Hlog Hall]]. cbn [boot db_log app] in Hlog.
  rewrite Hlog in Hin. rewrite Forall_forall in Hall.
  destruct (Hall _ Hin) as [Hf Hd]. rewrite Forall_forall in Hf, Hd.
  split; intros k Hk; [now apply Hd|now apply Hf].
Qed.

Lemma safe_keys_sample :
  exists code w1 filter doc,
    main 3 Sample.rt_null Demo.config Demo.args_plain (boot Demo.no_files [])
      = Some (code, w1) /\
    In (DbUpdateOne filter doc) (db_log w1) /\
    In "type_name" (json_keys doc) /\
    (forall k, In k (json_keys doc) ->
               (forall i, String.get i k <> Some "."%char) /\
               String.get 0 k <> Some "$"%char).
Proof.
  destruct (main 3 Sample.rt_null Demo.config Demo.args_plain
                 (boot Demo.no_files [])) as [[code w1]|] eqn:Hrun;
    [|vm_compute in Hrun; discriminate].
  pose proof Hrun as Hlog. vm_compute in Hlog. injection Hlog as _ Hw1.
  assert (Hop : exists filter doc,
             In (DbUpdateOne filter doc) (db_log w1) /\
             In "type_name" (json_keys doc)).
  { rewrite <- Hw1. eexists. eexists. split.
    - cbn [db_log]. right. right. right. left. reflexivity.
    - vm_compute. tauto. }
  destruct Hop as [filter [doc [Hin Hkey]]].
  exists code, w1, filter, doc. split; [reflexivity|].
  split; [exact Hin|]. split; [exact Hkey|].
  exact (proj1 (stored_documents_have_safe_keys 3 Sample.rt_null Demo.config
                  Demo.args_plain Demo.no_files [] code w1 filter doc
                  Hrun Hin)).
Defined.
